(** * Lobby Experience: visitor-record reconciliation

    A shallow embedding of the reconciliation core of the Outlook add-in:
    attendee classification ([OutlookEventService.filterExternalUsers]),
    the SharePoint list client ([SharePointService]), the Power Automate
    notification client ([PowerAutomateService]), the task pane driver
    ([TaskpaneApp.processVisitors]) and the ribbon commands [manualSync]
    and [quickProcessVisitors]; beside them the listener registry of
    [OutlookEventService], the token cache of [SharePointService], the
    notification history kept in [localStorage] and the activity log of
    the task pane.

    Conventions of the embedding.
    - JavaScript strings are modelled as [string] (sequences of 8-bit
      characters); [toLowerCase] and the [/i] flag of the room patterns
      act on the ASCII letters.
    - A property that the code reads without checking its type is a
      [JsVal]; reading a method of a value that does not have it raises
      [TypeError], as it does in JavaScript.
    - Asynchronous code is modelled in a state-and-exception monad over
      the world it talks to; [await] is sequencing.  Remote systems are
      part of that world: they serve each request honestly unless the
      world's script injects a fault for it.
    - Instants are milliseconds since the epoch ([Z]); the ISO-8601
      rendering done by [formatDateTime] is not modelled.
    - A request of the list client stands for one attempt on the list,
      with the token and the digest it acquires on the way: the world
      of [SharePointService] logs the attempt, not the calls to the
      identity provider or to [_api/contextinfo].  The token cache is
      modelled on its own ([AccessToken]). *)

From Stdlib Require Import List String Ascii ZArith Lia Bool Arith PeanoNat.
From Stdlib Require Import Permutation.
From Equations Require Import Equations.
Import ListNotations.
Open Scope string_scope.
Open Scope list_scope.

Set Implicit Arguments.

(* ===================================================================== *)
(** * JavaScript values and string primitives                            *)
(* ===================================================================== *)

Module Js.

Inductive JsVal : Type :=
| JUndefined
| JNull
| JBool (b : bool)
| JNum (z : Z)
| JStr (s : string).

(** ToBoolean. *)
Definition truthy (v : JsVal) : bool :=
  match v with
  | JUndefined | JNull => false
  | JBool b => b
  | JNum z => negb (Z.eqb z 0)
  | JStr s => negb (String.eqb s "")
  end.

Inductive Error : Type :=
| TypeError
| NetworkError
| ParseError
| HttpError (status : nat)
| TimeoutError (ms : Z)
| ConfigError (msg : string).

Inductive Exc (A : Type) : Type :=
| Ok (a : A)
| Throw (e : Error).
Arguments Ok {A} a.
Arguments Throw {A} e.

Definition lower_ascii (c : ascii) : ascii :=
  let n := nat_of_ascii c in
  if ((65 <=? n)%nat && (n <=? 90)%nat) then ascii_of_nat (n + 32) else c.

(** [String.prototype.toLowerCase]. *)
Fixpoint toLowerCase (s : string) : string :=
  match s with
  | EmptyString => EmptyString
  | String c r => String (lower_ascii c) (toLowerCase r)
  end.

(** [s.startsWith(p)]. *)
Definition startsWith (s p : string) : bool := String.prefix p s.

(** [s.endsWith(p)]. *)
Definition endsWith (s p : string) : bool :=
  let n := String.length s in
  let m := String.length p in
  (m <=? n)%nat && String.eqb (String.substring (n - m) m s) p.

Definition is_digit (c : ascii) : bool :=
  let n := nat_of_ascii c in ((48 <=? n)%nat && (n <=? 57)%nat).

(** [s.split('@')[0]]: the characters before the first ['@']. *)
Fixpoint before_at (s : string) : string :=
  match s with
  | EmptyString => EmptyString
  | String c r => if Ascii.eqb c "@"%char then EmptyString
                  else String c (before_at r)
  end.

(** [v.split('@')[0]] on an arbitrary value: only strings have [split]. *)
Definition split_at_0 (v : JsVal) : Exc JsVal :=
  match v with
  | JStr s => Ok (JStr (before_at s))
  | _ => Throw TypeError
  end.

End Js.
Import Js.

(* ===================================================================== *)
(** * State-and-exception monad                                          *)
(* ===================================================================== *)

(** An [async] function over a world [W]: it returns the world it leaves
    behind together with its value or the exception it threw. *)
Definition M (W A : Type) : Type := W -> W * Exc A.

Definition ret {W A} (a : A) : M W A := fun w => (w, Ok a).
Definition throw {W A} (e : Error) : M W A := fun w => (w, Throw e).

Definition bind {W A B} (m : M W A) (k : A -> M W B) : M W B :=
  fun w =>
    match m w with
    | (w', Ok a) => k a w'
    | (w', Throw e) => (w', Throw e)
    end.

(** [try { m } catch (error) { h error }]. *)
Definition try_catch {W A} (m : M W A) (h : Error -> M W A) : M W A :=
  fun w =>
    match m w with
    | (w', Ok a) => (w', Ok a)
    | (w', Throw e) => h e w'
    end.

(** [try { m } finally { f }] where [f] cannot throw. *)
Definition try_finally {W A} (m : M W A) (f : W -> W) : M W A :=
  fun w => let (w', r) := m w in (f w', r).

Definition lift_exc {W A} (r : Exc A) : M W A := fun w => (w, r).
Definition modify {W} (f : W -> W) : M W unit := fun w => (f w, Ok tt).
Definition gets {W A} (f : W -> A) : M W A := fun w => (w, Ok (f w)).

Declare Scope async_scope.
Delimit Scope async_scope with async.
Notation "x <- m ;; k" := (bind m (fun x => k))
  (at level 61, m at next level, right associativity) : async_scope.
Notation "m ;;; k" := (bind m (fun _ => k))
  (at level 61, right associativity) : async_scope.
Open Scope async_scope.

(** [for (const x of xs) { await body(x) }]. *)
Fixpoint for_of {W A} (xs : list A) (body : A -> M W unit) : M W unit :=
  match xs with
  | [] => ret tt
  | x :: r => body x ;;; for_of r body
  end.

(** [for (const x of xs) { acc.push(await body(x)) }]. *)
Fixpoint for_push {W A B} (xs : list A) (body : A -> M W B) (acc : list B)
  : M W (list B) :=
  match xs with
  | [] => ret acc
  | x :: r => b <- body x ;; for_push r body (acc ++ [b])
  end.

(* ===================================================================== *)
(** * OutlookEventService: classification of attendees                   *)
(* ===================================================================== *)

Module OutlookEventService.

(** An entry of [requiredAttendees] / [optionalAttendees]. *)
Record Attendee : Type := {
  emailAddress : JsVal;
  name : JsVal
}.

(** [config.outlook]. *)
Record OutlookConfig : Type := {
  internalDomains : option (list string);
  excludeRooms : option bool
}.

Record Config : Type := {
  outlook : option OutlookConfig
}.

(** [config.outlook?.internalDomains || []]. *)
Definition cfg_internalDomains (config : Config) : list string :=
  match outlook config with
  | Some o => match internalDomains o with Some l => l | None => [] end
  | None => []
  end.

(** [x || d] for a property [x] that is undefined ([None]), [false] or
    [true]: the right operand is taken whenever [x] is falsy. *)
Definition or_default (x : option bool) (d : bool) : bool :=
  match x with
  | Some true => true
  | Some false => d
  | None => d
  end.

(** [config.outlook?.excludeRooms || true]. *)
Definition cfg_excludeRooms (config : Config) : bool :=
  match outlook config with
  | Some o => or_default (excludeRooms o) true
  | None => or_default None true
  end.

(** [/^room\d+/i.test(email)]. *)
Definition room_digits (email : string) : bool :=
  let e := toLowerCase email in
  startsWith e "room" &&
  match String.get 4 e with
  | Some c => is_digit c
  | None => false
  end.

(** [isRoomEmail]: some pattern of [roomPatterns] matches. *)
Definition isRoomEmail (email : string) : bool :=
  let e := toLowerCase email in
  existsb (fun p => p)
    [ room_digits email;                 (* /^room\d+/i   *)
      startsWith e "conference";         (* /^conference/i *)
      startsWith e "meeting";            (* /^meeting/i    *)
      startsWith e "boardroom";          (* /^boardroom/i  *)
      startsWith e "conf-";              (* /^conf-/i      *)
      endsWith e "-room";                (* /-room$/i      *)
      startsWith e "resource-" ].        (* /^resource-/i  *)

(** The callback given to [attendees.filter]. *)
Definition keep_attendee (internalDomains : list string) (excludeRooms : bool)
           (attendee : Attendee) : Exc bool :=
  if negb (truthy (emailAddress attendee)) then Ok false
  else
    match emailAddress attendee with
    | JStr s =>
        let email := toLowerCase s in
        if excludeRooms && isRoomEmail email then Ok false
        else
          let isInternal :=
            existsb (fun domain => endsWith email (String.append "@" (toLowerCase domain)))
                    internalDomains in
          Ok (negb isInternal)
    | _ => Throw TypeError       (* no [toLowerCase] on a non-string *)
    end.

(** [Array.prototype.filter] with a callback that may throw. *)
Fixpoint filter_exc {A} (p : A -> Exc bool) (l : list A) : Exc (list A) :=
  match l with
  | [] => Ok []
  | x :: r =>
      match p x with
      | Throw e => Throw e
      | Ok b =>
          match filter_exc p r with
          | Throw e => Throw e
          | Ok r' => Ok (if b then x :: r' else r')
          end
      end
  end.

(** The [try] block of [filterExternalUsers]. *)
Definition filterExternalUsers_try (config : Config) (attendees : list Attendee)
  : Exc (list Attendee) :=
  let internalDomains := cfg_internalDomains config in
  let excludeRooms := cfg_excludeRooms config in
  filter_exc (keep_attendee internalDomains excludeRooms) attendees.

(** [filterExternalUsers]: the [catch] block logs and returns [[]]. *)
Definition filterExternalUsers (config : Config) (attendees : list Attendee)
  : list Attendee :=
  match filterExternalUsers_try config attendees with
  | Ok l => l
  | Throw _ => []
  end.

End OutlookEventService.

(* ===================================================================== *)
(** * Retry with exponential backoff                                     *)
(* ===================================================================== *)

Record RetryConfig : Type := {
  maxRetries : nat;
  retryDelay : Z;
  backoffMultiplier : Z
}.

Module Retry.
Section WithWorld.

Context {W : Type}.
(** [await new Promise(resolve => setTimeout(resolve, delay))]. *)
Variable sleep : Z -> W -> W.
Variable retryConfig : RetryConfig.

(** [executeWithRetry(operation, retryCount = 0)], the method both
    clients define with the same body.  The recursion is the source's:
    it stops because [retryCount] grows towards [maxRetries]. *)
Equations? executeWithRetry {A} (operation : M W A) (retryCount : nat) (w : W)
  : W * Exc A by wf (maxRetries retryConfig - retryCount) lt :=
  executeWithRetry operation retryCount w with operation w := {
    | (w', Ok v) := (w', Ok v);
    | (w', Throw error) with lt_dec retryCount (maxRetries retryConfig) := {
        | left _ :=
            let delay := (retryDelay retryConfig *
                          backoffMultiplier retryConfig ^ Z.of_nat retryCount)%Z in
            executeWithRetry operation (S retryCount) (sleep delay w');
        | right _ := (w', Throw error) } }.
Proof. lia. Qed.

End WithWorld.
End Retry.

(* ===================================================================== *)
(** * SharePointService: the record-store client                         *)
(* ===================================================================== *)

Module SharePointService.

Import OutlookEventService.

Inductive RecordStatus : Type := Scheduled | Completed | Cancelled.

(** The fields the add-in writes to an item of the visitor list. *)
Record ItemData : Type := {
  MeetingId : string;
  MeetingTitle : string;
  VisitorEmail : JsVal;
  VisitorName : JsVal;
  StartTime : option Z;
  EndTime : option Z;
  Status : RecordStatus;
  CreatedDate : option Z;
  ModifiedDate : option Z
}.

(** An item as the list returns it: the store assigns [Id]. *)
Record ListItem : Type := {
  Id : nat;
  data : ItemData
}.

(** The REST calls the client issues against [.../items].  The POST to
    [_api/contextinfo] that precedes a write ([getRequestDigest], which
    falls back to a dummy digest and never throws) is not a list operation
    and is not recorded. *)
Inductive Request : Type :=
| GetItems (meetingId : string)        (* GET  items?$filter=MeetingId eq '..' *)
| GetStats (cutoff : Z)                (* GET  items?$filter=CreatedDate ge .. *)
| PostItem (itemData : ItemData)       (* POST items                           *)
| DeleteItem (itemId : nat).           (* DELETE items(itemId)                 *)

Inductive Body : Type :=
| NoBody
| Results (l : list ListItem)          (* [data.d.results] *)
| Created (i : ListItem).              (* [data.d]         *)

Record Response : Type := {
  status : nat;
  body : Body
}.

(** [response.ok]: the status is in the range 200-299. *)
Definition ok (r : Response) : bool :=
  ((200 <=? status r)%nat && (status r <=? 299)%nat).

(** What the world may do to one request instead of serving it:
    [Reject] makes the call fail before any response arrives (no token,
    no network); [Respond s] answers with status [s] and an empty body,
    leaving the list as it is. *)
Inductive Fault : Type :=
| Reject
| Respond (s : nat).

Record World : Type := {
  items : list ListItem;               (* the remote list                 *)
  nextId : nat;                        (* the Id the next item receives   *)
  script : list (option Fault);        (* one entry per request to come   *)
  requests : list Request;             (* every request issued so far     *)
  now : Z;                             (* the clock, in ms                *)
  waits : list Z                       (* the backoff delays slept so far *)
}.

Definition set_items (l : list ListItem) (n : nat) (w : World) : World :=
  {| items := l; nextId := n; script := script w;
     requests := requests w; now := now w; waits := waits w |}.

(** The request is recorded and takes the next entry of the script. *)
Definition issue (rq : Request) (w : World) : World :=
  {| items := items w; nextId := nextId w; script := tl (script w);
     requests := requests w ++ [rq]; now := now w; waits := waits w |}.

Definition sleep (delay : Z) (w : World) : World :=
  {| items := items w; nextId := nextId w; script := script w;
     requests := requests w; now := (now w + delay)%Z;
     waits := waits w ++ [delay] |}.

Definition has_id (itemId : nat) (i : ListItem) : bool := Nat.eqb (Id i) itemId.

Definition is_meeting (meetingId : string) (i : ListItem) : bool :=
  String.eqb (MeetingId (data i)) meetingId.

Definition created_since (cutoff : Z) (i : ListItem) : bool :=
  match CreatedDate (data i) with
  | Some t => (cutoff <=? t)%Z
  | None => false
  end.

(** The list, serving one request honestly. *)
Definition serve (rq : Request) (w : World) : World * Response :=
  match rq with
  | GetItems meetingId =>
      (w, {| status := 200; body := Results (filter (is_meeting meetingId) (items w)) |})
  | GetStats cutoff =>
      (w, {| status := 200; body := Results (filter (created_since cutoff) (items w)) |})
  | PostItem itemData =>
      let i := {| Id := nextId w; data := itemData |} in
      (set_items (items w ++ [i]) (S (nextId w)) w,
       {| status := 201; body := Created i |})
  | DeleteItem itemId =>
      if existsb (has_id itemId) (items w)
      then (set_items (filter (fun i => negb (has_id itemId i)) (items w)) (nextId w) w,
            {| status := 200; body := NoBody |})
      else (w, {| status := 404; body := NoBody |})
  end.

(** [await fetch(url, ...)] (with the token and digest it needs). *)
Definition fetch (rq : Request) : M World Response :=
  fun w =>
    let w1 := issue rq w in
    match script w with
    | Some Reject :: _ => (w1, Throw NetworkError)
    | Some (Respond s) :: _ => (w1, Ok {| status := s; body := NoBody |})
    | None :: _ | [] => let (w2, r) := serve rq w1 in (w2, Ok r)
    end.

Definition retryConfig : RetryConfig :=
  {| maxRetries := 3; retryDelay := 1000; backoffMultiplier := 2 |}.

Definition executeWithRetry {A} (operation : M World A) (retryCount : nat)
  : M World A :=
  Retry.executeWithRetry sleep retryConfig operation retryCount.

(** [formatDateTime]: a missing date stays [null]. *)
Definition formatDateTime (date : option Z) : option Z :=
  match date with
  | None => None
  | Some t => Some t
  end.

(** The operation [createListItem] hands to [executeWithRetry]. *)
Definition createListItem_operation (itemData : ItemData) : M World ListItem :=
  response <- fetch (PostItem itemData) ;;
  if negb (ok response) then throw (HttpError (status response))
  else match body response with
       | Created d => ret d
       | _ => throw ParseError
       end.

(** [createListItem]. *)
Definition createListItem (itemData : ItemData) : M World ListItem :=
  executeWithRetry (createListItem_operation itemData) 0.

(** The operation [getVisitorRecordsByMeetingId] hands to
    [executeWithRetry]. *)
Definition getVisitorRecords_operation (meetingId : string)
  : M World (list ListItem) :=
  response <- fetch (GetItems meetingId) ;;
  if negb (ok response) then throw (HttpError (status response))
  else match body response with
       | Results l => ret l
       | _ => throw ParseError
       end.

(** [getVisitorRecordsByMeetingId]. *)
Definition getVisitorRecordsByMeetingId (meetingId : string)
  : M World (list ListItem) :=
  executeWithRetry (getVisitorRecords_operation meetingId) 0.

(** The operation [deleteListItem] hands to [executeWithRetry]. *)
Definition deleteListItem_operation (itemId : nat) : M World bool :=
  response <- fetch (DeleteItem itemId) ;;
  if negb (ok response) && negb (Nat.eqb (status response) 404)
  then throw (HttpError (status response))
  else ret (ok response).

(** [deleteListItem]. *)
Definition deleteListItem (itemId : nat) : M World bool :=
  executeWithRetry (deleteListItem_operation itemId) 0.

(** [user.name || user.emailAddress.split('@')[0]]. *)
Definition visitorName (user : Attendee) : Exc JsVal :=
  if truthy (name user) then Ok (name user)
  else split_at_0 (emailAddress user).

(** The [record] literal built in [createVisitorRecord]. *)
Definition make_record (meetingId meetingTitle : string) (user : Attendee)
           (startTime endTime : option Z) : M World ItemData :=
  vname <- lift_exc (visitorName user) ;;
  today <- gets now ;;
  ret {| MeetingId := meetingId;
         MeetingTitle := meetingTitle;
         VisitorEmail := emailAddress user;
         VisitorName := vname;
         StartTime := formatDateTime startTime;
         EndTime := formatDateTime endTime;
         Status := Scheduled;
         CreatedDate := formatDateTime (Some today);
         ModifiedDate := formatDateTime (Some today) |}.

(** [createVisitorRecord]: its [catch] logs and rethrows. *)
Definition createVisitorRecord (meetingId meetingTitle : string)
           (externalUsers : list Attendee) (startTime endTime : option Z)
  : M World (list ListItem) :=
  try_catch
    (for_push externalUsers
       (fun user =>
          record <- make_record meetingId meetingTitle user startTime endTime ;;
          createListItem record)
       [])
    (fun error => throw error).

(** [updateVisitorRecords]: its [catch] logs and rethrows. *)
Definition updateVisitorRecords (meetingId meetingTitle : string)
           (externalUsers : list Attendee) (startTime endTime : option Z)
  : M World (list ListItem) :=
  try_catch
    (existingRecords <- getVisitorRecordsByMeetingId meetingId ;;
     for_of existingRecords (fun record => deleteListItem (Id record) ;;; ret tt) ;;;
     if (0 <? List.length externalUsers)%nat
     then createVisitorRecord meetingId meetingTitle externalUsers startTime endTime
     else ret [])
    (fun error => throw error).

(** [deleteVisitorRecords]: its [catch] logs and rethrows. *)
Definition deleteVisitorRecords (meetingId : string) : M World nat :=
  try_catch
    (existingRecords <- getVisitorRecordsByMeetingId meetingId ;;
     for_of existingRecords (fun record => deleteListItem (Id record) ;;; ret tt) ;;;
     ret (List.length existingRecords))
    (fun error => throw error).

(** [getStatistics]: one unretried read; only its length is used here. *)
Definition getStatistics (dateRange : Z) : M World nat :=
  today <- gets now ;;
  response <- fetch (GetStats (today - dateRange * 86400000)%Z) ;;
  if negb (ok response) then throw (HttpError (status response))
  else match body response with
       | Results records => ret (List.length records)
       | _ => throw ParseError
       end.

End SharePointService.

(* ===================================================================== *)
(** * PowerAutomateService: the notification client                      *)
(* ===================================================================== *)

(** The change kinds that travel from the event handlers to the
    notification payload ([changeType], [notificationType]). *)
Inductive ChangeType : Type :=
| manual
| created
| updated
| cancelled
| deleted
| recipients_changed
| subject_changed
| time_changed
| appointment_changed.

Module PowerAutomateService.

Import OutlookEventService.

(** [config.powerAutomate]; [url_parses] tells whether
    [new URL(notificationUrl)] succeeds. *)
Record PAConfig : Type := {
  notificationUrl : string;
  url_parses : bool;
  timeout : option Z
}.

(** The JSON document posted to the flow. *)
Record Payload : Type := {
  p_meetingId : string;
  p_meetingTitle : string;
  p_visitorEmail : JsVal;
  p_visitorName : JsVal;
  p_startTime : option Z;
  p_endTime : option Z;
  p_notificationType : ChangeType;
  p_timestamp : Z
}.

(** What the world may do to one POST instead of accepting it:
    [Reject] fails the call, [Abort] lets the timeout fire, [Respond s]
    answers with status [s]. *)
Inductive Fault : Type :=
| Reject
| Abort
| Respond (s : nat).

Record World : Type := {
  powerAutomate : option PAConfig;
  isInitialized : bool;
  script : list (option Fault);        (* one entry per POST to come      *)
  posted : list Payload;               (* every POST issued so far        *)
  delivered : list Payload;            (* the POSTs the flow accepted     *)
  nextNotification : nat;              (* source of [notificationId]      *)
  now : Z;
  waits : list Z
}.

Definition set_initialized (b : bool) (w : World) : World :=
  {| powerAutomate := powerAutomate w; isInitialized := b;
     script := script w; posted := posted w; delivered := delivered w;
     nextNotification := nextNotification w; now := now w; waits := waits w |}.

Definition issue (p : Payload) (w : World) : World :=
  {| powerAutomate := powerAutomate w; isInitialized := isInitialized w;
     script := tl (script w); posted := posted w ++ [p];
     delivered := delivered w;
     nextNotification := nextNotification w; now := now w; waits := waits w |}.

Definition accept (p : Payload) (w : World) : World :=
  {| powerAutomate := powerAutomate w; isInitialized := isInitialized w;
     script := script w; posted := posted w;
     delivered := delivered w ++ [p];
     nextNotification := nextNotification w; now := now w; waits := waits w |}.

Definition sleep (delay : Z) (w : World) : World :=
  {| powerAutomate := powerAutomate w; isInitialized := isInitialized w;
     script := script w; posted := posted w; delivered := delivered w;
     nextNotification := nextNotification w; now := (now w + delay)%Z;
     waits := waits w ++ [delay] |}.

(** [generateNotificationId]. *)
Definition generateNotificationId : M World nat :=
  fun w =>
    ({| powerAutomate := powerAutomate w; isInitialized := isInitialized w;
        script := script w; posted := posted w; delivered := delivered w;
        nextNotification := S (nextNotification w); now := now w;
        waits := waits w |},
     Ok (nextNotification w)).

(** [response.ok]. *)
Definition ok (s : nat) : bool := ((200 <=? s)%nat && (s <=? 299)%nat).

(** [await fetch(config.notificationUrl, ...)] under the abort timer:
    the status of the response, or the error the inner [catch] rethrows. *)
Definition fetch (p : Payload) (timeout_ms : Z) : M World nat :=
  fun w =>
    let w1 := issue p w in
    match script w with
    | Some Reject :: _ => (w1, Throw NetworkError)
    | Some Abort :: _ => (w1, Throw (TimeoutError timeout_ms))
    | Some (Respond s) :: _ =>
        (if ok s then accept p w1 else w1, Ok s)
    | None :: _ | [] => (accept p w1, Ok 200)
    end.

Definition retryConfig : RetryConfig :=
  {| maxRetries := 3; retryDelay := 2000; backoffMultiplier := 2 |}.

Definition executeWithRetry {A} (operation : M World A) (retryCount : nat)
  : M World A :=
  Retry.executeWithRetry sleep retryConfig operation retryCount.

(** [initialize]: its [catch] logs and rethrows. *)
Definition initialize : M World unit :=
  try_catch
    (initialized <- gets isInitialized ;;
     if initialized then ret tt
     else
       cfg <- gets powerAutomate ;;
       match cfg with
       | None => throw (ConfigError "Power Automate configuration is missing")
       | Some c =>
           if String.eqb (notificationUrl c) ""
           then throw (ConfigError "Power Automate notification URL is required")
           else if negb (url_parses c)
           then throw (ConfigError "Invalid Power Automate notification URL")
           else modify (set_initialized true)
       end)
    (fun error => throw error).

Definition formatDateTime (date : option Z) : option Z :=
  match date with
  | None => None
  | Some t => Some t
  end.

(** The argument of [sendSingleNotification]. *)
Record NotificationData : Type := {
  meetingId : string;
  meetingTitle : string;
  visitorEmail : JsVal;
  visitorName : JsVal;
  startTime : option Z;
  endTime : option Z;
  notificationType : ChangeType
}.

(** What [sendSingleNotification] resolves to. *)
Record Sent : Type := {
  notificationId : nat;
  responseStatus : nat;
  timestamp : Z
}.

(** The operation [sendSingleNotification] hands to [executeWithRetry]. *)
Definition sendSingleNotification_operation (notificationData : NotificationData)
  : M World Sent :=
  cfg <- gets powerAutomate ;;
  match cfg with
  | None => throw TypeError
  | Some config =>
      let timeout_ms := match timeout config with
                        | Some t => if Z.eqb t 0 then 30000%Z else t
                        | None => 30000%Z
                        end in
      today <- gets now ;;
      let payload :=
        {| p_meetingId := meetingId notificationData;
           p_meetingTitle := meetingTitle notificationData;
           p_visitorEmail := visitorEmail notificationData;
           p_visitorName := visitorName notificationData;
           p_startTime := formatDateTime (startTime notificationData);
           p_endTime := formatDateTime (endTime notificationData);
           p_notificationType := notificationType notificationData;
           p_timestamp := today |} in
      s <- fetch payload timeout_ms ;;
      if negb (ok s) then throw (HttpError s)
      else
        nid <- generateNotificationId ;;
        stamp <- gets now ;;
        ret {| notificationId := nid; responseStatus := s; timestamp := stamp |}
  end.

(** [sendSingleNotification]. *)
Definition sendSingleNotification (notificationData : NotificationData)
  : M World Sent :=
  executeWithRetry (sendSingleNotification_operation notificationData) 0.

(** An entry of [notifications] / [details]. *)
Record Detail : Type := {
  email : JsVal;
  success : bool;
  d_notificationId : option nat;
  error : option Error
}.

(** The value of [sendVisitorNotification]; the early return for an
    empty list leaves [failures] and [details] undefined. *)
Record NotifyResult : Type := {
  r_success : bool;
  notificationsSent : nat;
  failures : option nat;
  details : option (list Detail)
}.

(** The body of the [for] loop: one participant, with its own [try]. *)
Definition notify_user (meetingId meetingTitle : string)
           (startTime endTime : option Z) (notificationType : ChangeType)
           (user : Attendee) : M World Detail :=
  try_catch
    (vname <- lift_exc (SharePointService.visitorName user) ;;
     notification <- sendSingleNotification
       {| meetingId := meetingId;
          meetingTitle := meetingTitle;
          visitorEmail := emailAddress user;
          visitorName := vname;
          startTime := startTime;
          endTime := endTime;
          notificationType := notificationType |} ;;
     ret {| email := emailAddress user; success := true;
            d_notificationId := Some (notificationId notification);
            error := None |})
    (fun error =>
       ret {| email := emailAddress user; success := false;
              d_notificationId := None; error := Some error |}).

(** [mapChangeTypeToNotification]: [mapping[changeType] || 'updated']. *)
Definition mapChangeTypeToNotification (changeType : ChangeType) : ChangeType :=
  match changeType with
  | recipients_changed | subject_changed | time_changed | appointment_changed => updated
  | created => created
  | deleted => cancelled
  | _ => updated
  end.

(** [sendVisitorNotification]: its outer [catch] logs and rethrows. *)
Definition sendVisitorNotification (meetingId meetingTitle : string)
           (externalUsers : list Attendee) (startTime endTime : option Z)
           (notificationType : ChangeType) : M World NotifyResult :=
  try_catch
    (initialized <- gets isInitialized ;;
     (if negb initialized then initialize else ret tt) ;;;
     if Nat.eqb (List.length externalUsers) 0
     then ret {| r_success := true; notificationsSent := 0;
                 failures := None; details := None |}
     else
       notifications <-
         for_push externalUsers
           (notify_user meetingId meetingTitle startTime endTime notificationType)
           [] ;;
       let successCount := List.length (filter (fun n => success n) notifications) in
       let failureCount := List.length (filter (fun n => negb (success n)) notifications) in
       ret {| r_success := Nat.eqb failureCount 0;
              notificationsSent := successCount;
              failures := Some failureCount;
              details := Some notifications |})
    (fun error => throw error).

(** [sendMeetingUpdateNotification]: its [catch] logs and rethrows. *)
Definition sendMeetingUpdateNotification (meetingId meetingTitle : string)
           (externalUsers : list Attendee) (startTime endTime : option Z)
           (changeType : ChangeType) : M World NotifyResult :=
  try_catch
    (let notificationType := mapChangeTypeToNotification changeType in
     sendVisitorNotification meetingId meetingTitle externalUsers startTime endTime
       notificationType)
    (fun error => throw error).

(** [sendMeetingCancellationNotification]: its [catch] logs and rethrows. *)
Definition sendMeetingCancellationNotification (meetingId meetingTitle : string)
           (externalUsers : list Attendee) : M World NotifyResult :=
  try_catch
    (sendVisitorNotification meetingId meetingTitle externalUsers None None cancelled)
    (fun error => throw error).

(** An entry of the argument of [sendBulkNotifications]. *)
Record Meeting : Type := {
  m_meetingId : string;
  m_meetingTitle : string;
  m_externalUsers : list Attendee;
  m_startTime : option Z;
  m_endTime : option Z;
  m_notificationType : option ChangeType
}.

(** An entry of [results] in [sendBulkNotifications]. *)
Record BulkDetail : Type := {
  b_meetingId : string;
  b_success : bool;
  b_result : option NotifyResult;
  b_error : option Error
}.

(** The value of [sendBulkNotifications]; the early return for an empty
    list leaves the counts and [details] undefined. *)
Record BulkResult : Type := {
  bulk_success : bool;
  processed : nat;
  successes : option nat;
  bulk_failures : option nat;
  bulk_details : option (list BulkDetail)
}.

(** The body of the [for] loop of [sendBulkNotifications]. *)
Definition bulk_meeting (meeting : Meeting) : M World BulkDetail :=
  try_catch
    (result <- sendVisitorNotification
                 (m_meetingId meeting) (m_meetingTitle meeting)
                 (m_externalUsers meeting) (m_startTime meeting) (m_endTime meeting)
                 (match m_notificationType meeting with
                  | Some t => t
                  | None => created
                  end) ;;
     ret {| b_meetingId := m_meetingId meeting; b_success := true;
            b_result := Some result; b_error := None |})
    (fun error =>
       ret {| b_meetingId := m_meetingId meeting; b_success := false;
              b_result := None; b_error := Some error |}).

(** [sendBulkNotifications]: its outer [catch] logs and rethrows. *)
Definition sendBulkNotifications (meetings : list Meeting) : M World BulkResult :=
  try_catch
    (if Nat.eqb (List.length meetings) 0
     then ret {| bulk_success := true; processed := 0; successes := None;
                 bulk_failures := None; bulk_details := None |}
     else
       results <- for_push meetings bulk_meeting [] ;;
       let successCount := List.length (filter (fun r => b_success r) results) in
       let failureCount := List.length (filter (fun r => negb (b_success r)) results) in
       ret {| bulk_success := Nat.eqb failureCount 0;
              processed := List.length results;
              successes := Some successCount;
              bulk_failures := Some failureCount;
              bulk_details := Some results |})
    (fun error => throw error).

End PowerAutomateService.

(* ===================================================================== *)
(** * The host item and the extraction of event data                     *)
(* ===================================================================== *)

Module Host.

Import OutlookEventService.

(** [Office.context.mailbox.item].  A field is [None] when the item has
    no such property or its [getAsync] does not succeed: in both cases
    [extractEventData] keeps the default. *)
Record Item : Type := {
  isAppointment : bool;
  itemId : option string;
  item_subject : option string;
  item_start : option Z;
  item_end : option Z;
  requiredAttendees : option (list Attendee);
  optionalAttendees : option (list Attendee)
}.

(** [eventData]. *)
Record EventData : Type := {
  meetingId : string;
  subject : string;
  startTime : option Z;
  endTime : option Z;
  externalUsers : list Attendee;
  allAttendees : list Attendee
}.

Definition or_nil {A} (l : option (list A)) : list A :=
  match l with Some x => x | None => [] end.

(** [extractEventData(item)], with the callbacks completing in the order
    they were registered; [generated] is what [generateMeetingId()]
    would give. *)
Definition extractEventData (config : Config) (generated : string)
           (item : option Item) : option EventData :=
  match item with
  | None => None
  | Some it =>
      if negb (isAppointment it) then None
      else
        let all := or_nil (requiredAttendees it) ++ or_nil (optionalAttendees it) in
        Some {| meetingId := match itemId it with
                             | Some i => if String.eqb i "" then generated else i
                             | None => generated
                             end;
                subject := match item_subject it with Some s => s | None => "" end;
                startTime := item_start it;
                endTime := item_end it;
                externalUsers := filterExternalUsers config all;
                allAttendees := all |}
  end.

(** Which of the two attendee callbacks the host completes first: each
    callback pushes its own list onto [allAttendees] when it runs. *)
Inductive Completion : Type := RequiredFirst | OptionalFirst.

(** [extractEventData(item)] under either order of completion of the
    attendee callbacks; [extractEventData] above is the case
    [RequiredFirst]. *)
Definition extractEventData_completing (order : Completion) (config : Config)
           (generated : string) (item : option Item) : option EventData :=
  match item with
  | None => None
  | Some it =>
      if negb (isAppointment it) then None
      else
        let all := match order with
                   | RequiredFirst =>
                       or_nil (requiredAttendees it) ++ or_nil (optionalAttendees it)
                   | OptionalFirst =>
                       or_nil (optionalAttendees it) ++ or_nil (requiredAttendees it)
                   end in
        Some {| meetingId := match itemId it with
                             | Some i => if String.eqb i "" then generated else i
                             | None => generated
                             end;
                subject := match item_subject it with Some s => s | None => "" end;
                startTime := item_start it;
                endTime := item_end it;
                externalUsers := filterExternalUsers config all;
                allAttendees := all |}
  end.

End Host.

(* ===================================================================== *)
(** * TaskpaneApp: the driver of a reconciliation cycle                  *)
(* ===================================================================== *)

Module TaskpaneApp.

Import OutlookEventService Host.

(** What [showMessage] put on the screen. *)
Inductive Message : Type :=
| MsgBusy                  (* warning: a cycle is in progress       *)
| MsgNoUsers               (* warning: no external users to process *)
| MsgDone (n : nat)        (* success: n users registered, notified *)
| MsgPartial               (* warning: some notification failed     *)
| MsgUpdated               (* success: records updated              *)
| MsgError (e : Error).    (* error raised by the cycle             *)

Record World : Type := {
  sharePoint : SharePointService.World;
  powerAutomate : PowerAutomateService.World;
  config : Config;
  item : option Item;
  generated : string;
  isProcessing : bool;
  currentMeetingData : option EventData;
  messages : list Message
}.

Definition set_sharePoint (s : SharePointService.World) (w : World) : World :=
  {| sharePoint := s; powerAutomate := powerAutomate w; config := config w;
     item := item w; generated := generated w; isProcessing := isProcessing w;
     currentMeetingData := currentMeetingData w; messages := messages w |}.

Definition set_powerAutomate (p : PowerAutomateService.World) (w : World) : World :=
  {| sharePoint := sharePoint w; powerAutomate := p; config := config w;
     item := item w; generated := generated w; isProcessing := isProcessing w;
     currentMeetingData := currentMeetingData w; messages := messages w |}.

Definition set_isProcessing (b : bool) (w : World) : World :=
  {| sharePoint := sharePoint w; powerAutomate := powerAutomate w;
     config := config w; item := item w; generated := generated w;
     isProcessing := b;
     currentMeetingData := currentMeetingData w; messages := messages w |}.

Definition set_currentMeetingData (d : option EventData) (w : World) : World :=
  {| sharePoint := sharePoint w; powerAutomate := powerAutomate w;
     config := config w; item := item w; generated := generated w;
     isProcessing := isProcessing w;
     currentMeetingData := d; messages := messages w |}.

(** [showMessage]. *)
Definition showMessage (m : Message) (w : World) : World :=
  {| sharePoint := sharePoint w; powerAutomate := powerAutomate w;
     config := config w; item := item w; generated := generated w;
     isProcessing := isProcessing w;
     currentMeetingData := currentMeetingData w; messages := messages w ++ [m] |}.

(** A call on [this.sharePointService]. *)
Definition onSharePoint {A} (m : M SharePointService.World A) : M World A :=
  fun w => let (s, r) := m (sharePoint w) in (set_sharePoint s w, r).

(** A call on [this.powerAutomateService]. *)
Definition onPowerAutomate {A} (m : M PowerAutomateService.World A) : M World A :=
  fun w => let (p, r) := m (powerAutomate w) in (set_powerAutomate p w, r).

(** [refreshStatistics]: a failed read only clears the counters shown. *)
Definition refreshStatistics : M World unit :=
  try_catch (onSharePoint (SharePointService.getStatistics 7) ;;; ret tt)
            (fun _ => ret tt).

(** [refreshMeetingInfo]. *)
Definition refreshMeetingInfo : M World unit :=
  modify (fun w =>
    set_currentMeetingData (extractEventData (config w) (generated w) (item w)) w).

(** How a call of [processVisitors] gets past its two guards. *)
Inductive Entry : Type :=
| Busy                       (* [isProcessing] was set: early return  *)
| NoUsers                    (* nothing to process: early return      *)
| Run (data : EventData).    (* the cycle starts with this snapshot   *)

(** The [finally] block of [processVisitors]. *)
Definition processVisitors_finally (w : World) : World :=
  set_isProcessing false w.

(** [processVisitors] up to its first [await]: the two guards.  An early
    [return] inside the [try] still runs the [finally] block. *)
Definition processVisitors_enter (meetingData : option EventData) (w : World)
  : World * Entry :=
  if isProcessing w
  then (processVisitors_finally (showMessage MsgBusy w), Busy)
  else
    let w1 := set_isProcessing true w in
    let data := match meetingData with
                | Some d => Some d
                | None => currentMeetingData w1
                end in
    match data with
    | None => (processVisitors_finally (showMessage MsgNoUsers w1), NoUsers)
    | Some d =>
        if Nat.eqb (List.length (externalUsers d)) 0
        then (processVisitors_finally (showMessage MsgNoUsers w1), NoUsers)
        else (w1, Run d)
    end.

(** The store call [processVisitors] chooses from [changeType]; the
    number is what the log line prints ([sharePointResult?.length || 0]). *)
Definition store_step (data : EventData) (changeType : ChangeType) : M World nat :=
  match changeType with
  | manual | created | recipients_changed =>
      newRecords <- onSharePoint
        (SharePointService.updateVisitorRecords
           (meetingId data) (subject data) (externalUsers data)
           (startTime data) (endTime data)) ;;
      ret (List.length newRecords)
  | deleted =>
      onSharePoint (SharePointService.deleteVisitorRecords (meetingId data)) ;;;
      ret 0
  | _ => ret 0
  end.

(** [processVisitors] from its first [await] to the end of the [try],
    with the [catch] block. *)
Definition processVisitors_cycle (data : EventData) (changeType : ChangeType)
  : M World unit :=
  try_catch
    (store_step data changeType ;;;
     (if (0 <? List.length (externalUsers data))%nat
      then
        notificationResult <- onPowerAutomate
          (PowerAutomateService.sendVisitorNotification
             (meetingId data) (subject data) (externalUsers data)
             (startTime data) (endTime data)
             (match changeType with manual => created | c => c end)) ;;
        if PowerAutomateService.r_success notificationResult
        then modify (showMessage (MsgDone (List.length (externalUsers data))))
        else modify (showMessage MsgPartial)
      else modify (showMessage MsgUpdated)) ;;;
     refreshStatistics)
    (fun error => modify (showMessage (MsgError error))).

(** [processVisitors(meetingData = null, changeType = 'manual')] run to
    completion without another event in between. *)
Definition processVisitors (meetingData : option EventData)
           (changeType : ChangeType) : M World unit :=
  fun w =>
    match processVisitors_enter meetingData w with
    | (w1, Run data) =>
        let (w2, r) := processVisitors_cycle data changeType w1 in
        (processVisitors_finally w2, r)
    | (w1, _) => (w1, Ok tt)
    end.

(** [handleOutlookEvent], run to completion. *)
Definition handleOutlookEvent (eventType : ChangeType) (eventData : option EventData)
  : M World unit :=
  try_catch
    ((match eventData with
      | Some d =>
          if (0 <? List.length (externalUsers d))%nat
          then processVisitors (Some d) eventType
          else ret tt
      | None => ret tt
      end) ;;;
     refreshMeetingInfo)
    (fun _ => ret tt).

(** [OutlookEventService.processEventChange] with the one listener the
    task pane registers (under ['all']). *)
Definition processEventChange (changeType : ChangeType) (eventData : EventData)
  : M World unit :=
  handleOutlookEvent changeType (Some eventData).

(** The four change handlers of [OutlookEventService] share this body. *)
Definition handleChange (changeType : ChangeType) : M World unit :=
  try_catch
    (w <- gets (fun w => w) ;;
     match extractEventData (config w) (generated w) (item w) with
     | Some eventData =>
         if (0 <? List.length (externalUsers eventData))%nat
         then processEventChange changeType eventData
         else ret tt
     | None => ret tt
     end)
    (fun _ => ret tt).

Definition handleRecipientsChanged : M World unit := handleChange recipients_changed.
Definition handleSubjectChanged : M World unit := handleChange subject_changed.
Definition handleTimeChanged : M World unit := handleChange time_changed.
Definition handleAppointmentChanged : M World unit := handleChange appointment_changed.

End TaskpaneApp.

(* ===================================================================== *)
(** * Interleaving of change events with a running cycle                 *)
(* ===================================================================== *)

(** [processVisitors] suspends at its first [await]; until the cycle
    completes, further events are delivered and run their synchronous
    part against the same [TaskpaneApp] object.  The machine below keeps
    the cycles that are suspended and the snapshots they started with. *)
Module Coordinator.

Import OutlookEventService Host TaskpaneApp.

Inductive Event : Type :=
| OutlookEvent (eventType : ChangeType) (eventData : option EventData)
    (* the listener registered under ['all'] is called *)
| Completion.
    (* the oldest suspended cycle runs to its end      *)

Record State : Type := {
  app : World;
  inflight : list (EventData * ChangeType);   (* suspended cycles, oldest first *)
  started : list EventData                    (* every cycle started so far     *)
}.

Definition step (s : State) (ev : Event) : State :=
  match ev with
  | OutlookEvent eventType eventData =>
      match eventData with
      | Some d =>
          if (0 <? List.length (externalUsers d))%nat
          then
            match processVisitors_enter (Some d) (app s) with
            | (w1, Run data) =>
                {| app := w1;
                   inflight := inflight s ++ [(data, eventType)];
                   started := started s ++ [data] |}
            | (w1, _) =>
                {| app := fst (refreshMeetingInfo w1);
                   inflight := inflight s; started := started s |}
            end
          else {| app := fst (refreshMeetingInfo (app s));
                  inflight := inflight s; started := started s |}
      | None => {| app := fst (refreshMeetingInfo (app s));
                   inflight := inflight s; started := started s |}
      end
  | Completion =>
      match inflight s with
      | [] => s
      | (data, changeType) :: rest =>
          let w2 := fst (processVisitors_cycle data changeType (app s)) in
          {| app := fst (refreshMeetingInfo (processVisitors_finally w2));
             inflight := rest; started := started s |}
      end
  end.

Definition run (s : State) (events : list Event) : State :=
  fold_left step events s.

Definition idle (w : World) : State :=
  {| app := w; inflight := []; started := [] |}.

End Coordinator.

(* ===================================================================== *)
(** * Commands: the ribbon command [manualSync]                          *)
(* ===================================================================== *)

Module Commands.

Import OutlookEventService Host.

(** What [showNotification] displayed. *)
Inductive Notification : Type :=
| SyncImpossible                 (* warning: no meeting data            *)
| SyncUpdated (n : nat)          (* success: n external users synced    *)
| SyncDeleted (n : nat)          (* success: n records deleted          *)
| SyncNoChange                   (* success: nothing to do              *)
| SyncError (e : Error).         (* error raised by the command         *)

(** The [services] object of the command page. *)
Record World : Type := {
  initialized : bool;            (* [services.outlook && services.sharePoint] *)
  sharePoint : SharePointService.World;
  config : Config;
  item : option Item;
  generated : string;
  shown : list Notification
}.

Definition set_sharePoint (s : SharePointService.World) (w : World) : World :=
  {| initialized := initialized w; sharePoint := s; config := config w;
     item := item w; generated := generated w; shown := shown w |}.

Definition showNotification (n : Notification) (w : World) : World :=
  {| initialized := initialized w; sharePoint := sharePoint w;
     config := config w; item := item w; generated := generated w;
     shown := shown w ++ [n] |}.

Definition onSharePoint {A} (m : M SharePointService.World A) : M World A :=
  fun w => let (s, r) := m (sharePoint w) in (set_sharePoint s w, r).

(** [manualSync(event)]. *)
Definition manualSync : M World unit :=
  try_catch
    (ready <- gets initialized ;;
     if negb ready then throw (ConfigError "services are not initialized")
     else
       w <- gets (fun w => w) ;;
       match extractEventData (config w) (generated w) (item w) with
       | None => modify (showNotification SyncImpossible)
       | Some meetingData =>
           existingRecords <- onSharePoint
             (SharePointService.getVisitorRecordsByMeetingId (meetingId meetingData)) ;;
           message <-
             (if (0 <? List.length (externalUsers meetingData))%nat
              then
                onSharePoint
                  (SharePointService.updateVisitorRecords
                     (meetingId meetingData) (subject meetingData)
                     (externalUsers meetingData)
                     (startTime meetingData) (endTime meetingData)) ;;;
                ret (SyncUpdated (List.length (externalUsers meetingData)))
              else
                if (0 <? List.length existingRecords)%nat
                then
                  onSharePoint
                    (SharePointService.deleteVisitorRecords (meetingId meetingData)) ;;;
                  ret (SyncDeleted (List.length existingRecords))
                else ret SyncNoChange) ;;
           modify (showNotification message)
       end)
    (fun error => modify (showNotification (SyncError error))).

End Commands.

(* ===================================================================== *)
(** * Commands: the ribbon command [quickProcessVisitors]                *)
(* ===================================================================== *)

Module QuickCommand.

Import OutlookEventService Host.

(** What [showNotification] displayed. *)
Inductive Notification : Type :=
| NoMeetingData                  (* warning: no meeting data            *)
| NoExternalUsers                (* info: nobody to process             *)
| Processed (n : nat)            (* success: n users registered         *)
| ProcessError (e : Error).      (* error raised by the command         *)

(** The [services] object of the command page, and the [event] of the
    ribbon button with the number of times it was completed. *)
Record World : Type := {
  initialized : bool;   (* [services.outlook && services.sharePoint
                            && services.powerAutomate]                   *)
  sharePoint : SharePointService.World;
  powerAutomate : PowerAutomateService.World;
  config : Config;
  item : option Item;
  generated : string;
  shown : list Notification;
  completed : nat
}.

Definition set_sharePoint (s : SharePointService.World) (w : World) : World :=
  {| initialized := initialized w; sharePoint := s;
     powerAutomate := powerAutomate w; config := config w;
     item := item w; generated := generated w; shown := shown w;
     completed := completed w |}.

Definition set_powerAutomate (p : PowerAutomateService.World) (w : World) : World :=
  {| initialized := initialized w; sharePoint := sharePoint w;
     powerAutomate := p; config := config w;
     item := item w; generated := generated w; shown := shown w;
     completed := completed w |}.

Definition showNotification (n : Notification) (w : World) : World :=
  {| initialized := initialized w; sharePoint := sharePoint w;
     powerAutomate := powerAutomate w; config := config w;
     item := item w; generated := generated w; shown := shown w ++ [n];
     completed := completed w |}.

(** [event.completed()]. *)
Definition complete (w : World) : World :=
  {| initialized := initialized w; sharePoint := sharePoint w;
     powerAutomate := powerAutomate w; config := config w;
     item := item w; generated := generated w; shown := shown w;
     completed := S (completed w) |}.

Definition onSharePoint {A} (m : M SharePointService.World A) : M World A :=
  fun w => let (s, r) := m (sharePoint w) in (set_sharePoint s w, r).

Definition onPowerAutomate {A} (m : M PowerAutomateService.World A) : M World A :=
  fun w => let (p, r) := m (powerAutomate w) in (set_powerAutomate p w, r).

(** [quickProcessVisitors(event)]; [event] tells whether an event object
    was passed. *)
Definition quickProcessVisitors (event : bool) : M World unit :=
  try_finally
    (try_catch
       (ready <- gets initialized ;;
        if negb ready then throw (ConfigError "services are not initialized")
        else
          w <- gets (fun w => w) ;;
          match extractEventData (config w) (generated w) (item w) with
          | None => modify (showNotification NoMeetingData)
          | Some meetingData =>
              if Nat.eqb (List.length (externalUsers meetingData)) 0
              then modify (showNotification NoExternalUsers)
              else
                onSharePoint
                  (SharePointService.updateVisitorRecords
                     (meetingId meetingData) (subject meetingData)
                     (externalUsers meetingData)
                     (startTime meetingData) (endTime meetingData)) ;;;
                onPowerAutomate
                  (PowerAutomateService.sendVisitorNotification
                     (meetingId meetingData) (subject meetingData)
                     (externalUsers meetingData)
                     (startTime meetingData) (endTime meetingData) created) ;;;
                modify (showNotification
                          (Processed (List.length (externalUsers meetingData))))
          end)
       (fun error => modify (showNotification (ProcessError error))))
    (fun w => if event then complete w else w).

End QuickCommand.

(* ===================================================================== *)
(** * PowerAutomateService: the notification history in localStorage    *)
(* ===================================================================== *)

Module NotificationHistory.

Section WithNotification.

(** The object handed to [saveNotificationHistory]. *)
Variable Notification : Type.

(** [{ ...notification, timestamp }]. *)
Record HistoryEntry : Type := {
  h_notification : Notification;
  h_timestamp : Z
}.

(** The text under the key ['powerAutomate_notification_history']. *)
Inductive Stored : Type :=
| EmptyText                          (* the empty string                 *)
| BadText                            (* text that [JSON.parse] rejects   *)
| NotArray                           (* JSON that is not an array        *)
| Entries (l : list HistoryEntry).   (* an array of history entries      *)

(** [localStorage] and the clock.  With [blocked] every call on the
    storage throws; with [full] the quota is used up and [setItem]
    throws. *)
Record World : Type := {
  storage : option Stored;
  blocked : bool;
  full : bool;
  now : Z
}.

Definition set_storage (s : option Stored) (w : World) : World :=
  {| storage := s; blocked := blocked w; full := full w; now := now w |}.

Definition set_now (t : Z) (w : World) : World :=
  {| storage := storage w; blocked := blocked w; full := full w; now := t |}.

Definition getItem : M World (option Stored) :=
  fun w => if blocked w then (w, Throw TypeError) else (w, Ok (storage w)).

Definition setItem (s : Stored) : M World unit :=
  fun w => if blocked w || full w then (w, Throw TypeError)
           else (set_storage (Some s) w, Ok tt).

Definition removeItem : M World unit :=
  fun w => if blocked w then (w, Throw TypeError)
           else (set_storage None w, Ok tt).

(** [getNotificationHistory(limit = 50)]. *)
Definition getNotificationHistory (limit : nat) : M World (list HistoryEntry) :=
  try_catch
    (historyStr <- getItem ;;
     match historyStr with
     | None => ret []
     | Some EmptyText => ret []
     | Some BadText => throw ParseError
     | Some NotArray => ret []
     | Some (Entries history) => ret (firstn limit history)
     end)
    (fun _ => ret []).

Definition maxHistorySize : nat := 100.

(** [saveNotificationHistory(notification)]. *)
Definition saveNotificationHistory (notification : Notification) : M World unit :=
  try_catch
    (history <- getNotificationHistory maxHistorySize ;;
     timestamp <- gets now ;;
     let history := {| h_notification := notification; h_timestamp := timestamp |}
                    :: history in
     let history := if (maxHistorySize <? List.length history)%nat
                    then firstn maxHistorySize history
                    else history in
     setItem (Entries history))
    (fun _ => ret tt).

(** [clearNotificationHistory()]. *)
Definition clearNotificationHistory : M World unit :=
  try_catch removeItem (fun _ => ret tt).

End WithNotification.

End NotificationHistory.

(* ===================================================================== *)
(** * TaskpaneApp: the activity log                                      *)
(* ===================================================================== *)

Module ActivityLog.

(** The text of a child of [elements.activityLog]. *)
Inductive LogText : Type :=
| Stamped (timestamp : Z) (message : string)   (* written by [addLog]   *)
| Cleared.                                     (* the line left by [handleClearLog] *)

Record LogEntry : Type := {
  className : string;      (* the level *)
  textContent : LogText
}.

(** [addLog(level, message)] on the children of [elements.activityLog],
    at the time [now]. *)
Definition addLog (now : Z) (level message : string) (activityLog : list LogEntry)
  : list LogEntry :=
  let entries := activityLog ++ [{| className := level;
                                    textContent := Stamped now message |}] in
  if (100 <? List.length entries)%nat then tl entries else entries.

(** [handleClearLog()]. *)
Definition handleClearLog (activityLog : list LogEntry) : list LogEntry :=
  [{| className := "info"; textContent := Cleared |}].

End ActivityLog.

(* ===================================================================== *)
(** * OutlookEventService: the registry of listeners                     *)
(* ===================================================================== *)

Module EventRegistry.

Import Host.

(** A listener is a function object; [indexOf] compares identities, so a
    listener is known by a number. *)
Definition Handler : Type := nat.

(** A call the service made on a listener. *)
Inductive Call : Type :=
| Typed (h : Handler) (eventData : EventData)
    (* [handler(eventData)], registered under the change type *)
| All (h : Handler) (changeType : string) (eventData : EventData).
    (* [handler(changeType, eventData)], registered under ['all'] *)

(** [this.eventHandlers], what each listener does when called (it
    returns, or throws the given error) and the calls made so far.  A
    listener does not touch the registry. *)
Record World : Type := {
  eventHandlers : string -> option (list Handler);
  behaviour : Handler -> option Error;
  calls : list Call
}.

(** [Map.set]. *)
Definition map_set (m : string -> option (list Handler)) (k : string)
           (v : list Handler) : string -> option (list Handler) :=
  fun k' => if String.eqb k' k then Some v else m k'.

Definition set_eventHandlers (m : string -> option (list Handler)) (w : World) : World :=
  {| eventHandlers := m; behaviour := behaviour w; calls := calls w |}.

Definition has (w : World) (k : string) : bool :=
  match eventHandlers w k with Some _ => true | None => false end.

(** [eventHandlers.get(k)] for a key that is present. *)
Definition get (w : World) (k : string) : list Handler :=
  match eventHandlers w k with Some l => l | None => [] end.

(** [addEventListener(eventType, handler)]. *)
Definition addEventListener (eventType : string) (handler : Handler) (w : World)
  : World :=
  let w1 := if negb (has w eventType)
            then set_eventHandlers (map_set (eventHandlers w) eventType []) w
            else w in
  set_eventHandlers
    (map_set (eventHandlers w1) eventType (get w1 eventType ++ [handler])) w1.

(** [handlers.indexOf(handler)]; [None] is [-1]. *)
Fixpoint indexOf (handler : Handler) (handlers : list Handler) : option nat :=
  match handlers with
  | [] => None
  | x :: r => if Nat.eqb x handler then Some 0
              else option_map S (indexOf handler r)
  end.

(** [handlers.splice(index, 1)]. *)
Definition splice1 (index : nat) (handlers : list Handler) : list Handler :=
  firstn index handlers ++ skipn (S index) handlers.

(** [removeEventListener(eventType, handler)]. *)
Definition removeEventListener (eventType : string) (handler : Handler) (w : World)
  : World :=
  if has w eventType
  then
    let handlers := get w eventType in
    match indexOf handler handlers with
    | Some index =>
        set_eventHandlers
          (map_set (eventHandlers w) eventType (splice1 index handlers)) w
    | None => w
    end
  else w.

(** [await handler(...)]. *)
Definition invoke (h : Handler) (c : Call) : M World unit :=
  fun w =>
    let w1 := {| eventHandlers := eventHandlers w; behaviour := behaviour w;
                 calls := calls w ++ [c] |} in
    match behaviour w h with
    | Some e => (w1, Throw e)
    | None => (w1, Ok tt)
    end.

(** [processEventChange(changeType, eventData)]: its [catch] logs and
    rethrows. *)
Definition processEventChange (changeType : string) (eventData : EventData)
  : M World unit :=
  try_catch
    ((w <- gets (fun w => w) ;;
      if has w changeType
      then for_of (get w changeType) (fun handler => invoke handler (Typed handler eventData))
      else ret tt) ;;;
     (w <- gets (fun w => w) ;;
      if has w "all"
      then for_of (get w "all")
             (fun handler => invoke handler (All handler changeType eventData))
      else ret tt))
    (fun error => throw error).

(** The part of [dispose()] that concerns the registry. *)
Definition dispose (w : World) : World :=
  set_eventHandlers (fun _ => None) w.

End EventRegistry.

(* ===================================================================== *)
(** * SharePointService: the access token and its cache                  *)
(* ===================================================================== *)

Module AccessToken.

(** The way a token can be obtained: [Office.auth.getAccessToken] is
    defined; or else [PublicClientApplication] is; or neither. *)
Inductive Method : Type := OfficeAuth | Msal | NoMethod.

(** The answer of the identity provider to one request: the token, with
    [expiresOn] (read by the MSAL path only), or a refusal. *)
Inductive Reply : Type :=
| Granted (token : string) (expiresOn : Z)
| Refused.

(** The two cache fields of the service, the identity provider (for each
    request to come, the time it takes and its answer; a request beyond
    the script is refused), the number of requests made, and the clock. *)
Record World : Type := {
  accessToken : option string;
  tokenExpiry : option Z;
  method : Method;
  replies : list (Z * Reply);
  asked : nat;
  now : Z
}.

Definition set_cache (token : option string) (expiry : option Z) (w : World) : World :=
  {| accessToken := token; tokenExpiry := expiry; method := method w;
     replies := replies w; asked := asked w; now := now w |}.

Definition set_now (t : Z) (w : World) : World :=
  {| accessToken := accessToken w; tokenExpiry := tokenExpiry w; method := method w;
     replies := replies w; asked := asked w; now := t |}.

(** One request to the identity provider. *)
Definition request : M World (string * Z) :=
  fun w =>
    match replies w with
    | [] =>
        ({| accessToken := accessToken w; tokenExpiry := tokenExpiry w;
            method := method w; replies := []; asked := S (asked w);
            now := now w |}, Throw NetworkError)
    | (latency, reply) :: rest =>
        let w1 := {| accessToken := accessToken w; tokenExpiry := tokenExpiry w;
                     method := method w; replies := rest; asked := S (asked w);
                     now := (now w + latency)%Z |} in
        match reply with
        | Granted token expiresOn => (w1, Ok (token, expiresOn))
        | Refused => (w1, Throw NetworkError)
        end
    end.

(** [getMsalToken()]: its [catch] logs and rethrows. *)
Definition getMsalToken : M World string :=
  try_catch
    (response <- request ;;
     modify (set_cache (Some (fst response)) (Some (snd response))) ;;;
     ret (fst response))
    (fun error => throw error).

(** The cached token, when the test at the head of [getAccessToken]
    passes: [this.accessToken && this.tokenExpiry && new Date() <
    this.tokenExpiry]. *)
Definition cached (w : World) : option string :=
  match accessToken w, tokenExpiry w with
  | Some token, Some expiry =>
      if negb (String.eqb token "") && (now w <? expiry)%Z then Some token else None
  | _, _ => None
  end.

(** [getAccessToken()]: its [catch] logs and rethrows. *)
Definition getAccessToken : M World string :=
  try_catch
    (w <- gets (fun w => w) ;;
     match cached w with
     | Some token => ret token
     | None =>
         match method w with
         | OfficeAuth =>
             result <- request ;;
             t <- gets now ;;
             modify (set_cache (Some (fst result)) (Some (t + 50 * 60 * 1000)%Z)) ;;;
             ret (fst result)
         | Msal => getMsalToken
         | NoMethod => throw (ConfigError "No authentication method available")
         end
     end)
    (fun error => throw error).

(** The part of [dispose()] that concerns the token. *)
Definition dispose (w : World) : World := set_cache None None w.

End AccessToken.

(* ===================================================================== *)
(** * Vocabulary of the statements                                       *)
(* ===================================================================== *)

Import OutlookEventService.

(** The filter callback with an exception read as "not kept". *)
Definition kept (config : Config) (a : Attendee) : bool :=
  match keep_attendee (cfg_internalDomains config) (cfg_excludeRooms config) a with
  | Ok b => b
  | Throw _ => false
  end.

(** The address of an attendee up to letter case. *)
Definition email_key (a : Attendee) : JsVal :=
  match emailAddress a with
  | JStr s => JStr (toLowerCase s)
  | v => v
  end.

(** Sample data. *)
Definition ext (e n : string) : Attendee :=
  {| emailAddress := JStr e;
     name := JStr n |}.

Definition cfg_of (domains : list string) (rooms : option bool)
  : Config :=
  {| outlook :=
       Some {| internalDomains := Some domains;
               excludeRooms := rooms |} |}.

(** An attendee without an address, and one whose address is not a string. *)
Definition no_address : Attendee := {| emailAddress := JUndefined; name := JStr "Nobody" |}.
Definition odd_address : Attendee := {| emailAddress := JNum 7; name := JStr "Odd" |}.

(** The delay slept before retry number [retryCount] (counted from 0). *)
Definition backoff (cfg : RetryConfig) (retryCount : nat) : Z :=
  (retryDelay cfg * backoffMultiplier cfg ^ Z.of_nat retryCount)%Z.

(** A world with a counter of the attempts made on an operation and the
    list of the delays slept between them. *)
Record Recorded (W : Type) : Type := {
  inner : W;
  attempts : nat;
  delays : list Z
}.
Arguments inner {W} r.
Arguments attempts {W} r.
Arguments delays {W} r.

Definition rec_start {W} (w : W) : Recorded W :=
  {| inner := w; attempts := 0; delays := [] |}.

Definition rec_sleep {W} (sleep : Z -> W -> W) (d : Z) (r : Recorded W) : Recorded W :=
  {| inner := sleep d (inner r); attempts := attempts r; delays := delays r ++ [d] |}.

Definition rec_op {W A} (op : M W A) : M (Recorded W) A :=
  fun r => let (w', x) := op (inner r) in
           ({| inner := w'; attempts := S (attempts r); delays := delays r |}, x).

(** What a client's [executeWithRetry] does with any operation: the
    recorded run is the client's run, it makes between one and [limit]
    attempts, sleeps [base * 2^i] before retry [i], and an error it
    surfaces is the one of the last of [limit] attempts. *)
Definition retry_contract {W} (sleep : Z -> W -> W) (cfg : RetryConfig)
           (run : forall A, M W A -> nat -> M W A) (base : Z) (limit : nat) : Prop :=
  forall A (op : M W A) (w : W),
    let result := Retry.executeWithRetry (rec_sleep sleep) cfg (rec_op op) 0 (rec_start w) in
    (inner (fst result), snd result) = run A op 0 w
    /\ 1 <= attempts (fst result) <= limit
    /\ delays (fst result)
       = map (fun i => (base * 2 ^ Z.of_nat i)%Z) (seq 0 (attempts (fst result) - 1))
    /\ (forall e, snd result = Throw e ->
                  attempts (fst result) = limit
                  /\ exists w0, op w0 = (inner (fst result), Throw e)).

Import SharePointService.

(** A fault after which the list is as it was and the client sees a
    failure: a rejected call, or an error status other than 404. *)
Definition transient (f : option Fault) : Prop :=
  match f with
  | None => True
  | Some Reject => True
  | Some (Respond s) =>
      ((200 <=? s)%nat && (s <=? 299)%nat) = false /\ s <> 404
  end.

(** The records of a meeting, as [getVisitorRecordsByMeetingId] reads them. *)
Definition meeting_records (meetingId : string) (w : World) : list ListItem :=
  filter (is_meeting meetingId) (items w).

Definition visitor_email (i : ListItem) : JsVal := VisitorEmail (data i).

Definition jsval_eqb (a b : JsVal) : bool :=
  match a, b with
  | JUndefined, JUndefined => true
  | JNull, JNull => true
  | JBool x, JBool y => Bool.eqb x y
  | JNum x, JNum y => Z.eqb x y
  | JStr x, JStr y => String.eqb x y
  | _, _ => false
  end.

Definition is_scheduled (i : ListItem) : bool :=
  match Status (data i) with Scheduled => true | _ => false end.

(** How many [Scheduled] records of the meeting carry this address. *)
Definition scheduled_count (meetingId : string) (email : JsVal) (w : World) : nat :=
  List.length (filter (fun i => is_scheduled i && jsval_eqb (visitor_email i) email)
                      (meeting_records meetingId w)).

(** The record [createVisitorRecord] writes for a user at instant [today]. *)
Definition record_of (meetingId meetingTitle : string) (startTime endTime : option Z)
           (today : Z) (user : Attendee) : ItemData :=
  {| MeetingId := meetingId;
     MeetingTitle := meetingTitle;
     VisitorEmail := emailAddress user;
     VisitorName := match visitorName user with Ok v => v | Throw _ => JUndefined end;
     StartTime := startTime;
     EndTime := endTime;
     Status := Scheduled;
     CreatedDate := Some today;
     ModifiedDate := Some today |}.

(** A list with the given items, next Id and faults to come, at instant 0. *)
Definition store (l : list ListItem) (n : nat) (faults : list (option Fault)) : World :=
  {| items := l; nextId := n; script := faults; requests := []; now := 0; waits := [] |}.

Definition visitor (i : nat) (meetingId email : string) (st : RecordStatus) : ListItem :=
  {| Id := i;
     data := {| MeetingId := meetingId; MeetingTitle := "Review";
                VisitorEmail := JStr email; VisitorName := JStr email;
                StartTime := None; EndTime := None; Status := st;
                CreatedDate := Some 0%Z; ModifiedDate := Some 0%Z |} |}.

(** The list is [L] with next Id [N], and whatever faults are still to
    come are transient. *)
Definition list_is (L : list ListItem) (N : nat) (w : World) : Prop :=
  items w = L /\ nextId w = N /\ Forall transient (script w).

(** The list after [DELETE items(id)] has been served for each of [ids]. *)
Definition remove_ids (ids : list nat) (L : list ListItem) : list ListItem :=
  fold_left (fun l itemId => filter (fun i => negb (has_id itemId i)) l) ids L.

(** How many entries of a user list carry this address. *)
Definition occurrences (email : JsVal) (users : list Attendee) : nat :=
  List.length (filter (fun u => jsval_eqb (emailAddress u) email) users).

(** One request was issued and served with no fault pending, before or
    after, and without the clock moving. *)
Definition served (rq : Request) (w w' : World) : Prop :=
  script w' = [] /\ requests w' = requests w ++ [rq] /\ now w' = now w.

(** The same for a sequence of requests. *)
Definition served_all (rqs : list Request) (w w' : World) : Prop :=
  script w' = [] /\ requests w' = requests w ++ rqs /\ now w' = now w.

(** Scenario B of the specification: records for a and c exist. *)
Definition scenario_B_store : World :=
  store [visitor 1 "m1" "a@ext.com" Scheduled; visitor 2 "m1" "c@ext.com" Scheduled] 3 [].

Definition scenario_B_wanted : list Attendee :=
  [ext "a@ext.com" "A"; ext "d@ext.com" "D"].

Module PA := PowerAutomateService.

(** The per-participant entries of a notification result. *)
Definition entries (r : PA.NotifyResult) : list PA.Detail :=
  match PA.details r with Some l => l | None => [] end.


(** The POSTs issued between two worlds of the notification client. *)
Definition posts_since (w w' : PA.World) : list PA.Payload :=
  skipn (List.length (PA.posted w)) (PA.posted w').

(** [w'] is [w] after some POSTs, with the same configuration. *)
Definition extends (w w' : PA.World) : Prop :=
  PA.powerAutomate w' = PA.powerAutomate w
  /\ PA.isInitialized w' = PA.isInitialized w
  /\ exists extra, PA.posted w' = PA.posted w ++ extra.

(** An initialised notification client with the given faults to come. *)
Definition flow (faults : list (option PA.Fault)) : PA.World :=
  {| PA.powerAutomate :=
       Some {| PA.notificationUrl := "https://flow.example/invoke";
               PA.url_parses := true;
               PA.timeout := Some 30000%Z |};
     PA.isInitialized := true;
     PA.script := faults;
     PA.posted := [];
     PA.delivered := [];
     PA.nextNotification := 0;
     PA.now := 0;
     PA.waits := [] |}.

(** Three participants for the notification examples. *)
Definition three_users : list Attendee :=
  [ext "a@ext.com" "A"; ext "b@ext.com" "B"; ext "c@ext.com" "C"].

(** The appointment "m1" as the host shows it. *)
Definition appointment (required : list Attendee) : Host.Item :=
  {| Host.isAppointment := true;
     Host.itemId := Some "m1";
     Host.item_subject := Some "Review";
     Host.item_start := Some 1000%Z;
     Host.item_end := Some 2000%Z;
     Host.requiredAttendees := Some required;
     Host.optionalAttendees := Some [] |}.

(** A snapshot of "m1" with the given external users. *)
Definition snapshot (users : list Attendee) : Host.EventData :=
  {| Host.meetingId := "m1"; Host.subject := "Review";
     Host.startTime := Some 1000%Z; Host.endTime := Some 2000%Z;
     Host.externalUsers := users; Host.allAttendees := users |}.

(** The task pane, idle, over a list that holds two records of "m1". *)
Definition taskpane (it : Host.Item) : TaskpaneApp.World :=
  {| TaskpaneApp.sharePoint := scenario_B_store;
     TaskpaneApp.powerAutomate := flow [];
     TaskpaneApp.config := cfg_of ["internal.com"] (Some true);
     TaskpaneApp.item := Some it;
     TaskpaneApp.generated := "meeting_0";
     TaskpaneApp.isProcessing := false;
     TaskpaneApp.currentMeetingData := None;
     TaskpaneApp.messages := [] |}.

(** The command page over the same list. *)
Definition commands (it : Host.Item) : Commands.World :=
  {| Commands.initialized := true;
     Commands.sharePoint := scenario_B_store;
     Commands.config := cfg_of ["internal.com"] (Some true);
     Commands.item := Some it;
     Commands.generated := "meeting_0";
     Commands.shown := [] |}.

(** "m1" after its external attendees have been removed. *)
Definition internal_only : Host.Item := appointment [ext "b@internal.com" "B"].

(** The notification shown by [manualSync] is not an error. *)
Definition not_error (n : Commands.Notification) : Prop :=
  match n with Commands.SyncError _ => False | _ => True end.

(** What [extractEventData] reads from an item of the sample pages. *)
Definition snapshot_of (it : Host.Item) : Host.EventData :=
  match Host.extractEventData (cfg_of ["internal.com"] (Some true)) "meeting_0" (Some it) with
  | Some d => d
  | None => snapshot []
  end.

(** Three successive snapshots of "m1" and the events that carry them. *)
Definition snapshot_1 : Host.EventData := snapshot [ext "a@ext.com" "A"].
Definition snapshot_2 : Host.EventData := snapshot [ext "a@ext.com" "A"; ext "d@ext.com" "D"].
Definition snapshot_3 : Host.EventData := snapshot [ext "d@ext.com" "D"].

Definition changed (d : Host.EventData) : Coordinator.Event :=
  Coordinator.OutlookEvent recipients_changed (Some d).

Definition idle_pane : Coordinator.State :=
  Coordinator.idle (taskpane (appointment [ext "a@ext.com" "A"])).

(** The total of a list of delays. *)
Definition total_delay (ds : list Z) : Z := fold_right Z.add 0%Z ds.

(** An operation of the store client that issues exactly one request and
    leaves the clock alone, whatever its outcome. *)
Definition one_request {A} (op : M World A) : Prop :=
  forall w, List.length (requests (fst (op w))) = S (List.length (requests w))
            /\ now (fst (op w)) = now w.

(** A POST about the given meeting, of the given type, to one of the
    given users. *)
Definition about (meetingId meetingTitle : string) (notificationType : ChangeType)
           (users : list Attendee) (p : PA.Payload) : Prop :=
  PA.p_meetingId p = meetingId
  /\ PA.p_meetingTitle p = meetingTitle
  /\ PA.p_notificationType p = notificationType
  /\ In (PA.p_visitorEmail p) (map emailAddress users).

(** [w'] is [w] after some POSTs that all satisfy [P]. *)
Definition posts_only (P : PA.Payload -> Prop) (w w' : PA.World) : Prop :=
  exists extra, PA.posted w' = PA.posted w ++ extra /\ Forall P extra.

(** The notification type [processVisitors] passes on for a change type. *)
Definition notified_as (changeType : ChangeType) : ChangeType :=
  match changeType with manual => created | c => c end.

(** The change types for which [processVisitors] calls the list. *)
Definition writes_list (changeType : ChangeType) : bool :=
  match changeType with
  | manual | created | recipients_changed | deleted => true
  | _ => false
  end.

(** The coordinator's flag is set only while some cycle is suspended. *)
Definition flag_has_cycle (s : Coordinator.State) : Prop :=
  TaskpaneApp.isProcessing (Coordinator.app s) = true -> Coordinator.inflight s <> [].

(** The per-meeting entries of a bulk result. *)
Definition bulk_entries (r : PA.BulkResult) : list PA.BulkDetail :=
  match PA.bulk_details r with Some l => l | None => [] end.

(** The three notification types the flow knows. *)
Definition flow_type (t : ChangeType) : Prop :=
  t = created \/ t = updated \/ t = cancelled.

(** The command page of [quickProcessVisitors] over a list and a flow. *)
Definition quick_page (it : Host.Item) (s : World) (p : PA.World) : QuickCommand.World :=
  {| QuickCommand.initialized := true;
     QuickCommand.sharePoint := s;
     QuickCommand.powerAutomate := p;
     QuickCommand.config := cfg_of ["internal.com"] (Some true);
     QuickCommand.item := Some it;
     QuickCommand.generated := "meeting_0";
     QuickCommand.shown := [];
     QuickCommand.completed := 0 |}.

Module NH := NotificationHistory.

(** The history a storage holds, as [getNotificationHistory] reads it. *)
Definition stored_history {N} (w : NH.World N) : list (NH.HistoryEntry N) :=
  match NH.storage w with
  | Some (NH.Entries l) => l
  | _ => []
  end.

(** [saveNotificationHistory(notification)] called at the time [t]. *)
Definition save_at {N} (w : NH.World N) (nt : N * Z) : NH.World N :=
  fst (NH.saveNotificationHistory (fst nt) (NH.set_now (snd nt) w)).

(** The entry [save_at] writes. *)
Definition entry_of {N} (nt : N * Z) : NH.HistoryEntry N :=
  {| NH.h_notification := fst nt; NH.h_timestamp := snd nt |}.

(** One call of [addLog]: the time, the level and the message. *)
Definition log_line (l : list ActivityLog.LogEntry) (c : Z * string * string)
  : list ActivityLog.LogEntry :=
  ActivityLog.addLog (fst (fst c)) (snd (fst c)) (snd c) l.

(** The entry [log_line] writes. *)
Definition line_of (c : Z * string * string) : ActivityLog.LogEntry :=
  {| ActivityLog.className := snd (fst c);
     ActivityLog.textContent := ActivityLog.Stamped (fst (fst c)) (snd c) |}.

Module ER := EventRegistry.

(** How often a listener is registered under a key. *)
Definition registrations (w : ER.World) (k : string) (h : ER.Handler) : nat :=
  count_occ Nat.eq_dec (ER.get w k) h.

(** The calls one dispatch makes when no listener throws. *)
Definition dispatch_calls (w : ER.World) (changeType : string) (d : Host.EventData)
  : list ER.Call :=
  map (fun h => ER.Typed h d) (ER.get w changeType)
  ++ map (fun h => ER.All h changeType d) (ER.get w "all").

(** No listener of the list throws. *)
Definition all_return (w : ER.World) (hs : list ER.Handler) : Prop :=
  Forall (fun h => ER.behaviour w h = None) hs.

(** The registry after some more calls on listeners. *)
Definition with_calls (w : ER.World) (cs : list ER.Call) : ER.World :=
  {| ER.eventHandlers := ER.eventHandlers w; ER.behaviour := ER.behaviour w;
     ER.calls := ER.calls w ++ cs |}.

(** The filter callback raises on this attendee: its address is a truthy
    value that is not a string. *)
Definition raising (a : Attendee) : Prop :=
  truthy (emailAddress a) = true /\ forall s, emailAddress a <> JStr s.





(* ===================================================================== *)
(** * Properties                                                         *)
(* ===================================================================== *)

Unset Implicit Arguments.

(* ===================================================================== *)
(** * Classification                                                     *)
(* ===================================================================== *)

Section Classification.

Lemma filter_exc_Ok {A} (p : A -> Exc bool) (l r : list A) :
  filter_exc p l = Ok r ->
  r = filter (fun x => match p x with Ok b => b | Throw _ => false end) l.
Proof.
  revert r; induction l as [|x l IH]; simpl; intros r H.
  - now inversion H.
  - destruct (p x) as [b|e]; [|discriminate].
    destruct (filter_exc p l) as [r'|e]; [|discriminate].
    inversion H; subst. rewrite (IH r' eq_refl). now destruct b.
Qed.

Lemma filterExternalUsers_filter config attendees l :
  filterExternalUsers_try config attendees = Ok l ->
  filterExternalUsers config attendees = filter (kept config) attendees.
Proof.
  intros H. unfold filterExternalUsers. rewrite H.
  unfold filterExternalUsers_try in H. now apply filter_exc_Ok in H.
Qed.

Lemma filterExternalUsers_cases config attendees :
  filterExternalUsers config attendees = filter (kept config) attendees \/
  filterExternalUsers config attendees = [].
Proof.
  destruct (filterExternalUsers_try config attendees) as [l|e] eqn:E.
  - left. eapply filterExternalUsers_filter; eauto.
  - right. unfold filterExternalUsers. now rewrite E.
Qed.

Lemma kept_string config a :
  kept config a = true ->
  exists s, emailAddress a = JStr s /\ s <> "".
Proof.
  unfold kept, keep_attendee.
  destruct (emailAddress a) as [| |b|z|s]; simpl; try discriminate.
  - destruct b; simpl; discriminate.
  - destruct (Z.eqb z 0); simpl; discriminate.
  - destruct (String.eqb_spec s ""); simpl; [discriminate|].
    intros _. now exists s.
Qed.

Lemma distinct_keys_survive {V K : Type} (key : V -> K) (keep : V -> bool) :
  forall vs : list V, NoDup (map key vs) -> NoDup (map key (filter keep vs)).
Proof.
  intros vs. induction vs as [|v vs IH]; intros Hnd; cbn.
  - constructor.
  - apply NoDup_cons_iff in Hnd as [Hfresh Hrest].
    destruct (keep v); cbn; [|now apply IH].
    apply NoDup_cons_iff. split; [|now apply IH].
    intros Hdup. apply in_map_iff in Hdup as (v' & Hkey & Hin).
    apply filter_In in Hin as [Hin _].
    apply Hfresh. apply in_map_iff. now exists v'.
Qed.

(** The users handed to the store and to the notifier after
    classification all carry a non-empty string address. *)
Lemma filterExternalUsers_strings config attendees :
  Forall (fun a => exists s, emailAddress a = JStr s /\ s <> "")
         (filterExternalUsers config attendees).
Proof.
  destruct (filterExternalUsers_cases config attendees) as [H|H]; rewrite H.
  - apply Forall_forall. intros a Ha. apply filter_In in Ha as [_ Ha].
    eapply kept_string; eauto.
  - constructor.
Qed.

End Classification.

(** Scenario A of the specification. *)
Example scenario_A :
  OutlookEventService.filterExternalUsers (cfg_of ["internal.com"] (Some true))
    [ext "a@ext.com" "A"; ext "b@internal.com" "B"; ext "room1@internal.com" "Room 1"]
  = [ext "a@ext.com" "A"].
Proof. reflexivity. Qed.

(** C4, as stated, fails: two attendees whose addresses differ only in
    letter case are both kept, each with its own display name. *)
Lemma C4_duplicates_are_kept :
  OutlookEventService.filterExternalUsers (cfg_of ["internal.com"] (Some true))
    [ext "a@ext.com" "First"; ext "A@EXT.COM" "Second"]
  = [ext "a@ext.com" "First"; ext "A@EXT.COM" "Second"]
  /\ email_key (ext "a@ext.com" "First") = email_key (ext "A@EXT.COM" "Second").
Proof. split; reflexivity. Qed.

(** When no attendee makes the callback raise, the filter is a plain
    [filter] by [kept]. *)
Lemma filterExternalUsers_plain config attendees :
  (forall a, In a attendees -> ~ raising a) ->
  OutlookEventService.filterExternalUsers config attendees
  = filter (kept config) attendees.
Proof.
  intros Hnone.
  destruct (filterExternalUsers_try config attendees) as [l|e] eqn:E.
  - eapply filterExternalUsers_filter; eauto.
  - exfalso. unfold filterExternalUsers_try in E. revert e E.
    induction attendees as [|x attendees IH]; intros e E; simpl in E; [discriminate|].
    destruct (keep_attendee (cfg_internalDomains config) (cfg_excludeRooms config) x)
      as [b|e1] eqn:Ex.
    + destruct (filter_exc _ attendees) as [r|e2]; [discriminate|].
      apply (IH (fun a Ha => Hnone a (or_intror Ha)) e2 eq_refl).
    + apply (Hnone x); [now left|]. unfold keep_attendee in Ex.
      destruct (truthy (emailAddress x)) eqn:Ht; simpl in Ex; [|discriminate].
      split; [exact Ht|]. intros s Hs. rewrite Hs in Ex.
      destruct (cfg_excludeRooms config && isRoomEmail (toLowerCase s)); discriminate.
Qed.

(** C4 (amended): [filterExternalUsers] does not deduplicate.  When no
    attendee makes the filter raise, its result is the input entries
    that pass the filter, unchanged and in input order, so two passing
    entries are both in it, each in its place, whether or not their
    addresses are equal up to case; when some attendee makes it raise
    the result is empty; and the output has no two addresses equal up to
    case only because, and when, the input has none. *)
Theorem C4_filter_keeps_every_occurrence :
  forall config attendees,
    ((forall a, In a attendees -> ~ raising a) ->
     OutlookEventService.filterExternalUsers config attendees
     = filter (kept config) attendees)
    /\ ((exists a, In a attendees /\ raising a) ->
        OutlookEventService.filterExternalUsers config attendees = [])
    /\ (forall pre a mid b post,
          attendees = pre ++ a :: mid ++ b :: post ->
          (forall x, In x attendees -> ~ raising x) ->
          kept config a = true ->
          kept config b = true ->
          OutlookEventService.filterExternalUsers config attendees
          = filter (kept config) pre ++ a :: filter (kept config) mid
            ++ b :: filter (kept config) post)
    /\ (NoDup (map email_key attendees) ->
        NoDup (map email_key (OutlookEventService.filterExternalUsers config attendees))).
Proof.
  intros config attendees. split; [|split; [|split]].
  - apply filterExternalUsers_plain.
  - intros (a & Hin & Ht & Hns).
    assert (Hthrow : keep_attendee (cfg_internalDomains config)
                       (cfg_excludeRooms config) a = Throw TypeError).
    { unfold keep_attendee. rewrite Ht. simpl.
      destruct (emailAddress a) as [| |b|z|s]; try reflexivity.
      exfalso. now apply (Hns s). }
    assert (Hr : exists e, filterExternalUsers_try config attendees = Throw e).
    { unfold filterExternalUsers_try. clear Ht Hns.
      induction attendees as [|y l IH]; simpl; [destruct Hin|].
      destruct Hin as [->|Hin].
      - rewrite Hthrow. now exists TypeError.
      - destruct (keep_attendee _ _ y) as [b|e1]; [|now exists e1].
        destruct (IH Hin) as [e' ->]. now exists e'. }
    destruct Hr as [e He]. unfold OutlookEventService.filterExternalUsers.
    now rewrite He.
  - intros pre a mid b post Hsplit Hnone Ha Hb.
    rewrite (filterExternalUsers_plain config attendees Hnone), Hsplit.
    rewrite filter_app. cbn [filter]. rewrite Ha, filter_app. cbn [filter].
    now rewrite Hb.
  - intros Hnd.
    destruct (filterExternalUsers_cases config attendees) as [H|H]; rewrite H.
    + now apply distinct_keys_survive.
    + constructor.
Qed.

Lemma C4_filter_keeps_every_occurrence_witness :
  OutlookEventService.filterExternalUsers (cfg_of ["internal.com"] (Some true))
    [ext "a@ext.com" "First"; ext "b@internal.com" "B"; ext "A@EXT.COM" "Second"]
  = [ext "a@ext.com" "First"; ext "A@EXT.COM" "Second"]
  /\ email_key (ext "a@ext.com" "First") = email_key (ext "A@EXT.COM" "Second").
Proof.
  split; [|reflexivity].
  refine (proj1 (proj2 (proj2 (C4_filter_keeps_every_occurrence
                                 (cfg_of ["internal.com"] (Some true))
                                 [ext "a@ext.com" "First"; ext "b@internal.com" "B";
                                  ext "A@EXT.COM" "Second"])))
            [] (ext "a@ext.com" "First") [ext "b@internal.com" "B"]
            (ext "A@EXT.COM" "Second") [] eq_refl _ eq_refl eq_refl).
  intros x Hx [_ Hns].
  destruct Hx as [<-|[<-|[<-|[]]]]; exact (Hns _ eq_refl).
Defined.

(** C5 (code defect): a configured [excludeRooms = false] is read through
    [|| true] and so has no effect: the room address is dropped although
    its domain is not internal. *)
Theorem C5_excludeRooms_false_is_ignored :
  OutlookEventService.cfg_excludeRooms (cfg_of [] (Some false)) = true
  /\ OutlookEventService.filterExternalUsers (cfg_of [] (Some false))
       [ext "room1@ext.com" "Room 1"; ext "a@ext.com" "A"]
     = [ext "a@ext.com" "A"].
Proof. split; reflexivity. Qed.

(** Whatever the configuration says, the room heuristic is applied. *)
Lemma cfg_excludeRooms_always config :
  OutlookEventService.cfg_excludeRooms config = true.
Proof.
  unfold OutlookEventService.cfg_excludeRooms.
  destruct (OutlookEventService.outlook config) as [o|]; [|reflexivity].
  destruct (OutlookEventService.excludeRooms o) as [[|]|]; reflexivity.
Qed.

(** C10: [filterExternalUsers] always yields a list (it has no exceptional
    result); every entry of it is an input attendee with a non-empty
    string address, so attendees without one never appear; and when the
    filter raises, the result is the empty list. *)
Theorem C10_filter_total_drops_addressless :
  forall config attendees,
    (forall a, In a (filterExternalUsers config attendees) ->
               In a attendees
               /\ truthy (emailAddress a) = true
               /\ exists s, emailAddress a = JStr s /\ s <> "")
    /\ (forall e, filterExternalUsers_try config attendees = Throw e ->
                  filterExternalUsers config attendees = []).
Proof.
  intros config attendees. split.
  - intros a Ha.
    assert (Hs : exists s, emailAddress a = JStr s /\ s <> "").
    { pose proof (filterExternalUsers_strings config attendees) as HF.
      rewrite Forall_forall in HF. now apply HF. }
    repeat split.
    + destruct (filterExternalUsers_cases config attendees) as [H|H]; rewrite H in Ha.
      * now apply filter_In in Ha as [Ha _].
      * destruct Ha.
    + destruct Hs as [s [Hs Hne]]. rewrite Hs. simpl.
      destruct (String.eqb_spec s ""); [contradiction|reflexivity].
    + exact Hs.
  - intros e He. unfold filterExternalUsers. now rewrite He.
Qed.

Lemma C10_filter_total_drops_addressless_witness :
  (In (ext "a@ext.com" "A")
      (filterExternalUsers (cfg_of ["internal.com"] None)
         [no_address; ext "a@ext.com" "A"])
   /\ truthy (emailAddress (ext "a@ext.com" "A")) = true)
  /\ (filterExternalUsers_try (cfg_of ["internal.com"] None)
         [ext "a@ext.com" "A"; odd_address] = Throw TypeError
      /\ filterExternalUsers (cfg_of ["internal.com"] None)
           [ext "a@ext.com" "A"; odd_address] = []).
Proof.
  split.
  - assert (H : In (ext "a@ext.com" "A")
                   (filterExternalUsers (cfg_of ["internal.com"] None)
                      [no_address; ext "a@ext.com" "A"])) by (simpl; auto).
    split; [exact H|].
    exact (proj1 (proj2 (proj1 (C10_filter_total_drops_addressless
                           (cfg_of ["internal.com"] None)
                           [no_address; ext "a@ext.com" "A"]) _ H))).
  - split; [reflexivity|].
    exact (proj2 (C10_filter_total_drops_addressless
                    (cfg_of ["internal.com"] None)
                    [ext "a@ext.com" "A"; odd_address]) TypeError eq_refl).
Defined.

(* ===================================================================== *)
(** * Retry and backoff                                                  *)
(* ===================================================================== *)

Section RetryFacts.

Context {W : Type} (sleep : Z -> W -> W) (cfg : RetryConfig).

Lemma executeWithRetry_unfold {A} (operation : M W A) retryCount w :
  Retry.executeWithRetry sleep cfg operation retryCount w =
  match operation w with
  | (w', Ok v) => (w', Ok v)
  | (w', Throw error) =>
      if (retryCount <? maxRetries cfg)%nat
      then Retry.executeWithRetry sleep cfg operation (S retryCount)
             (sleep (backoff cfg retryCount) w')
      else (w', Throw error)
  end.
Proof.
  rewrite Retry.executeWithRetry_equation_1.
  destruct (operation w) as [w' [v|e]]; simpl.
  - reflexivity.
  - destruct (lt_dec retryCount (maxRetries cfg)) as [H|H]; simpl.
    + apply Nat.ltb_lt in H. rewrite H. reflexivity.
    + apply Nat.ltb_nlt in H. rewrite H. reflexivity.
Qed.

(** An attempt that succeeds at once is the whole run. *)
Lemma executeWithRetry_Ok {A} (operation : M W A) retryCount w w' v :
  operation w = (w', Ok v) ->
  Retry.executeWithRetry sleep cfg operation retryCount w = (w', Ok v).
Proof. intros H. rewrite executeWithRetry_unfold, H. reflexivity. Qed.

(** The result of a run is the result of its last attempt, made in a
    world that any invariant of failed attempts and sleeps still holds in. *)
Lemma executeWithRetry_last {A} (operation : M W A) (I : W -> Prop) :
  (forall d w, I w -> I (sleep d w)) ->
  (forall w w' e, I w -> operation w = (w', Throw e) -> I w') ->
  forall retryCount w, I w ->
    exists w0, I w0 /\
               operation w0 = Retry.executeWithRetry sleep cfg operation retryCount w.
Proof.
  intros Hsleep Hfail retryCount.
  remember (maxRetries cfg - retryCount) as k eqn:Hk.
  revert retryCount Hk.
  induction k as [|k IH]; intros retryCount Hk w HI;
    rewrite executeWithRetry_unfold;
    destruct (operation w) as [w' [v|e]] eqn:E;
    try (exists w; split; [assumption | exact E]).
  - assert (Hlt : (retryCount <? maxRetries cfg)%nat = false)
      by (apply Nat.ltb_nlt; lia).
    rewrite Hlt. exists w. split; [assumption | exact E].
  - assert (Hlt : (retryCount <? maxRetries cfg)%nat = true)
      by (apply Nat.ltb_lt; lia).
    rewrite Hlt. apply IH; [lia|].
    apply Hsleep. eapply Hfail; eauto.
Qed.

End RetryFacts.

Section RetryRecorded.

Context {W : Type} (sleep : Z -> W -> W) (cfg : RetryConfig).

(** The run with its attempts counted and its delays listed. *)
Lemma recorded_run {A} (operation : M W A) :
  forall retryCount r,
    let result := Retry.executeWithRetry (rec_sleep sleep) cfg (rec_op operation)
                    retryCount r in
    (inner (fst result), snd result)
      = Retry.executeWithRetry sleep cfg operation retryCount (inner r)
    /\ exists n,
         attempts (fst result) = attempts r + S n
         /\ (n = 0 \/ retryCount + n <= maxRetries cfg)
         /\ delays (fst result) = delays r ++ map (backoff cfg) (seq retryCount n)
         /\ (forall e, snd result = Throw e ->
                       maxRetries cfg <= retryCount + n
                       /\ exists w0, operation w0 = (inner (fst result), Throw e)).
Proof.
  intros retryCount.
  remember (maxRetries cfg - retryCount) as k eqn:Hk.
  revert retryCount Hk.
  induction k as [|k IH]; intros retryCount Hk r; cbv zeta;
    rewrite (executeWithRetry_unfold (rec_sleep sleep)),
            (executeWithRetry_unfold sleep);
    destruct (operation (inner r)) as [w' x] eqn:E;
    replace (rec_op operation r)
      with ({| inner := w'; attempts := S (attempts r); delays := delays r |}, x)
      by (unfold rec_op; rewrite E; reflexivity);
    destruct x as [v|e]; simpl.
  - split; [reflexivity|]. exists 0. simpl.
    repeat split; auto using app_nil_r; try lia; now rewrite app_nil_r || discriminate.
  - assert (Hlt : (retryCount <? maxRetries cfg)%nat = false)
      by (apply Nat.ltb_nlt; lia).
    rewrite Hlt. simpl. split; [reflexivity|]. exists 0. simpl.
    repeat split; try lia; try now rewrite app_nil_r.
    + inversion H; subst. exists (inner r). exact E.
  - split; [reflexivity|]. exists 0. simpl.
    repeat split; auto using app_nil_r; try lia; now rewrite app_nil_r || discriminate.
  - assert (Hlt : (retryCount <? maxRetries cfg)%nat = true)
      by (apply Nat.ltb_lt; lia).
    rewrite Hlt.
    specialize (IH (S retryCount) ltac:(lia)
                   (rec_sleep sleep (backoff cfg retryCount)
                      {| inner := w'; attempts := S (attempts r); delays := delays r |})).
    cbv zeta in IH. destruct IH as [Hrun [n [Ha [Hn [Hd Herr]]]]].
    split; [exact Hrun|].
    exists (S n). simpl in Ha, Hd.
    repeat split.
    + rewrite Ha. lia.
    + right. destruct Hn; lia.
    + rewrite Hd. rewrite <- app_assoc. reflexivity.
    + destruct (Herr e0 H) as [Hm _]. lia.
    + destruct (Herr e0 H) as [_ Hw]. exact Hw.
Qed.

End RetryRecorded.

Lemma retry_contract_of {W} (sleep : Z -> W -> W) (cfg : RetryConfig) (base : Z) :
  retryDelay cfg = base ->
  backoffMultiplier cfg = 2%Z ->
  retry_contract sleep cfg (fun A => Retry.executeWithRetry sleep cfg (A := A))
                 base (S (maxRetries cfg)).
Proof.
  intros Hbase Hmult A op w. cbv zeta.
  destruct (recorded_run sleep cfg op 0 (rec_start w))
    as [Hrun [n [Ha [Hn [Hd Herr]]]]].
  simpl in Ha, Hd, Hn.
  split; [exact Hrun|]. rewrite Ha.
  replace (S n - 1) with n by lia.
  repeat split; try (destruct Hn; lia).
  - rewrite Hd. apply map_ext. intros i. unfold backoff.
    now rewrite Hbase, Hmult.
  - destruct (Herr e H) as [Hm _]. simpl in Hm. destruct Hn; lia.
  - destruct (Herr e H) as [_ Hw]. exact Hw.
Qed.

(** C6, as stated, fails: with three faults in a row the store client
    attempts the removal a fourth time (and here succeeds), so the
    operation is attempted more than [maxRetries = 3] times. *)
Lemma C6_fourth_attempt :
  let w := store [visitor 1 "m1" "a@ext.com" Scheduled] 2
                 [Some (Respond 503); Some (Respond 503); Some (Respond 503)] in
  let result := deleteListItem 1 w in
  snd result = Ok true
  /\ requests (fst result) = [DeleteItem 1; DeleteItem 1; DeleteItem 1; DeleteItem 1]
  /\ waits (fst result) = [1000; 2000; 4000]%Z
  /\ maxRetries SharePointService.retryConfig < List.length (requests (fst result)).
Proof. vm_compute. repeat split; auto. Qed.

(** C6 (amended): both clients make one attempt plus at most
    [maxRetries = 3] retries, four attempts in all; retry [i] (from 0) is
    preceded by a wait of [baseDelay * 2^i] with [baseDelay] 1000 ms for
    the store client and 2000 ms for the notification client; and the
    error surfaced after the fourth failure is that of the last attempt. *)
Theorem C6_retry_backoff :
  retry_contract SharePointService.sleep SharePointService.retryConfig
                 (@SharePointService.executeWithRetry) 1000 4
  /\ retry_contract PowerAutomateService.sleep PowerAutomateService.retryConfig
                    (@PowerAutomateService.executeWithRetry) 2000 4.
Proof.
  split.
  - exact (retry_contract_of SharePointService.sleep SharePointService.retryConfig
                             1000 eq_refl eq_refl).
  - exact (retry_contract_of PowerAutomateService.sleep PowerAutomateService.retryConfig
                             2000 eq_refl eq_refl).
Qed.

Lemma C6_retry_backoff_witness :
  let w := store [visitor 1 "m1" "a@ext.com" Scheduled] 2
                 [Some (Respond 503); Some (Respond 503); Some (Respond 503);
                  Some (Respond 503)] in
  let result := Retry.executeWithRetry (rec_sleep SharePointService.sleep)
                  SharePointService.retryConfig
                  (rec_op (deleteListItem_operation 1)) 0 (rec_start w) in
  snd result = Throw (HttpError 503)
  /\ attempts (fst result) = 4
  /\ delays (fst result) = [1000; 2000; 4000]%Z.
Proof.
  intros w result.
  assert (Hthrow : snd result = Throw (HttpError 503)) by (vm_compute; reflexivity).
  split; [exact Hthrow|].
  destruct (proj1 C6_retry_backoff bool (deleteListItem_operation 1) w)
    as (_ & _ & Hd & Hlast).
  fold result in Hd, Hlast.
  destruct (Hlast _ Hthrow) as [Ha _].
  split; [exact Ha|]. rewrite Hd, Ha. reflexivity.
Defined.

(** The notification client exhausting its four attempts on timeouts. *)
Example notification_timeouts :
  let w := {| PowerAutomateService.powerAutomate :=
                Some {| PowerAutomateService.notificationUrl := "https://flow";
                        PowerAutomateService.url_parses := true;
                        PowerAutomateService.timeout := Some 30000%Z |};
              PowerAutomateService.isInitialized := true;
              PowerAutomateService.script :=
                [Some PowerAutomateService.Abort; Some PowerAutomateService.Abort;
                 Some PowerAutomateService.Abort; Some PowerAutomateService.Abort];
              PowerAutomateService.posted := [];
              PowerAutomateService.delivered := [];
              PowerAutomateService.nextNotification := 0;
              PowerAutomateService.now := 0;
              PowerAutomateService.waits := [] |} in
  let result := PowerAutomateService.sendSingleNotification
                  {| PowerAutomateService.meetingId := "m1";
                     PowerAutomateService.meetingTitle := "Review";
                     PowerAutomateService.visitorEmail := JStr "a@ext.com";
                     PowerAutomateService.visitorName := JStr "a";
                     PowerAutomateService.startTime := None;
                     PowerAutomateService.endTime := None;
                     PowerAutomateService.notificationType := created |} w in
  snd result = Throw (TimeoutError 30000)
  /\ List.length (PowerAutomateService.posted (fst result)) = 4
  /\ PowerAutomateService.waits (fst result) = [2000; 4000; 8000]%Z.
Proof. vm_compute. repeat split; auto. Qed.

(* ===================================================================== *)
(** * The store client under transient faults                            *)
(* ===================================================================== *)

Section StoreFacts.

Lemma list_is_sleep L N d w : list_is L N w -> list_is L N (sleep d w).
Proof. intros H; exact H. Qed.

Lemma Forall_tl {A} (P : A -> Prop) (l : list A) : Forall P l -> Forall P (tl l).
Proof. destruct 1; simpl; auto. Qed.

Lemma list_is_issue L N rq w : list_is L N w -> list_is L N (issue rq w).
Proof.
  intros (HL & HN & HS). repeat split; simpl; auto using Forall_tl.
Qed.

(** One [fetch] under transient faults: it is rejected, or answered with
    an error status, or served. *)
Lemma fetch_transient rq w :
  Forall transient (script w) ->
  fetch rq w = (issue rq w, Throw NetworkError)
  \/ (exists s, ((200 <=? s)%nat && (s <=? 299)%nat) = false /\ s <> 404 /\
                fetch rq w = (issue rq w, Ok {| status := s; body := NoBody |}))
  \/ fetch rq w = (fst (serve rq (issue rq w)), Ok (snd (serve rq (issue rq w)))).
Proof.
  intros HS. unfold fetch.
  destruct (script w) as [|[[|s]|] rest] eqn:E.
  - right; right. now destruct (serve rq (issue rq w)).
  - now left.
  - right; left. inversion HS as [|? ? Ht _]; subst. destruct Ht as [Hok H404].
    exists s. auto.
  - right; right. now destruct (serve rq (issue rq w)).
Qed.

Lemma filter_absent itemId (l : list ListItem) :
  existsb (has_id itemId) l = false ->
  filter (fun i => negb (has_id itemId i)) l = l.
Proof.
  induction l as [|x l IH]; simpl; [reflexivity|].
  destruct (has_id itemId x); simpl; [discriminate|].
  intros H. now rewrite IH.
Qed.

(** One attempt of each operation. *)
Lemma delete_attempt itemId L N w w' r :
  list_is L N w ->
  deleteListItem_operation itemId w = (w', r) ->
  match r with
  | Ok _ => list_is (filter (fun i => negb (has_id itemId i)) L) N w'
  | Throw _ => list_is L N w'
  end.
Proof.
  intros HI. pose proof HI as (HL & HN & HS).
  unfold deleteListItem_operation, bind.
  destruct (fetch_transient (DeleteItem itemId) w HS)
    as [H | [(s & Hok & H404 & H) | H]]; rewrite H; clear H.
  - intros E; inversion E; subst. now apply list_is_issue.
  - assert (Hok' : ok {| status := s; body := NoBody |} = false) by exact Hok.
    cbv beta iota. rewrite Hok'. cbn [status negb andb].
    apply Nat.eqb_neq in H404. rewrite H404. cbn [negb].
    intros E; inversion E; subst. now apply list_is_issue.
  - pose proof (list_is_issue _ _ (DeleteItem itemId) _ HI) as (HL1 & HN1 & HS1).
    unfold serve.
    destruct (existsb (has_id itemId) (items (issue (DeleteItem itemId) w))) eqn:Ex;
      simpl; intros E; inversion E; subst; clear E.
    + repeat split; simpl; auto.
    + simpl in Ex. rewrite (filter_absent _ _ Ex). repeat split; simpl; auto.
Qed.

Lemma create_attempt itemData L N w w' r :
  list_is L N w ->
  createListItem_operation itemData w = (w', r) ->
  match r with
  | Ok i => i = {| Id := N; data := itemData |} /\ list_is (L ++ [i]) (S N) w'
  | Throw _ => list_is L N w'
  end.
Proof.
  intros HI. pose proof HI as (HL & HN & HS).
  unfold createListItem_operation, bind.
  destruct (fetch_transient (PostItem itemData) w HS)
    as [H | [(s & Hok & H404 & H) | H]]; rewrite H; clear H.
  - intros E; inversion E; subst. now apply list_is_issue.
  - assert (Hok' : ok {| status := s; body := NoBody |} = false) by exact Hok.
    cbv beta iota. rewrite Hok'. cbn [negb].
    intros E; inversion E; subst. now apply list_is_issue.
  - pose proof (list_is_issue _ _ (PostItem itemData) _ HI) as (HL1 & HN1 & HS1).
    simpl. intros E; inversion E; subst; clear E.
    split; [reflexivity|]. repeat split; simpl; auto.
Qed.

Lemma get_attempt meetingId L N w w' r :
  list_is L N w ->
  getVisitorRecords_operation meetingId w = (w', r) ->
  list_is L N w' /\
  match r with
  | Ok l => l = filter (is_meeting meetingId) L
  | Throw _ => True
  end.
Proof.
  intros HI. pose proof HI as (HL & HN & HS).
  unfold getVisitorRecords_operation, bind.
  destruct (fetch_transient (GetItems meetingId) w HS)
    as [H | [(s & Hok & H404 & H) | H]]; rewrite H; clear H.
  - intros E; inversion E; subst. split; [now apply list_is_issue|exact I].
  - assert (Hok' : ok {| status := s; body := NoBody |} = false) by exact Hok.
    cbv beta iota. rewrite Hok'. cbn [negb].
    intros E; inversion E; subst. split; [now apply list_is_issue|exact I].
  - pose proof (list_is_issue _ _ (GetItems meetingId) _ HI) as (HL1 & HN1 & HS1).
    simpl. intros E; inversion E; subst; clear E.
    split; [repeat split; auto|]. simpl. reflexivity.
Qed.

(** The retried operations. *)
Lemma deleteListItem_transient itemId L N w w' r :
  list_is L N w ->
  deleteListItem itemId w = (w', r) ->
  match r with
  | Ok _ => list_is (filter (fun i => negb (has_id itemId i)) L) N w'
  | Throw _ => list_is L N w'
  end.
Proof.
  intros HI E.
  destruct (executeWithRetry_last sleep retryConfig
              (deleteListItem_operation itemId) (list_is L N)
              (list_is_sleep L N)) with (retryCount := 0) (w := w)
    as (w0 & HI0 & E0); auto.
  - intros v v' e Hv Ev. exact (delete_attempt itemId L N _ _ _ Hv Ev).
  - unfold deleteListItem, executeWithRetry in E. rewrite E in E0.
    exact (delete_attempt itemId L N _ _ _ HI0 E0).
Qed.

Lemma createListItem_transient itemData L N w w' r :
  list_is L N w ->
  createListItem itemData w = (w', r) ->
  match r with
  | Ok i => i = {| Id := N; data := itemData |} /\ list_is (L ++ [i]) (S N) w'
  | Throw _ => list_is L N w'
  end.
Proof.
  intros HI E.
  destruct (executeWithRetry_last sleep retryConfig
              (createListItem_operation itemData) (list_is L N)
              (list_is_sleep L N)) with (retryCount := 0) (w := w)
    as (w0 & HI0 & E0); auto.
  - intros v v' e Hv Ev. exact (create_attempt itemData L N _ _ _ Hv Ev).
  - unfold createListItem, executeWithRetry in E. rewrite E in E0.
    exact (create_attempt itemData L N _ _ _ HI0 E0).
Qed.

Lemma getVisitorRecords_transient meetingId L N w w' r :
  list_is L N w ->
  getVisitorRecordsByMeetingId meetingId w = (w', r) ->
  list_is L N w' /\
  match r with
  | Ok l => l = filter (is_meeting meetingId) L
  | Throw _ => True
  end.
Proof.
  intros HI E.
  destruct (executeWithRetry_last sleep retryConfig
              (getVisitorRecords_operation meetingId) (list_is L N)
              (list_is_sleep L N)) with (retryCount := 0) (w := w)
    as (w0 & HI0 & E0); auto.
  - intros v v' e Hv Ev. exact (proj1 (get_attempt meetingId L N _ _ _ Hv Ev)).
  - unfold getVisitorRecordsByMeetingId, executeWithRetry in E. rewrite E in E0.
    exact (get_attempt meetingId L N _ _ _ HI0 E0).
Qed.

(** The removal loop shared by [updateVisitorRecords] and
    [deleteVisitorRecords]. *)
Lemma delete_loop (records : list ListItem) :
  forall L N w w' r,
    list_is L N w ->
    for_of records (fun record => deleteListItem (Id record) ;;; ret tt) w = (w', r) ->
    match r with
    | Ok _ => list_is (remove_ids (map Id records) L) N w'
    | Throw _ => exists L', list_is L' N w'
    end.
Proof.
  induction records as [|x records IH]; intros L N w w' r HI; simpl.
  - unfold ret. intros E; inversion E; subst. exact HI.
  - unfold bind at 1. unfold bind at 1.
    destruct (deleteListItem (Id x) w) as [w1 [b|e]] eqn:E1;
      pose proof (deleteListItem_transient (Id x) _ _ _ _ _ HI E1) as H1.
    + unfold ret at 1. intros E. exact (IH _ _ _ _ _ H1 E).
    + intros E; inversion E; subst. now exists L.
Qed.

Lemma remove_ids_In ids : forall (L : list ListItem) i,
  In i (remove_ids ids L) -> In i L /\ ~ In (Id i) ids.
Proof.
  induction ids as [|a ids IH]; intros L i; simpl.
  - auto.
  - intros H. apply IH in H as [H Hn].
    apply filter_In in H as [H Ha]. split; [assumption|].
    intros [->|Hin]; [|contradiction].
    unfold has_id in Ha. now rewrite Nat.eqb_refl in Ha.
Qed.

(** Removing the Ids read for a meeting leaves no record of it. *)
Lemma remove_ids_meeting meetingId (L : list ListItem) :
  filter (is_meeting meetingId)
         (remove_ids (map Id (filter (is_meeting meetingId) L)) L) = [].
Proof.
  destruct (filter (is_meeting meetingId) (remove_ids _ L)) as [|i l] eqn:E;
    [reflexivity|exfalso].
  assert (Hi : In i (i :: l)) by (left; reflexivity).
  rewrite <- E in Hi. apply filter_In in Hi as [Hi Hm].
  apply remove_ids_In in Hi as [Hi Hn]. apply Hn.
  apply in_map. apply filter_In. now split.
Qed.

End StoreFacts.

Section Reconciliation.

Lemma try_catch_rethrow {W A} (m : M W A) (w : W) :
  try_catch m (fun error => throw error) w = m w.
Proof. unfold try_catch, throw. now destruct (m w) as [w' [a|e]]. Qed.

Lemma formatDateTime_id date : formatDateTime date = date.
Proof. now destruct date. Qed.

Lemma make_record_spec meetingId meetingTitle user startTime endTime w :
  make_record meetingId meetingTitle user startTime endTime w =
  match visitorName user with
  | Ok _ => (w, Ok (record_of meetingId meetingTitle startTime endTime (now w) user))
  | Throw e => (w, Throw e)
  end.
Proof.
  unfold make_record, record_of, bind, lift_exc, gets, ret.
  destruct (visitorName user); [|reflexivity].
  now rewrite !formatDateTime_id.
Qed.

(** The creation loop of [createVisitorRecord]. *)
Lemma create_loop meetingId meetingTitle startTime endTime (users : list Attendee) :
  forall acc L N w w' recs,
    list_is L N w ->
    for_push users
      (fun user =>
         record <- make_record meetingId meetingTitle user startTime endTime ;;
         createListItem record) acc w = (w', Ok recs) ->
    exists news,
      recs = acc ++ news
      /\ list_is (L ++ news) (N + List.length news) w'
      /\ map visitor_email news = map emailAddress users
      /\ Forall (fun i => MeetingId (data i) = meetingId /\ Status (data i) = Scheduled)
                news.
Proof.
  induction users as [|u users IH]; intros acc L N w w' recs HI; simpl.
  - unfold ret. intros E; inversion E; subst. exists [].
    rewrite !app_nil_r, Nat.add_0_r. repeat split; auto; apply HI.
  - unfold bind at 1. unfold bind at 1. rewrite make_record_spec.
    destruct (visitorName u) as [v|e] eqn:Ev; [|discriminate].
    destruct (createListItem _ w) as [w1 [i|e]] eqn:E1; [|discriminate].
    pose proof (createListItem_transient _ _ _ _ _ _ HI E1) as [Hi H1].
    intros E. destruct (IH _ _ _ _ _ _ H1 E) as (news & Hr & HI' & Hm & Hf).
    exists (i :: news).
    split; [rewrite Hr, <- app_assoc; reflexivity|].
    split; [|split].
    + rewrite <- app_assoc in HI'. simpl in HI'. simpl.
      now rewrite Nat.add_succ_r.
    + simpl. rewrite Hm. f_equal. subst i. reflexivity.
    + constructor; [|assumption]. subst i. simpl. auto.
Qed.

Lemma filter_all {A} (p : A -> bool) (l : list A) :
  Forall (fun x => p x = true) l -> filter p l = l.
Proof.
  induction 1 as [|x l Hx _ IH]; simpl; [reflexivity|].
  now rewrite Hx, IH.
Qed.

(** What a successful pass leaves in the list, for any user list. *)
Lemma updateVisitorRecords_converges meetingId meetingTitle users startTime endTime
      w w' recs :
  Forall transient (script w) ->
  updateVisitorRecords meetingId meetingTitle users startTime endTime w = (w', Ok recs) ->
  meeting_records meetingId w' = recs
  /\ Forall (fun i => Status (data i) = Scheduled) recs
  /\ map visitor_email recs = map emailAddress users.
Proof.
  intros HS. unfold updateVisitorRecords. rewrite try_catch_rethrow.
  unfold bind at 1.
  destruct (getVisitorRecordsByMeetingId meetingId w) as [w1 [existing|e]] eqn:E1;
    [|discriminate].
  assert (HI : list_is (items w) (nextId w) w) by (repeat split; auto).
  destruct (getVisitorRecords_transient meetingId _ _ _ _ _ HI E1) as [HI1 Hex].
  unfold bind at 1.
  destruct (for_of existing _ w1) as [w2 [[]|e]] eqn:E2; [|discriminate].
  pose proof (delete_loop existing _ _ _ _ _ HI1 E2) as HI2. cbv beta iota in HI2.
  subst existing.
  pose proof (remove_ids_meeting meetingId (items w)) as Hgone.
  set (L2 := remove_ids (map Id (filter (is_meeting meetingId) (items w))) (items w))
    in *.
  destruct (0 <? List.length users)%nat eqn:Hlen.
  - unfold createVisitorRecord. rewrite try_catch_rethrow. intros E3.
    destruct (create_loop _ _ _ _ users [] _ _ _ _ _ HI2 E3) as (news & Hr & HI3 & Hm & Hf).
    simpl in Hr. subst recs. destruct HI3 as (Hitems & _ & _).
    unfold meeting_records. rewrite Hitems, filter_app, Hgone. simpl.
    repeat split.
    + apply filter_all. eapply Forall_impl; [|exact Hf].
      intros i [Hi _]. unfold is_meeting. rewrite Hi. apply String.eqb_refl.
    + eapply Forall_impl; [|exact Hf]. now intros i [_ Hi].
    + exact Hm.
  - unfold ret. intros E3; inversion E3; subst.
    destruct HI2 as (Hitems & _ & _).
    unfold meeting_records. rewrite Hitems, Hgone.
    apply Nat.ltb_ge in Hlen. destruct users; [|simpl in Hlen; lia].
    repeat split; constructor.
Qed.

Lemma count_map {A B} (f : A -> B) (p : B -> bool) (l : list A) :
  List.length (filter (fun x => p (f x)) l) = List.length (filter p (map f l)).
Proof.
  induction l as [|x l IH]; simpl; [reflexivity|].
  destruct (p (f x)); simpl; now rewrite IH.
Qed.

End Reconciliation.

(** C1, as stated, fails: an address that occurs twice in the attendee
    list is classified twice, and the pass that succeeds leaves two
    [Scheduled] records for it. *)
Lemma C1_duplicate_address_two_records :
  let users := filterExternalUsers (cfg_of ["internal.com"] (Some true))
                 [ext "a@ext.com" "A"; ext "b@internal.com" "B"; ext "a@ext.com" "A"] in
  let result := updateVisitorRecords "m1" "Review" users None None (store [] 1 []) in
  (exists recs, snd result = Ok recs)
  /\ scheduled_count "m1" (JStr "a@ext.com") (fst result) = 2.
Proof. vm_compute. split; [eexists|]; reflexivity. Qed.

(** C1 (amended): after a pass that completes successfully against a list
    that fails only transiently, the records of the meeting are exactly
    the records just created, all [Scheduled], one per entry of the
    classified user list and in its order: an address has as many
    [Scheduled] records as it has entries in that list (one, when the
    list does not repeat it). *)
Theorem C1_one_record_per_classified_entry :
  forall config attendees meetingId meetingTitle startTime endTime w w' recs,
    Forall transient (script w) ->
    updateVisitorRecords meetingId meetingTitle
      (filterExternalUsers config attendees) startTime endTime w = (w', Ok recs) ->
    meeting_records meetingId w' = recs
    /\ Forall (fun i => Status (data i) = Scheduled) recs
    /\ map visitor_email recs = map emailAddress (filterExternalUsers config attendees)
    /\ forall email,
         scheduled_count meetingId email w'
         = occurrences email (filterExternalUsers config attendees).
Proof.
  intros config attendees meetingId meetingTitle startTime endTime w w' recs HS E.
  edestruct updateVisitorRecords_converges as (Hrecs & Hsch & Hmap);
    [exact HS | exact E |].
  repeat split; auto.
  intros email. unfold scheduled_count, occurrences. rewrite Hrecs.
  rewrite (count_map emailAddress (fun v => jsval_eqb v email)), <- Hmap.
  rewrite <- (count_map visitor_email (fun v => jsval_eqb v email)).
  f_equal. apply filter_ext_in. intros i Hi.
  rewrite Forall_forall in Hsch. unfold is_scheduled. now rewrite (Hsch i Hi).
Qed.

Lemma C1_one_record_per_classified_entry_witness :
  let attendees := [ext "a@ext.com" "A"; ext "b@internal.com" "B"; ext "d@ext.com" "D"] in
  let config := cfg_of ["internal.com"] (Some true) in
  let w := store [visitor 1 "m1" "a@ext.com" Scheduled; visitor 2 "m1" "c@ext.com" Completed;
                  visitor 3 "m2" "c@ext.com" Scheduled] 4
                 [None; Some (Respond 503); Some Reject] in
  let result := updateVisitorRecords "m1" "Review"
                  (filterExternalUsers config attendees) None None w in
  Forall transient (script w)
  /\ map visitor_email (meeting_records "m1" (fst result))
     = [JStr "a@ext.com"; JStr "d@ext.com"]
  /\ scheduled_count "m1" (JStr "a@ext.com") (fst result) = 1
  /\ scheduled_count "m1" (JStr "c@ext.com") (fst result) = 0.
Proof.
  intros attendees config w result.
  assert (HS : Forall transient (script w)).
  { repeat constructor; simpl; auto; discriminate. }
  destruct result as [w' r] eqn:E.
  assert (Er : exists recs, r = Ok recs).
  { assert (H : snd result = snd (w', r)) by now rewrite E.
    vm_compute in H. rewrite <- H. eexists; reflexivity. }
  destruct Er as [recs ->].
  destruct (C1_one_record_per_classified_entry config attendees "m1" "Review"
              None None w w' recs HS E) as (Hrecs & _ & Hmap & Hcount).
  split; [exact HS|]. simpl fst.
  split; [rewrite Hrecs, Hmap; reflexivity|].
  split; rewrite Hcount; reflexivity.
Defined.

Section FaultFree.

Lemma fetch_served rq w :
  script w = [] ->
  fetch rq w = (fst (serve rq (issue rq w)), Ok (snd (serve rq (issue rq w))))
  /\ served rq w (fst (serve rq (issue rq w))).
Proof.
  intros HS. unfold fetch. rewrite HS.
  destruct (serve rq (issue rq w)) as [w2 r] eqn:E. split; [reflexivity|].
  simpl. unfold serve in E.
  destruct rq as [m|c|d|i]; simpl in E;
    try destruct (existsb (has_id i) (items w));
    inversion E; subst; unfold served; simpl; rewrite HS; auto.
Qed.

Lemma deleteListItem_served itemId w :
  script w = [] ->
  exists w' b, deleteListItem itemId w = (w', Ok b)
               /\ served (DeleteItem itemId) w w'.
Proof.
  intros HS. destruct (fetch_served (DeleteItem itemId) w HS) as [Hf Hs].
  unfold deleteListItem, executeWithRetry.
  exists (fst (serve (DeleteItem itemId) (issue (DeleteItem itemId) w))),
         (ok (snd (serve (DeleteItem itemId) (issue (DeleteItem itemId) w)))).
  split; [|exact Hs].
  apply executeWithRetry_Ok.
  unfold deleteListItem_operation, bind. rewrite Hf.
  unfold serve. simpl.
  destruct (existsb (has_id itemId) (items w)); reflexivity.
Qed.

Lemma createListItem_served itemData w :
  script w = [] ->
  exists w' i, createListItem itemData w = (w', Ok i)
               /\ served (PostItem itemData) w w'.
Proof.
  intros HS. destruct (fetch_served (PostItem itemData) w HS) as [Hf Hs].
  unfold createListItem, executeWithRetry.
  eexists. eexists. split; [|exact Hs].
  apply executeWithRetry_Ok.
  unfold createListItem_operation, bind. rewrite Hf. reflexivity.
Qed.

Lemma getVisitorRecords_served meetingId w :
  script w = [] ->
  exists w', getVisitorRecordsByMeetingId meetingId w
             = (w', Ok (meeting_records meetingId w))
             /\ served (GetItems meetingId) w w'.
Proof.
  intros HS. destruct (fetch_served (GetItems meetingId) w HS) as [Hf Hs].
  unfold getVisitorRecordsByMeetingId, executeWithRetry.
  eexists. split; [|exact Hs].
  apply executeWithRetry_Ok.
  unfold getVisitorRecords_operation, bind. rewrite Hf. reflexivity.
Qed.

Lemma served_all_nil w : script w = [] -> served_all [] w w.
Proof. intros H. unfold served_all. now rewrite app_nil_r. Qed.

Lemma served_all_cons rq rqs w w1 w2 :
  served rq w w1 -> served_all rqs w1 w2 -> served_all (rq :: rqs) w w2.
Proof.
  intros (_ & Hr1 & Hn1) (Hs2 & Hr2 & Hn2). repeat split; auto.
  - rewrite Hr2, Hr1, <- app_assoc. reflexivity.
  - congruence.
Qed.

Lemma served_all_app rqs1 rqs2 w w1 w2 :
  served_all rqs1 w w1 -> served_all rqs2 w1 w2 -> served_all (rqs1 ++ rqs2) w w2.
Proof.
  intros (_ & Hr1 & Hn1) (Hs2 & Hr2 & Hn2). repeat split; auto.
  - rewrite Hr2, Hr1, <- app_assoc. reflexivity.
  - congruence.
Qed.

Lemma delete_loop_served (records : list ListItem) :
  forall w, script w = [] ->
    exists w',
      for_of records (fun record => deleteListItem (Id record) ;;; ret tt) w
        = (w', Ok tt)
      /\ served_all (map (fun i => DeleteItem (Id i)) records) w w'.
Proof.
  induction records as [|x records IH]; intros w HS; simpl.
  - exists w. split; [reflexivity|now apply served_all_nil].
  - destruct (deleteListItem_served (Id x) w HS) as (w1 & b & E1 & H1).
    destruct (IH w1 (proj1 H1)) as (w2 & E2 & H2).
    exists w2. split; [|eapply served_all_cons; eauto].
    unfold bind at 1. unfold bind at 1. rewrite E1. unfold ret at 1. exact E2.
Qed.

Lemma visitorName_string user :
  (exists s, emailAddress user = JStr s /\ s <> "") ->
  exists v, visitorName user = Ok v.
Proof.
  intros (s & Hs & _). unfold visitorName.
  destruct (truthy (name user)); [eexists; reflexivity|].
  rewrite Hs. simpl. eexists; reflexivity.
Qed.

Lemma create_loop_served meetingId meetingTitle startTime endTime
      (users : list Attendee) :
  Forall (fun a => exists s, emailAddress a = JStr s /\ s <> "") users ->
  forall acc w, script w = [] ->
    exists w' recs,
      for_push users
        (fun user =>
           record <- make_record meetingId meetingTitle user startTime endTime ;;
           createListItem record) acc w = (w', Ok recs)
      /\ served_all
           (map (fun u => PostItem (record_of meetingId meetingTitle startTime endTime
                                              (now w) u)) users) w w'.
Proof.
  induction 1 as [|u users Hu _ IH]; intros acc w HS; simpl.
  - exists w, acc. split; [reflexivity|now apply served_all_nil].
  - destruct (visitorName_string u Hu) as [v Hv].
    set (d := record_of meetingId meetingTitle startTime endTime (now w) u).
    destruct (createListItem_served d w HS) as (w1 & i & E1 & H1).
    destruct (IH (acc ++ [i]) w1 (proj1 H1)) as (w2 & recs & E2 & H2).
    exists w2, recs. split.
    + unfold bind at 1. unfold bind at 1. rewrite make_record_spec, Hv.
      fold d. rewrite E1. exact E2.
    + eapply served_all_cons; [exact H1|].
      destruct H1 as (_ & _ & Hn). rewrite Hn in H2. exact H2.
Qed.

End FaultFree.

(** C2, as stated, fails: with records for a and c and wanted a and d,
    the pass removes the record of a as well and creates a anew. *)
Lemma C2_unchanged_participant_is_rewritten :
  let result := updateVisitorRecords "m1" "Review" scenario_B_wanted None None
                  scenario_B_store in
  requests (fst result)
  = [ GetItems "m1"; DeleteItem 1; DeleteItem 2;
      PostItem (record_of "m1" "Review" None None 0 (ext "a@ext.com" "A"));
      PostItem (record_of "m1" "Review" None None 0 (ext "d@ext.com" "D")) ]
  /\ In (DeleteItem 1) (requests (fst result))
  /\ visitor_email (visitor 1 "m1" "a@ext.com" Scheduled) = JStr "a@ext.com".
Proof. vm_compute. repeat split; auto. Qed.

(** C2 (amended): a pass does not compute a difference.  Against a list
    without faults it reads the records of the meeting, then removes every
    one of them, then creates one record for every wanted participant,
    whether or not a record for that address existed; for existing
    a, c and wanted a, d that is two removals and two creations. *)
Theorem C2_pass_replaces_all_records :
  forall config attendees meetingId meetingTitle startTime endTime w,
    script w = [] ->
    exists w' recs,
      updateVisitorRecords meetingId meetingTitle
        (filterExternalUsers config attendees) startTime endTime w = (w', Ok recs)
      /\ requests w'
         = requests w
           ++ GetItems meetingId
              :: map (fun i => DeleteItem (Id i)) (meeting_records meetingId w)
           ++ map (fun u => PostItem (record_of meetingId meetingTitle startTime endTime
                                                (now w) u))
                  (filterExternalUsers config attendees).
Proof.
  intros config attendees meetingId meetingTitle startTime endTime w HS.
  set (users := filterExternalUsers config attendees).
  destruct (getVisitorRecords_served meetingId w HS) as (w1 & E1 & H1).
  destruct (delete_loop_served (meeting_records meetingId w) w1 (proj1 H1))
    as (w2 & E2 & H2).
  assert (Hnow : now w2 = now w).
  { destruct H1 as (_ & _ & Hn1). destruct H2 as (_ & _ & Hn2). congruence. }
  unfold updateVisitorRecords.
  destruct (0 <? List.length users)%nat eqn:Hlen.
  - destruct (create_loop_served meetingId meetingTitle startTime endTime _
                (filterExternalUsers_strings config attendees) [] w2 (proj1 H2))
      as (w3 & recs & E3 & H3).
    fold users in E3, H3. rewrite Hnow in H3.
    exists w3, recs. split.
    + rewrite try_catch_rethrow. unfold bind at 1. rewrite E1.
      unfold bind at 1. rewrite E2.
      unfold createVisitorRecord. rewrite try_catch_rethrow. exact E3.
    + pose proof (served_all_cons _ _ _ _ _ H1 (served_all_app _ _ _ _ _ H2 H3)) as (_ & Hr & _).
      exact Hr.
  - exists w2, []. split.
    + rewrite try_catch_rethrow. unfold bind at 1. rewrite E1.
      unfold bind at 1. rewrite E2. reflexivity.
    + apply Nat.ltb_ge in Hlen. destruct users; [|simpl in Hlen; lia].
      pose proof (served_all_cons _ _ _ _ _ H1 H2) as (_ & Hr & _).
      simpl. rewrite app_nil_r. exact Hr.
Qed.

Lemma C2_pass_replaces_all_records_witness :
  script scenario_B_store = []
  /\ exists w' recs,
       updateVisitorRecords "m1" "Review"
         (filterExternalUsers (cfg_of ["internal.com"] None) scenario_B_wanted)
         None None scenario_B_store = (w', Ok recs)
       /\ requests w'
          = [ GetItems "m1"; DeleteItem 1; DeleteItem 2;
              PostItem (record_of "m1" "Review" None None 0 (ext "a@ext.com" "A"));
              PostItem (record_of "m1" "Review" None None 0 (ext "d@ext.com" "D")) ].
Proof.
  split; [reflexivity|].
  exact (C2_pass_replaces_all_records (cfg_of ["internal.com"] None) scenario_B_wanted
           "m1" "Review" None None scenario_B_store eq_refl).
Defined.

(* ===================================================================== *)
(** * Removal                                                            *)
(* ===================================================================== *)

Section Removal.

(** An error status other than 404 makes the attempt raise. *)
Lemma delete_attempt_error itemId w s rest :
  script w = Some (Respond s) :: rest ->
  ((200 <=? s)%nat && (s <=? 299)%nat) = false ->
  s <> 404 ->
  deleteListItem_operation itemId w
  = (issue (DeleteItem itemId) w, Throw (HttpError s)).
Proof.
  intros HS Hok H404. unfold deleteListItem_operation, bind, fetch.
  rewrite HS. unfold ok. cbn [status]. rewrite Hok.
  apply Nat.eqb_neq in H404. rewrite H404. reflexivity.
Qed.

(** A 404 makes the attempt return [false]. *)
Lemma delete_attempt_404 itemId w rest :
  script w = Some (Respond 404) :: rest ->
  deleteListItem_operation itemId w = (issue (DeleteItem itemId) w, Ok false).
Proof.
  intros HS. unfold deleteListItem_operation, bind, fetch.
  rewrite HS. reflexivity.
Qed.

(** The list answers 404 for a record it does not hold. *)
Lemma delete_attempt_absent itemId w :
  match script w with [] | None :: _ => True | _ => False end ->
  existsb (has_id itemId) (items w) = false ->
  deleteListItem_operation itemId w = (issue (DeleteItem itemId) w, Ok false).
Proof.
  intros HS Habs. unfold deleteListItem_operation, bind, fetch.
  destruct (script w) as [|[f|] rest]; try contradiction;
    unfold serve; simpl; rewrite Habs; reflexivity.
Qed.

End Removal.

(** C8: removing a record that the list does not hold is answered with
    404 and [deleteListItem] returns normally (with [false]) after that
    one request, leaving the list as it was; a 404 answer is never an
    error; any other error status makes the attempt raise, and when the
    four attempts all meet one the last such error is raised. *)
Theorem C8_remove_is_idempotent :
  forall itemId w,
    (match script w with [] | None :: _ => True | _ => False end ->
     existsb (has_id itemId) (items w) = false ->
     deleteListItem itemId w = (issue (DeleteItem itemId) w, Ok false)
     /\ items (issue (DeleteItem itemId) w) = items w)
    /\ (forall rest,
          script w = Some (Respond 404) :: rest ->
          deleteListItem itemId w = (issue (DeleteItem itemId) w, Ok false))
    /\ (forall s1 s2 s3 s4 rest,
          script w = Some (Respond s1) :: Some (Respond s2) :: Some (Respond s3)
                       :: Some (Respond s4) :: rest ->
          Forall transient [Some (Respond s1); Some (Respond s2);
                            Some (Respond s3); Some (Respond s4)] ->
          snd (deleteListItem itemId w) = Throw (HttpError s4)
          /\ items (fst (deleteListItem itemId w)) = items w).
Proof.
  intros itemId w. split; [|split].
  - intros HS Habs. split; [|reflexivity].
    unfold deleteListItem, executeWithRetry.
    apply executeWithRetry_Ok. now apply delete_attempt_absent.
  - intros rest HS. unfold deleteListItem, executeWithRetry.
    apply executeWithRetry_Ok. eapply delete_attempt_404; eauto.
  - intros s1 s2 s3 s4 rest HS HT.
    inversion HT as [|? ? T1 HT1]; subst. destruct T1 as [Hok1 Hn1].
    inversion HT1 as [|? ? T2 HT2]; subst. destruct T2 as [Hok2 Hn2].
    inversion HT2 as [|? ? T3 HT3]; subst. destruct T3 as [Hok3 Hn3].
    inversion HT3 as [|? ? T4 _]; subst. destruct T4 as [Hok4 Hn4].
    unfold deleteListItem, executeWithRetry.
    rewrite executeWithRetry_unfold.
    rewrite (delete_attempt_error itemId w s1 _ HS Hok1 Hn1). cbn [Nat.ltb Nat.leb maxRetries retryConfig].
    rewrite executeWithRetry_unfold.
    erewrite delete_attempt_error; [| simpl; rewrite HS; reflexivity | exact Hok2 | exact Hn2].
    cbn [Nat.ltb Nat.leb maxRetries retryConfig].
    rewrite executeWithRetry_unfold.
    erewrite delete_attempt_error; [| simpl; rewrite HS; reflexivity | exact Hok3 | exact Hn3].
    cbn [Nat.ltb Nat.leb maxRetries retryConfig].
    rewrite executeWithRetry_unfold.
    erewrite delete_attempt_error; [| simpl; rewrite HS; reflexivity | exact Hok4 | exact Hn4].
    cbn [Nat.ltb Nat.leb maxRetries retryConfig].
    split; reflexivity.
Qed.

Lemma C8_remove_is_idempotent_witness :
  let w := store [visitor 1 "m1" "a@ext.com" Scheduled] 2 [] in
  let w4 := store [visitor 1 "m1" "a@ext.com" Scheduled] 2
                  [Some (Respond 500); Some (Respond 503); Some (Respond 429);
                   Some (Respond 403)] in
  (deleteListItem 7 w = (issue (DeleteItem 7) w, Ok false)
   /\ items (issue (DeleteItem 7) w) = items w)
  /\ snd (deleteListItem 1 w4) = Throw (HttpError 403).
Proof.
  intros w w4. split.
  - exact (proj1 (C8_remove_is_idempotent 7 w) I eq_refl).
  - refine (proj1 (proj2 (proj2 (C8_remove_is_idempotent 1 w4))
                     500 503 429 403 [] eq_refl _)).
    repeat constructor; discriminate.
Defined.

(* ===================================================================== *)
(** * Notification of the participants                                   *)
(* ===================================================================== *)

Section Notification.

Lemma extends_refl w : extends w w.
Proof. repeat split. exists []. now rewrite app_nil_r. Qed.

Lemma extends_trans w1 w2 w3 : extends w1 w2 -> extends w2 w3 -> extends w1 w3.
Proof.
  intros (Hc1 & Hi1 & x1 & Hp1) (Hc2 & Hi2 & x2 & Hp2).
  repeat split; try congruence.
  exists (x1 ++ x2). rewrite Hp2, Hp1, app_assoc. reflexivity.
Qed.

Lemma extends_sleep w d : extends w (PA.sleep d w).
Proof. repeat split. exists []. simpl. now rewrite app_nil_r. Qed.

Lemma posts_since_extends w w' extra :
  PA.posted w' = PA.posted w ++ extra -> posts_since w w' = extra.
Proof.
  intros H. unfold posts_since. rewrite H.
  rewrite skipn_app, skipn_all, Nat.sub_diag. reflexivity.
Qed.

Lemma fetch_extends p t w :
  extends w (fst (PA.fetch p t w))
  /\ In p (posts_since w (fst (PA.fetch p t w))).
Proof.
  assert (H : PA.posted (fst (PA.fetch p t w)) = PA.posted w ++ [p]
              /\ PA.powerAutomate (fst (PA.fetch p t w)) = PA.powerAutomate w
              /\ PA.isInitialized (fst (PA.fetch p t w)) = PA.isInitialized w).
  { unfold PA.fetch.
    destruct (PA.script w) as [|[[| |s]|] rest]; simpl; auto.
    destruct (PA.ok s); simpl; auto. }
  destruct H as (Hp & Hc & Hi). split.
  - repeat split; auto. now exists [p].
  - rewrite (posts_since_extends _ _ _ Hp). now left.
Qed.

Lemma extends_in w w0 w' p :
  extends w w0 -> extends w0 w' ->
  In p (posts_since w0 w') -> In p (posts_since w w').
Proof.
  intros (_ & _ & x & Hx) (_ & _ & y & Hy) Hin.
  rewrite (posts_since_extends _ _ _ Hy) in Hin.
  assert (H : PA.posted w' = PA.posted w ++ (x ++ y))
    by (rewrite Hy, Hx, app_assoc; reflexivity).
  rewrite (posts_since_extends _ _ _ H). apply in_or_app. now right.
Qed.

Lemma extends_keeps w w0 w' p :
  extends w0 w' -> In p (posts_since w w0) -> (exists x, PA.posted w0 = PA.posted w ++ x) ->
  In p (posts_since w w').
Proof.
  intros (_ & _ & y & Hy) Hin (x & Hx).
  rewrite (posts_since_extends _ _ _ Hx) in Hin.
  assert (H : PA.posted w' = PA.posted w ++ (x ++ y))
    by (rewrite Hy, Hx, app_assoc; reflexivity).
  rewrite (posts_since_extends _ _ _ H). apply in_or_app. now left.
Qed.

(** One attempt to notify: a POST for the visitor is issued. *)
Lemma send_attempt nd c w :
  PA.powerAutomate w = Some c ->
  extends w (fst (PA.sendSingleNotification_operation nd w))
  /\ exists p, In p (posts_since w (fst (PA.sendSingleNotification_operation nd w)))
               /\ PA.p_visitorEmail p = PA.visitorEmail nd.
Proof.
  intros Hc. unfold PA.sendSingleNotification_operation, bind, gets.
  rewrite Hc.
  match goal with
  | |- context [PA.fetch ?p ?t w] =>
      destruct (fetch_extends p t w) as [He Hin];
      destruct (PA.fetch p t w) as [w1 [s|e]] eqn:E; simpl in He, Hin
  end.
  - destruct (negb (PA.ok s)); simpl.
    + split; [exact He|].
      match type of Hin with In ?p _ => exists p end. split; [exact Hin|reflexivity].
    + split.
      * eapply extends_trans; [exact He|]. repeat split. exists [].
        simpl. now rewrite app_nil_r.
      * match type of Hin with In ?p _ => exists p end. split; [|reflexivity].
        destruct He as (_ & _ & x & Hx).
        rewrite (posts_since_extends _ _ _ Hx) in Hin.
        unfold posts_since. simpl. rewrite Hx.
        rewrite skipn_app, skipn_all, Nat.sub_diag. exact Hin.
  - simpl. split; [exact He|].
    match type of Hin with In ?p _ => exists p end. split; [exact Hin|reflexivity].
Qed.

Lemma sendSingleNotification_extends nd c w :
  PA.powerAutomate w = Some c ->
  extends w (fst (PA.sendSingleNotification nd w))
  /\ exists p, In p (posts_since w (fst (PA.sendSingleNotification nd w)))
               /\ PA.p_visitorEmail p = PA.visitorEmail nd.
Proof.
  intros Hc. unfold PA.sendSingleNotification, PA.executeWithRetry.
  destruct (executeWithRetry_last PA.sleep PA.retryConfig
              (PA.sendSingleNotification_operation nd) (extends w))
    with (retryCount := 0) (w := w) as (w0 & H0 & E0).
  - intros d v Hv. eapply extends_trans; [exact Hv|apply extends_sleep].
  - intros v v' e Hv Ev. eapply extends_trans; [exact Hv|].
    assert (Hcv : PA.powerAutomate v = Some c) by (destruct Hv as (-> & _); exact Hc).
    pose proof (proj1 (send_attempt nd c v Hcv)) as H. now rewrite Ev in H.
  - apply extends_refl.
  - rewrite <- E0.
    assert (Hc0 : PA.powerAutomate w0 = Some c) by (destruct H0 as (-> & _); exact Hc).
    destruct (send_attempt nd c w0 Hc0) as (He & p & Hin & Hp).
    split; [eapply extends_trans; eauto|].
    exists p. split; [|exact Hp]. eapply extends_in; eauto.
Qed.

(** One participant: the entry is for that participant, whatever
    happened to the send, and the loop body never throws. *)
Lemma notify_user_spec meetingId meetingTitle startTime endTime notificationType
      user c w :
  PA.powerAutomate w = Some c ->
  let result := PA.notify_user meetingId meetingTitle startTime endTime
                  notificationType user w in
  (exists d, snd result = Ok d /\ PA.email d = emailAddress user)
  /\ extends w (fst result)
  /\ ((exists v, visitorName user = Ok v) ->
      exists p, In p (posts_since w (fst result))
                /\ PA.p_visitorEmail p = emailAddress user).
Proof.
  intros Hc. cbv zeta. unfold PA.notify_user, try_catch, bind, lift_exc.
  destruct (visitorName user) as [v|e] eqn:Ev.
  - match goal with
    | |- context [PA.sendSingleNotification ?nd w] =>
        destruct (sendSingleNotification_extends nd c w Hc) as (He & p & Hin & Hp);
        destruct (PA.sendSingleNotification nd w) as [w1 [n|e]]
    end; simpl in *.
    + split; [eexists; split; reflexivity|]. split; [exact He|].
      intros _. now exists p.
    + split; [eexists; split; reflexivity|]. split; [exact He|].
      intros _. now exists p.
  - simpl. split; [eexists; split; reflexivity|].
    split; [apply extends_refl|]. intros [v Hv]. discriminate.
Qed.

Lemma notify_loop meetingId meetingTitle startTime endTime notificationType c
      (users : list Attendee) :
  forall acc w,
    PA.powerAutomate w = Some c ->
    exists w' ds,
      for_push users
        (PA.notify_user meetingId meetingTitle startTime endTime notificationType)
        acc w = (w', Ok (acc ++ ds))
      /\ map PA.email ds = map emailAddress users
      /\ extends w w'
      /\ forall u, In u users -> (exists v, visitorName u = Ok v) ->
           exists p, In p (posts_since w w') /\ PA.p_visitorEmail p = emailAddress u.
Proof.
  induction users as [|u users IH]; intros acc w Hc; simpl.
  - exists w, []. rewrite app_nil_r. repeat split; auto using extends_refl.
    + exists []. now rewrite app_nil_r.
    + intros u [].
  - destruct (notify_user_spec meetingId meetingTitle startTime endTime
                notificationType u c w Hc) as ((d & Hd & Hmail) & He & Hpost).
    destruct (PA.notify_user _ _ _ _ _ u w) as [w1 r] eqn:E1.
    simpl in Hd, He, Hpost. subst r.
    assert (Hc1 : PA.powerAutomate w1 = Some c) by (destruct He as (-> & _); exact Hc).
    destruct (IH (acc ++ [d]) w1 Hc1) as (w2 & ds & E2 & Hm & He2 & Hposts).
    exists w2, (d :: ds). split; [|split; [|split]].
    + unfold bind at 1. rewrite E1. rewrite E2, <- app_assoc. reflexivity.
    + simpl. now rewrite Hmail, Hm.
    + eapply extends_trans; eauto.
    + intros u' [<-|Hin] Hv.
      * destruct (Hpost Hv) as (p & Hp & Hpe). exists p. split; [|exact Hpe].
        eapply extends_keeps; [exact He2|exact Hp|]. now destruct He as (_ & _ & Hx).
      * destruct (Hposts u' Hin Hv) as (p & Hp & Hpe). exists p. split; [|exact Hpe].
        eapply extends_in; eauto.
Qed.


End Notification.

Section NotificationOutcome.





End NotificationOutcome.


(** Partial failure: the second of three participants fails on all four
    attempts; the other two are delivered and reported so. *)
Example partial_failure :
  let w := flow [None; Some (PA.Respond 500); Some PA.Abort; Some PA.Reject;
                 Some (PA.Respond 502); None] in
  let result := PA.sendVisitorNotification "m1" "Review" three_users None None created w in
  option_map (fun r => (PA.r_success r, PA.notificationsSent r, PA.failures r,
                        map PA.success (entries r)))
             (match snd result with Ok r => Some r | Throw _ => None end)
  = Some (false, 2, Some 1, [true; false; true])
  /\ map PA.p_visitorEmail (PA.delivered (fst result))
     = [JStr "a@ext.com"; JStr "c@ext.com"].
Proof. vm_compute. split; reflexivity. Qed.


(* ===================================================================== *)
(** * An empty external set                                              *)
(* ===================================================================== *)

Section EmptySet.

Lemma deleteVisitorRecords_clears meetingId w w' n :
  Forall transient (script w) ->
  deleteVisitorRecords meetingId w = (w', Ok n) ->
  meeting_records meetingId w' = [] /\ Forall transient (script w').
Proof.
  intros HS. unfold deleteVisitorRecords. rewrite try_catch_rethrow.
  unfold bind at 1.
  destruct (getVisitorRecordsByMeetingId meetingId w) as [w1 [existing|e]] eqn:E1;
    [|discriminate].
  assert (HI : list_is (items w) (nextId w) w) by (repeat split; auto).
  destruct (getVisitorRecords_transient meetingId _ _ _ _ _ HI E1) as [HI1 Hex].
  unfold bind at 1.
  destruct (for_of existing _ w1) as [w2 [[]|e]] eqn:E2; [|discriminate].
  pose proof (delete_loop existing _ _ _ _ _ HI1 E2) as HI2. cbv beta iota in HI2.
  unfold ret. intros E; inversion E; subst.
  destruct HI2 as (Hitems & _ & Hs). split; [|exact Hs].
  unfold meeting_records. rewrite Hitems. apply remove_ids_meeting.
Qed.

Lemma deleteVisitorRecords_served meetingId w :
  script w = [] ->
  exists w' n, deleteVisitorRecords meetingId w = (w', Ok n).
Proof.
  intros HS.
  destruct (getVisitorRecords_served meetingId w HS) as (w1 & E1 & H1).
  destruct (delete_loop_served (meeting_records meetingId w) w1 (proj1 H1))
    as (w2 & E2 & H2).
  exists w2. eexists.
  unfold deleteVisitorRecords. rewrite try_catch_rethrow.
  unfold bind at 1. rewrite E1. unfold bind at 1. rewrite E2. reflexivity.
Qed.

(** [manualSync] when the meeting has no external user. *)
Lemma manualSync_empty cw d :
  Commands.initialized cw = true ->
  Host.extractEventData (Commands.config cw) (Commands.generated cw) (Commands.item cw)
    = Some d ->
  Host.externalUsers d = [] ->
  Forall transient (script (Commands.sharePoint cw)) ->
  exists msg,
    Commands.shown (fst (Commands.manualSync cw)) = Commands.shown cw ++ [msg]
    /\ (not_error msg ->
        meeting_records (Host.meetingId d)
          (Commands.sharePoint (fst (Commands.manualSync cw))) = [])
    /\ (script (Commands.sharePoint cw) = [] -> not_error msg).
Proof.
  intros Hinit Hd Hext HS.
  destruct (Commands.manualSync cw) as [cw' r] eqn:E. cbn [fst].
  unfold Commands.manualSync, try_catch in E.
  unfold bind at 1 in E. unfold gets at 1 in E. rewrite Hinit in E. cbn [negb] in E.
  unfold bind at 1 in E. unfold gets at 1 in E. rewrite Hd in E.
  unfold bind at 1 in E. unfold Commands.onSharePoint at 1 in E.
  assert (HI : list_is (items (Commands.sharePoint cw)) (nextId (Commands.sharePoint cw))
                       (Commands.sharePoint cw)) by (repeat split; auto).
  destruct (getVisitorRecordsByMeetingId (Host.meetingId d) (Commands.sharePoint cw))
    as [s1 [existing|e]] eqn:E1.
  - destruct (getVisitorRecords_transient _ _ _ _ _ _ HI E1) as [HI1 Hex].
    rewrite Hext in E.
    change ((0 <? List.length (@nil Attendee))%nat) with false in E.
    cbv iota in E.
    destruct (0 <? List.length existing)%nat eqn:Hlen.
    + unfold bind at 1 in E. unfold bind at 1 in E.
      unfold Commands.onSharePoint at 1 in E.
      cbn [Commands.sharePoint Commands.set_sharePoint] in E.
      destruct (deleteVisitorRecords (Host.meetingId d) s1) as [s2 [n|e]] eqn:E2.
      * unfold ret at 1, modify in E. inversion E; subst; clear E. simpl.
        exists (Commands.SyncDeleted (List.length
                  (filter (is_meeting (Host.meetingId d))
                          (items (Commands.sharePoint cw))))).
        split; [reflexivity|]. split; [|intros _; exact I].
        intros _.
        exact (proj1 (deleteVisitorRecords_clears _ _ _ _ (proj2 (proj2 HI1)) E2)).
      * unfold modify in E. inversion E; subst; clear E. simpl.
        exists (Commands.SyncError e).
        split; [reflexivity|]. split; [intros []|].
        intros Hff.
        destruct (getVisitorRecords_served (Host.meetingId d) _ Hff) as (s1' & E1' & H1').
        rewrite E1 in E1'. inversion E1'; subst s1'.
        destruct (deleteVisitorRecords_served (Host.meetingId d) s1 (proj1 H1'))
          as (s2' & n' & E2').
        rewrite E2 in E2'. discriminate.
    + unfold bind at 1 in E. unfold ret at 1 in E. unfold modify in E.
      inversion E; subst; clear E. simpl.
      exists Commands.SyncNoChange.
      split; [reflexivity|]. split; [|intros _; exact I].
      intros _. destruct HI1 as (Hitems & _ & _).
      unfold meeting_records. rewrite Hitems.
      apply Nat.ltb_ge in Hlen.
      destruct (filter (is_meeting (Host.meetingId d)) (items (Commands.sharePoint cw)));
        [reflexivity|simpl in Hlen; lia].
  - unfold modify in E. inversion E; subst; clear E. simpl.
    exists (Commands.SyncError e).
    split; [reflexivity|]. split; [intros []|].
    intros Hff.
    destruct (getVisitorRecords_served (Host.meetingId d) _ Hff) as (s1' & E1' & _).
    rewrite E1 in E1'. discriminate.
Qed.

End EmptySet.

(** C9, as stated, fails: a recipients-changed event that finds no
    external user left is not dispatched, so the two records of the
    meeting stay in the list and no request is issued. *)
Lemma C9_event_keeps_records :
  let w := taskpane internal_only in
  let result := TaskpaneApp.handleRecipientsChanged w in
  option_map Host.externalUsers
    (Host.extractEventData (TaskpaneApp.config w) (TaskpaneApp.generated w)
                           (TaskpaneApp.item w)) = Some []
  /\ List.length (meeting_records "m1" (TaskpaneApp.sharePoint w)) = 2
  /\ List.length (meeting_records "m1" (TaskpaneApp.sharePoint (fst result))) = 2
  /\ requests (TaskpaneApp.sharePoint (fst result)) = [].
Proof. vm_compute. repeat split; reflexivity. Qed.

(** C9 (amended): when the external set of the meeting is empty, a change
    event is not dispatched and [processVisitors] returns at its guard:
    neither touches the list.  It is the manual sync command that deletes:
    unless it reports an error, no record of the meeting is left, and
    against a list without faults it reports none. *)
Theorem C9_empty_set_is_cleared_by_manual_sync :
  (forall w d,
     Host.extractEventData (TaskpaneApp.config w) (TaskpaneApp.generated w)
                           (TaskpaneApp.item w) = Some d ->
     Host.externalUsers d = [] ->
     TaskpaneApp.handleRecipientsChanged w = (w, Ok tt)
     /\ forall changeType,
          TaskpaneApp.sharePoint (fst (TaskpaneApp.processVisitors (Some d) changeType w))
          = TaskpaneApp.sharePoint w)
  /\ (forall cw d,
        Commands.initialized cw = true ->
        Host.extractEventData (Commands.config cw) (Commands.generated cw)
                              (Commands.item cw) = Some d ->
        Host.externalUsers d = [] ->
        Forall transient (script (Commands.sharePoint cw)) ->
        exists msg,
          Commands.shown (fst (Commands.manualSync cw)) = Commands.shown cw ++ [msg]
          /\ (not_error msg ->
              meeting_records (Host.meetingId d)
                (Commands.sharePoint (fst (Commands.manualSync cw))) = [])
          /\ (script (Commands.sharePoint cw) = [] -> not_error msg)).
Proof.
  split.
  - intros w d Hd Hext. split.
    + unfold TaskpaneApp.handleRecipientsChanged, TaskpaneApp.handleChange,
        try_catch, bind, gets.
      rewrite Hd, Hext. reflexivity.
    + intros changeType.
      unfold TaskpaneApp.processVisitors, TaskpaneApp.processVisitors_enter.
      rewrite Hext. destruct (TaskpaneApp.isProcessing w); reflexivity.
  - exact manualSync_empty.
Qed.

Lemma C9_empty_set_is_cleared_by_manual_sync_witness :
  TaskpaneApp.handleRecipientsChanged (taskpane internal_only)
  = (taskpane internal_only, Ok tt)
  /\ exists msg,
       Commands.shown (fst (Commands.manualSync (commands internal_only))) = [msg]
       /\ not_error msg
       /\ meeting_records "m1"
            (Commands.sharePoint (fst (Commands.manualSync (commands internal_only)))) = [].
Proof.
  split.
  - exact (proj1 (proj1 C9_empty_set_is_cleared_by_manual_sync
                    (taskpane internal_only)
                    (snapshot_of internal_only) eq_refl eq_refl)).
  - destruct (proj2 C9_empty_set_is_cleared_by_manual_sync
                (commands internal_only) (snapshot_of internal_only)
                eq_refl eq_refl eq_refl (Forall_nil _)) as (msg & Hs & Hclear & Hok).
    exists msg. split; [exact Hs|]. split; [exact (Hok eq_refl)|].
    exact (Hclear (Hok eq_refl)).
Defined.

(** The command in action on the two records of scenario B. *)
Example manual_sync_deletes :
  let result := Commands.manualSync (commands internal_only) in
  Commands.shown (fst result) = [Commands.SyncDeleted 2]
  /\ items (Commands.sharePoint (fst result)) = []
  /\ requests (Commands.sharePoint (fst result))
     = [GetItems "m1"; GetItems "m1"; DeleteItem 1; DeleteItem 2].
Proof. vm_compute. repeat split; reflexivity. Qed.

(* ===================================================================== *)
(** * Events that arrive during a cycle                                  *)
(* ===================================================================== *)

(** C3, as stated, fails: an event that arrives while a cycle is running
    is turned away with the busy warning and nothing is kept of it, so
    when the cycle completes no further cycle starts: one cycle in all,
    with the first snapshot. *)
Lemma C3_no_rerun_after_completion :
  let s := Coordinator.run idle_pane
             [changed snapshot_1; changed snapshot_2; Coordinator.Completion] in
  Coordinator.started s = [snapshot_1]
  /\ Coordinator.inflight s = []
  /\ TaskpaneApp.isProcessing (Coordinator.app s) = false
  /\ In TaskpaneApp.MsgBusy (TaskpaneApp.messages (Coordinator.app s)).
Proof. vm_compute. repeat split; auto. Qed.

(** The early return of the busy guard runs the [finally] block too and
    clears [isProcessing] under the running cycle: the event after it
    starts a second cycle while the first is still suspended. *)
Example busy_guard_clears_flag :
  let s := Coordinator.run idle_pane
             [changed snapshot_1; changed snapshot_2; changed snapshot_3] in
  map fst (Coordinator.inflight s) = [snapshot_1; snapshot_3].
Proof. vm_compute. reflexivity. Qed.

(** C3 (amended): an event that arrives while [isProcessing] is set starts
    no cycle and leaves none pending: the suspended cycles are as before,
    the event is answered with the busy warning (when it carries external
    users), and the completion that follows starts no cycle either. *)
Theorem C3_event_while_running_is_dropped :
  forall s eventType eventData,
    TaskpaneApp.isProcessing (Coordinator.app s) = true ->
    let s1 := Coordinator.step s (Coordinator.OutlookEvent eventType eventData) in
    Coordinator.started s1 = Coordinator.started s
    /\ Coordinator.inflight s1 = Coordinator.inflight s
    /\ Coordinator.started (Coordinator.step s1 Coordinator.Completion)
       = Coordinator.started s
    /\ (forall d, eventData = Some d -> Host.externalUsers d <> [] ->
          TaskpaneApp.messages (Coordinator.app s1)
          = TaskpaneApp.messages (Coordinator.app s) ++ [TaskpaneApp.MsgBusy]).
Proof.
  intros s eventType eventData Hbusy. cbv zeta.
  assert (Hstep : Coordinator.started
                    (Coordinator.step s (Coordinator.OutlookEvent eventType eventData))
                  = Coordinator.started s
                  /\ Coordinator.inflight
                       (Coordinator.step s (Coordinator.OutlookEvent eventType eventData))
                     = Coordinator.inflight s).
  { unfold Coordinator.step.
    destruct eventData as [d|]; [|split; reflexivity].
    destruct (0 <? List.length (Host.externalUsers d))%nat; [|split; reflexivity].
    unfold TaskpaneApp.processVisitors_enter. rewrite Hbusy. split; reflexivity. }
  destruct Hstep as [Hst Hin].
  split; [exact Hst|]. split; [exact Hin|]. split.
  - rewrite <- Hst. unfold Coordinator.step at 1.
    destruct (Coordinator.inflight _) as [|[data changeType] rest]; reflexivity.
  - intros d -> Hne. unfold Coordinator.step.
    destruct (Host.externalUsers d) as [|u users] eqn:Hu; [contradiction|].
    cbn [List.length Nat.ltb Nat.leb].
    unfold TaskpaneApp.processVisitors_enter. rewrite Hbusy. reflexivity.
Qed.

Lemma C3_event_while_running_is_dropped_witness :
  let s := Coordinator.step idle_pane (changed snapshot_1) in
  TaskpaneApp.isProcessing (Coordinator.app s) = true
  /\ Coordinator.started (Coordinator.step s (changed snapshot_2)) = [snapshot_1]
  /\ Coordinator.started
       (Coordinator.step (Coordinator.step s (changed snapshot_2)) Coordinator.Completion)
     = [snapshot_1].
Proof.
  intros s.
  destruct (C3_event_while_running_is_dropped s recipients_changed (Some snapshot_2)
              eq_refl) as (H1 & _ & H3 & _).
  split; [reflexivity|]. split; [exact H1 | exact H3].
Defined.

(* ===================================================================== *)
(** * Further properties of the classification                           *)
(* ===================================================================== *)

Section ClassificationMore.

Lemma kept_Ok config a :
  kept config a = true ->
  keep_attendee (cfg_internalDomains config) (cfg_excludeRooms config) a = Ok true.
Proof.
  unfold kept.
  destruct (keep_attendee _ _ a) as [[|]|e]; intros H; try discriminate; reflexivity.
Qed.

Lemma filter_exc_all_kept {A} (p : A -> Exc bool) (l : list A) :
  Forall (fun x => p x = Ok true) l -> filter_exc p l = Ok l.
Proof.
  induction 1 as [|x l Hx _ IH]; simpl; [reflexivity|].
  now rewrite Hx, IH.
Qed.

Lemma filter_exc_raises {A} (p : A -> Exc bool) (l : list A) x e :
  In x l -> p x = Throw e -> exists e', filter_exc p l = Throw e'.
Proof.
  induction l as [|y l IH]; simpl; [intros []|].
  intros [->|Hin] Hx.
  - rewrite Hx. now exists e.
  - destruct (p y) as [b|e1]; [|now exists e1].
    destruct (IH Hin Hx) as [e' ->]. now exists e'.
Qed.

Lemma filter_exc_app {A} (p : A -> Exc bool) (l1 l2 r1 r2 : list A) :
  filter_exc p l1 = Ok r1 -> filter_exc p l2 = Ok r2 ->
  filter_exc p (l1 ++ l2) = Ok (r1 ++ r2).
Proof.
  revert r1. induction l1 as [|x l1 IH]; simpl; intros r1 H1 H2.
  - inversion H1; subst. exact H2.
  - destruct (p x) as [b|e]; [|discriminate].
    destruct (filter_exc p l1) as [r|e]; [|discriminate].
    inversion H1; subst. rewrite (IH r eq_refl H2). now destruct b.
Qed.

Lemma keep_attendee_string domains a s :
  emailAddress a = JStr s -> s <> "" ->
  keep_attendee domains true a
  = Ok (negb (isRoomEmail (toLowerCase s))
        && negb (existsb (fun domain =>
                            endsWith (toLowerCase s)
                                     (String.append "@" (toLowerCase domain)))
                         domains)).
Proof.
  intros Hs Hne. unfold keep_attendee. rewrite Hs. cbn [truthy].
  destruct (String.eqb_spec s ""); [contradiction|]. cbn [negb andb].
  destruct (isRoomEmail (toLowerCase s)); reflexivity.
Qed.

End ClassificationMore.

(** X1: whatever the configuration, no entry of the classification is a
    room-pattern address and none ends in [@domain] for a configured
    internal domain, letter case apart. *)
Theorem X1_output_is_external :
  forall config attendees a,
    In a (filterExternalUsers config attendees) ->
    exists s,
      emailAddress a = JStr s
      /\ isRoomEmail (toLowerCase s) = false
      /\ forall domain, In domain (cfg_internalDomains config) ->
           endsWith (toLowerCase s) (String.append "@" (toLowerCase domain)) = false.
Proof.
  intros config attendees a Ha.
  assert (Hk : kept config a = true).
  { destruct (filterExternalUsers_cases config attendees) as [H|H]; rewrite H in Ha.
    - now apply filter_In in Ha as [_ Ha].
    - destruct Ha. }
  destruct (kept_string config a Hk) as (s & Hs & Hne).
  exists s. split; [exact Hs|].
  unfold kept in Hk. rewrite cfg_excludeRooms_always in Hk.
  rewrite (keep_attendee_string _ a s Hs Hne) in Hk.
  apply andb_true_iff in Hk as [Hroom Hdom].
  apply negb_true_iff in Hroom. apply negb_true_iff in Hdom.
  split; [exact Hroom|].
  intros domain Hd.
  destruct (endsWith (toLowerCase s) (String.append "@" (toLowerCase domain))) eqn:E;
    [|reflexivity].
  exfalso.
  assert (Hex : existsb (fun d => endsWith (toLowerCase s)
                                   (String.append "@" (toLowerCase d)))
                        (cfg_internalDomains config) = true).
  { apply existsb_exists. now exists domain. }
  rewrite Hex in Hdom. discriminate.
Qed.

Lemma X1_output_is_external_witness :
  In (ext "a@ext.com" "A")
     (filterExternalUsers (cfg_of ["Internal.com"] None)
        [ext "conf-2@ext.com" "Room"; ext "B@INTERNAL.COM" "B"; ext "a@ext.com" "A"])
  /\ exists s, JStr "a@ext.com" = JStr s /\ isRoomEmail (toLowerCase s) = false.
Proof.
  assert (H : In (ext "a@ext.com" "A")
     (filterExternalUsers (cfg_of ["Internal.com"] None)
        [ext "conf-2@ext.com" "Room"; ext "B@INTERNAL.COM" "B"; ext "a@ext.com" "A"]))
    by (simpl; auto).
  split; [exact H|].
  destruct (X1_output_is_external _ _ _ H) as (s & Hs & Hroom & _).
  exists s. split; [exact Hs | exact Hroom].
Defined.

(** X2: classifying a classified list changes nothing. *)
Theorem X2_classification_is_idempotent :
  forall config attendees,
    filterExternalUsers config (filterExternalUsers config attendees)
    = filterExternalUsers config attendees.
Proof.
  intros config attendees.
  destruct (filterExternalUsers_cases config attendees) as [H|H]; rewrite H;
    [|reflexivity].
  unfold filterExternalUsers at 1, filterExternalUsers_try.
  rewrite filter_exc_all_kept; [reflexivity|].
  apply Forall_forall. intros a Ha. apply filter_In in Ha as [_ Ha].
  now apply kept_Ok.
Qed.

(** X3: one attendee whose address is a truthy value that is not a string
    makes the filter raise, and the whole classification comes out empty,
    whoever else attends. *)
Theorem X3_one_odd_address_empties_the_result :
  forall config attendees a,
    In a attendees ->
    truthy (emailAddress a) = true ->
    (forall s, emailAddress a <> JStr s) ->
    filterExternalUsers config attendees = [].
Proof.
  intros config attendees a Hin Ht Hns.
  assert (Hthrow : keep_attendee (cfg_internalDomains config) (cfg_excludeRooms config) a
                   = Throw TypeError).
  { unfold keep_attendee. rewrite Ht. simpl.
    destruct (emailAddress a) as [| |b|z|s]; try reflexivity.
    exfalso. now apply (Hns s). }
  destruct (filter_exc_raises _ attendees a TypeError Hin Hthrow) as [e He].
  unfold filterExternalUsers, filterExternalUsers_try. now rewrite He.
Qed.

Lemma X3_one_odd_address_empties_the_result_witness :
  filterExternalUsers (cfg_of ["internal.com"] None)
    [ext "a@ext.com" "A"; odd_address; ext "d@ext.com" "D"] = [].
Proof.
  refine (X3_one_odd_address_empties_the_result _ _ odd_address _ eq_refl _).
  - simpl; auto.
  - intros s; discriminate.
Defined.

(** X4: when neither list makes the filter raise, classifying required
    and optional attendees together gives the classification of the one
    followed by that of the other. *)
Theorem X4_classification_of_concatenation :
  forall config required optional r1 r2,
    filterExternalUsers_try config required = Ok r1 ->
    filterExternalUsers_try config optional = Ok r2 ->
    filterExternalUsers config (required ++ optional)
    = filterExternalUsers config required ++ filterExternalUsers config optional.
Proof.
  intros config required optional r1 r2 H1 H2.
  unfold filterExternalUsers. rewrite H1, H2.
  unfold filterExternalUsers_try in *.
  now rewrite (filter_exc_app _ _ _ _ _ H1 H2).
Qed.

Lemma X4_classification_of_concatenation_witness :
  filterExternalUsers (cfg_of ["internal.com"] None)
    ([ext "a@ext.com" "A"; ext "b@internal.com" "B"] ++ [ext "d@ext.com" "D"])
  = [ext "a@ext.com" "A"] ++ [ext "d@ext.com" "D"].
Proof.
  exact (X4_classification_of_concatenation (cfg_of ["internal.com"] None)
           [ext "a@ext.com" "A"; ext "b@internal.com" "B"] [ext "d@ext.com" "D"]
           _ _ eq_refl eq_refl).
Defined.

(* ===================================================================== *)
(** * What a retried store operation costs                                *)
(* ===================================================================== *)

Section RetryCost.

Lemma total_delay_app ds d : total_delay (ds ++ [d]) = (total_delay ds + d)%Z.
Proof. induction ds as [|x ds IH]; simpl; lia. Qed.

Lemma fetch_one_request rq w :
  List.length (requests (fst (fetch rq w))) = S (List.length (requests w))
  /\ now (fst (fetch rq w)) = now w.
Proof.
  unfold fetch.
  destruct (script w) as [|[[|s]|] rest]; simpl;
    try (rewrite length_app; simpl; split; [lia|reflexivity]);
    destruct rq as [m|c|d|i]; simpl;
    try destruct (existsb (has_id i) (items w)); simpl;
    rewrite length_app; simpl; split; try lia; reflexivity.
Qed.

Lemma delete_one_request itemId : one_request (deleteListItem_operation itemId).
Proof.
  intros w. unfold deleteListItem_operation, bind.
  pose proof (fetch_one_request (DeleteItem itemId) w) as H.
  destruct (fetch (DeleteItem itemId) w) as [w1 [r|e]]; simpl in *; [|exact H].
  destruct (negb (ok r) && negb (Nat.eqb (status r) 404)); exact H.
Qed.

Lemma create_one_request itemData : one_request (createListItem_operation itemData).
Proof.
  intros w. unfold createListItem_operation, bind.
  pose proof (fetch_one_request (PostItem itemData) w) as H.
  destruct (fetch (PostItem itemData) w) as [w1 [r|e]]; simpl in *; [|exact H].
  destruct (negb (ok r)); [exact H|]. destruct (body r); exact H.
Qed.

Lemma get_one_request meetingId : one_request (getVisitorRecords_operation meetingId).
Proof.
  intros w. unfold getVisitorRecords_operation, bind.
  pose proof (fetch_one_request (GetItems meetingId) w) as H.
  destruct (fetch (GetItems meetingId) w) as [w1 [r|e]]; simpl in *; [|exact H].
  destruct (negb (ok r)); [exact H|]. destruct (body r); exact H.
Qed.

(** A retried one-request operation issues between one and four requests
    and moves the clock by the delays it slept, at most seven seconds. *)
Lemma retry_cost {A} (op : M World A) (w : World) :
  one_request op ->
  let w' := fst (executeWithRetry op 0 w) in
  S (List.length (requests w)) <= List.length (requests w')
  /\ List.length (requests w') <= List.length (requests w) + 4
  /\ (now w <= now w' <= now w + 7000)%Z.
Proof.
  intros Hone. cbv zeta.
  set (I := fun r : Recorded World =>
              List.length (requests (inner r))
              = List.length (requests w) + attempts r
              /\ now (inner r) = (now w + total_delay (delays r))%Z).
  destruct (executeWithRetry_last (rec_sleep sleep) retryConfig (rec_op op) I)
    with (retryCount := 0) (w := rec_start w) as (r0 & HI0 & E0).
  - intros d r [Hr Hn]. unfold I; simpl. split; [exact Hr|].
    rewrite total_delay_app, Hn. lia.
  - intros r r' e [Hr Hn] E. unfold rec_op in E.
    destruct (Hone (inner r)) as [H1 H2].
    destruct (op (inner r)) as [v x]. inversion E; subst. simpl in *.
    unfold I; simpl. split; [lia|congruence].
  - unfold I; simpl; split; lia.
  - destruct (retry_contract_of sleep retryConfig 1000 eq_refl eq_refl A op w)
      as (Hrun & Hatt & Hd & _).
    cbv zeta in Hrun, Hatt, Hd.
    set (result := Retry.executeWithRetry (rec_sleep sleep) retryConfig (rec_op op) 0
                     (rec_start w)) in *.
    assert (Hw : fst (executeWithRetry op 0 w) = inner (fst result)).
    { unfold executeWithRetry. pose proof (f_equal fst Hrun) as Hf.
      cbn [fst] in Hf. symmetry. exact Hf. }
    rewrite Hw.
    assert (HI : I (fst result)).
    { rewrite <- E0. destruct HI0 as [Hr Hn]. unfold rec_op.
      destruct (Hone (inner r0)) as [H1 H2].
      destruct (op (inner r0)) as [v x]. simpl in *.
      unfold I; simpl. split; [lia|congruence]. }
    destruct HI as [Hr Hn]. rewrite Hr, Hn, Hd.
    simpl in Hatt.
    assert (Hcases : attempts (fst result) = 1 \/ attempts (fst result) = 2
                     \/ attempts (fst result) = 3 \/ attempts (fst result) = 4) by lia.
    destruct Hcases as [H|[H|[H|H]]]; rewrite H; simpl; lia.
Qed.

End RetryCost.

(** X5: each retried call of the store client (read, create, delete)
    makes at most four attempts on the list, so that at most four of its
    requests reach the list, and keeps the caller waiting for backoff no
    more than 7000 ms in all.  The log counts an attempt as a request on
    the list even when the attempt failed before its [fetch]; acquiring
    the token and the digest is not a request on the list. *)
Theorem X5_store_call_cost :
  forall (meetingId : string) (itemData : ItemData) (itemId : nat) (w : World),
    let bounded := fun w' : World =>
      List.length (requests w') <= List.length (requests w) + 4
      /\ (now w <= now w' <= now w + 7000)%Z in
    bounded (fst (getVisitorRecordsByMeetingId meetingId w))
    /\ bounded (fst (createListItem itemData w))
    /\ bounded (fst (deleteListItem itemId w)).
Proof.
  intros meetingId itemData itemId w. cbv zeta.
  split; [|split].
  - exact (proj2 (retry_cost _ w (get_one_request meetingId))).
  - exact (proj2 (retry_cost _ w (create_one_request itemData))).
  - exact (proj2 (retry_cost _ w (delete_one_request itemId))).
Qed.

(* ===================================================================== *)
(** * Partial passes and other meetings                                  *)
(* ===================================================================== *)

Section PartialPass.

(** The creation loop, whatever its outcome: the records of the first [k]
    users are in the list; [k] is all of them exactly when it succeeds. *)
Lemma create_loop_outcome meetingId meetingTitle startTime endTime
      (users : list Attendee) :
  forall acc L N w w' r,
    list_is L N w ->
    for_push users
      (fun user =>
         record <- make_record meetingId meetingTitle user startTime endTime ;;
         createListItem record) acc w = (w', r) ->
    exists k news,
      list_is (L ++ news) (N + List.length news) w'
      /\ map visitor_email news = map emailAddress (firstn k users)
      /\ Forall (fun i => MeetingId (data i) = meetingId) news
      /\ match r with
         | Ok recs => k = List.length users /\ recs = acc ++ news
         | Throw _ => k < List.length users
         end.
Proof.
  induction users as [|u users IH]; intros acc L N w w' r HI; simpl.
  - unfold ret. intros E; inversion E; subst. exists 0, [].
    rewrite !app_nil_r, Nat.add_0_r. repeat split; auto; apply HI.
  - unfold bind at 1. unfold bind at 1. rewrite make_record_spec.
    destruct (visitorName u) as [v|e] eqn:Ev.
    + destruct (createListItem _ w) as [w1 [i|e]] eqn:E1;
        pose proof (createListItem_transient _ _ _ _ _ _ HI E1) as H1.
      * destruct H1 as [Hi H1]. intros E.
        destruct (IH _ _ _ _ _ _ H1 E) as (k & news & HI' & Hm & Hf & Hr).
        exists (S k), (i :: news).
        split; [|split; [|split]].
        -- rewrite <- app_assoc in HI'. simpl in HI'. simpl.
           now rewrite Nat.add_succ_r.
        -- simpl. rewrite Hm. f_equal. subst i. reflexivity.
        -- constructor; [|assumption]. subst i. reflexivity.
        -- destruct r as [recs|e'].
           ++ destruct Hr as [Hk Hrecs]. split; [now rewrite Hk|].
              rewrite Hrecs, <- app_assoc. reflexivity.
           ++ lia.
      * intros E; inversion E; subst. exists 0, [].
        rewrite app_nil_r, Nat.add_0_r. repeat split; auto; try apply H1. lia.
    + intros E; inversion E; subst. exists 0, [].
      rewrite app_nil_r, Nat.add_0_r. repeat split; auto; try apply HI. lia.
Qed.

(** The removal loop, whatever its outcome. *)
Lemma delete_loop_outcome (records : list ListItem) :
  forall L N w w' r,
    list_is L N w ->
    for_of records (fun record => deleteListItem (Id record) ;;; ret tt) w = (w', r) ->
    exists k,
      k <= List.length records
      /\ list_is (remove_ids (map Id (firstn k records)) L) N w'
      /\ (forall u, r = Ok u -> k = List.length records).
Proof.
  induction records as [|x records IH]; intros L N w w' r HI; simpl.
  - unfold ret. intros E; inversion E; subst. exists 0. simpl. auto.
  - unfold bind at 1. unfold bind at 1.
    destruct (deleteListItem (Id x) w) as [w1 [b|e]] eqn:E1;
      pose proof (deleteListItem_transient (Id x) _ _ _ _ _ HI E1) as H1.
    + unfold ret at 1. intros E.
      destruct (IH _ _ _ _ _ H1 E) as (k & Hk & HI' & Hr).
      exists (S k). simpl. split; [lia|]. split; [exact HI'|].
      intros u Hu. now rewrite (Hr u Hu).
    + intros E; inversion E; subst. exists 0. simpl.
      split; [lia|]. split; [exact H1|]. discriminate.
Qed.

Lemma same_id_same_item (L : list ListItem) i j :
  NoDup (map Id L) -> In i L -> In j L -> Id i = Id j -> i = j.
Proof.
  induction L as [|x L IH]; simpl; [intros _ []|].
  intros Hnd Hi Hj Hid. apply NoDup_cons_iff in Hnd as [Hx Hnd].
  destruct Hi as [->|Hi], Hj as [->|Hj]; auto.
  - exfalso. apply Hx. rewrite Hid. now apply in_map.
  - exfalso. apply Hx. rewrite <- Hid. now apply in_map.
Qed.

(** Removing Ids that belong to one meeting leaves the records of any
    other meeting in place. *)
Lemma remove_ids_other meetingId other ids :
  other <> meetingId ->
  forall L : list ListItem,
    (forall i, In i L -> In (Id i) ids -> MeetingId (data i) = meetingId) ->
    filter (is_meeting other) (remove_ids ids L) = filter (is_meeting other) L.
Proof.
  intros Hne. induction ids as [|a ids IH]; intros L Hown; simpl; [reflexivity|].
  rewrite IH.
  - clear IH. induction L as [|x L IHL]; simpl; [reflexivity|].
    assert (Hrest : forall i, In i L -> In (Id i) (a :: ids) ->
                              MeetingId (data i) = meetingId)
      by (intros i Hi; apply Hown; now right).
    destruct (has_id a x) eqn:Ha; simpl.
    + assert (Hm : MeetingId (data x) = meetingId).
      { apply Hown; [now left|]. left. unfold has_id in Ha.
        apply Nat.eqb_eq in Ha. now symmetry. }
      unfold is_meeting at 2. rewrite Hm.
      assert (Hf : String.eqb meetingId other = false).
      { apply String.eqb_neq. congruence. }
      rewrite Hf. now apply IHL.
    + destruct (is_meeting other x); [f_equal|]; now apply IHL.
  - intros i Hi Hin. apply filter_In in Hi as [Hi _]. apply Hown; [exact Hi|now right].
Qed.

Lemma in_firstn_in {A} (l : list A) k x : In x (firstn k l) -> In x l.
Proof.
  revert k. induction l as [|y l IH]; intros [|k]; simpl; try tauto.
  intros [Hx|H]; [now left|right; eauto].
Qed.

Lemma meeting_ids_own meetingId (L : list ListItem) k :
  NoDup (map Id L) ->
  forall i, In i L ->
    In (Id i) (map Id (firstn k (filter (is_meeting meetingId) L))) ->
    MeetingId (data i) = meetingId.
Proof.
  intros Hnd i Hi Hin. apply in_map_iff in Hin as (j & Hid & Hj).
  apply in_firstn_in in Hj. apply filter_In in Hj as [Hj Hm].
  rewrite (same_id_same_item L i j Hnd Hi Hj (eq_sym Hid)).
  unfold is_meeting in Hm. now apply String.eqb_eq in Hm.
Qed.

(** What [updateVisitorRecords] leaves behind, whatever its outcome: the
    list without the first [k] records it read, followed by the records
    of the first [j] users. *)
Lemma updateVisitorRecords_outcome meetingId meetingTitle users startTime endTime
      w w' r :
  Forall transient (script w) ->
  updateVisitorRecords meetingId meetingTitle users startTime endTime w = (w', r) ->
  exists k j news,
    items w' = remove_ids (map Id (firstn k (meeting_records meetingId w))) (items w)
               ++ news
    /\ Forall (fun i => MeetingId (data i) = meetingId) news
    /\ map visitor_email news = map emailAddress (firstn j users)
    /\ Forall transient (script w').
Proof.
  intros HS. unfold updateVisitorRecords. rewrite try_catch_rethrow.
  unfold bind at 1.
  assert (HI : list_is (items w) (nextId w) w) by (repeat split; auto).
  destruct (getVisitorRecordsByMeetingId meetingId w) as [w1 [existing|e]] eqn:E1;
    destruct (getVisitorRecords_transient meetingId _ _ _ _ _ HI E1) as [HI1 Hex].
  - subst existing. unfold bind at 1.
    destruct (for_of _ _ w1) as [w2 x] eqn:E2.
    destruct (delete_loop_outcome _ _ _ _ _ _ HI1 E2) as (k & Hk & HI2 & Hall).
    destruct x as [[]|e].
    + destruct (0 <? List.length users)%nat.
      * unfold createVisitorRecord. rewrite try_catch_rethrow. intros E3.
        destruct (create_loop_outcome _ _ _ _ users [] _ _ _ _ _ HI2 E3)
          as (j & news & HI3 & Hm & Hf & _).
        exists k, j, news. destruct HI3 as (Hitems & _ & Hs). auto.
      * unfold ret. intros E3; inversion E3; subst.
        exists k, 0, []. destruct HI2 as (Hitems & _ & Hs).
        rewrite app_nil_r. auto.
    + intros E3; inversion E3; subst.
      exists k, 0, []. destruct HI2 as (Hitems & _ & Hs).
      rewrite app_nil_r. auto.
  - intros E3; inversion E3; subst.
    exists 0, 0, []. destruct HI1 as (Hitems & _ & Hs). simpl.
    rewrite app_nil_r. auto.
Qed.

Lemma filter_none {A} (p : A -> bool) (l : list A) :
  Forall (fun x => p x = false) l -> filter p l = [].
Proof.
  induction 1 as [|x l Hx _ IH]; simpl; [reflexivity|]. now rewrite Hx.
Qed.

End PartialPass.

(** A loop that raises stopped at one element: the elements before it
    were all processed, and that element's body raised. *)
Lemma for_push_stops {W A B} (body : A -> M W B) (xs : list A) :
  forall acc w w' e,
    for_push xs body acc w = (w', Throw e) ->
    exists pre x post w1 bs,
      xs = pre ++ x :: post
      /\ for_push pre body acc w = (w1, Ok (acc ++ bs))
      /\ body x w1 = (w', Throw e).
Proof.
  induction xs as [|a xs IH]; intros acc w w' e H; simpl in H.
  - discriminate.
  - unfold bind in H. destruct (body a w) as [w1 [b|e1]] eqn:E1.
    + destruct (IH _ _ _ _ H) as (pre & x & post & w2 & bs & Hxs & Hpre & Hx).
      exists (a :: pre), x, post, w2, (b :: bs). split; [now rewrite Hxs|].
      split; [|exact Hx].
      cbn [for_push]. unfold bind. rewrite E1, Hpre, <- app_assoc. reflexivity.
    + inversion H; subst. exists [], a, xs, w, [].
      split; [reflexivity|]. split; [|exact E1].
      simpl. unfold ret. now rewrite app_nil_r.
Qed.

(** X6: [createVisitorRecord] does not roll back.  When it raises there
    is a user at whom it stopped: the call for the users before that one
    alone succeeds and leaves their records in the list, in order; the
    call for that user alone, made then, raises the same error and
    creates nothing; and the list is left with exactly the records of
    the users before, none being taken back and none created for the
    users after. *)
Theorem X6_creation_stops_at_first_failure :
  forall meetingId meetingTitle users startTime endTime w w' e,
    Forall transient (script w) ->
    createVisitorRecord meetingId meetingTitle users startTime endTime w
    = (w', Throw e) ->
    exists pre u post w1 news,
      users = pre ++ u :: post
      /\ createVisitorRecord meetingId meetingTitle pre startTime endTime w
         = (w1, Ok news)
      /\ createVisitorRecord meetingId meetingTitle [u] startTime endTime w1
         = (w', Throw e)
      /\ items w1 = items w ++ news
      /\ map visitor_email news = map emailAddress pre
      /\ items w' = items w ++ news.
Proof.
  intros meetingId meetingTitle users startTime endTime w w' e HS.
  unfold createVisitorRecord. rewrite !try_catch_rethrow. intros E.
  destruct (for_push_stops _ users [] w w' e E)
    as (pre & u & post & w1 & bs & Hsplit & Epre & Eu).
  assert (HI : list_is (items w) (nextId w) w) by (repeat split; auto).
  destruct (create_loop_outcome _ _ _ _ pre [] _ _ _ _ _ HI Epre)
    as (k & news & HI1 & Hm & _ & Hk & Hrecs).
  cbn [app] in Hrecs. subst bs k. rewrite firstn_all in Hm.
  assert (Eone : for_push [u]
                   (fun user =>
                      record <- make_record meetingId meetingTitle user
                                  startTime endTime ;;
                      createListItem record) [] w1 = (w', Throw e)).
  { cbn [for_push]. unfold bind at 1. rewrite Eu. reflexivity. }
  destruct (create_loop_outcome _ _ _ _ [u] [] _ _ _ _ _ HI1 Eone)
    as (k2 & news2 & HI2 & Hm2 & _ & Hk2).
  assert (Hz : k2 = 0) by (simpl in Hk2; lia). subst k2.
  cbn [firstn map] in Hm2. apply map_eq_nil in Hm2. subst news2.
  rewrite app_nil_r in HI2.
  exists pre, u, post, w1, news.
  split; [exact Hsplit|].
  split; [rewrite try_catch_rethrow; exact Epre|].
  split; [rewrite try_catch_rethrow; exact Eone|].
  split; [apply HI1|]. split; [exact Hm|apply HI2].
Qed.

Lemma X6_creation_stops_at_first_failure_witness :
  let w := store [] 1 [None; Some (Respond 500); Some (Respond 500);
                       Some (Respond 500); Some (Respond 500)] in
  let run := createVisitorRecord "m1" "Review" three_users None None w in
  Forall transient (script w)
  /\ exists pre u post,
       three_users = pre ++ u :: post
       /\ pre = [ext "a@ext.com" "A"]
       /\ snd run = Throw (HttpError 500)
       /\ map visitor_email (items (fst run)) = map emailAddress pre.
Proof.
  intros w run.
  assert (HS : Forall transient (script w)).
  { repeat constructor; simpl; auto; discriminate. }
  split; [exact HS|].
  assert (E : createVisitorRecord "m1" "Review" three_users None None w
              = (fst run, Throw (HttpError 500))) by (vm_compute; reflexivity).
  destruct (X6_creation_stops_at_first_failure _ _ _ _ _ _ _ _ HS E)
    as (pre & u & post & w1 & news & Hsplit & Epre & Eu & _ & Hm & Hitems).
  exists pre, u, post. split; [exact Hsplit|].
  assert (Hpre : pre = [ext "a@ext.com" "A"]).
  { unfold three_users in Hsplit.
    destruct pre as [|p1 [|p2 [|p3 pre]]]; cbn [app] in Hsplit.
    - injection Hsplit as <- _. vm_compute in Epre. injection Epre as <- _.
      vm_compute in Eu. discriminate Eu.
    - injection Hsplit as <- _. reflexivity.
    - injection Hsplit as <- <- _. vm_compute in Epre. discriminate Epre.
    - injection Hsplit as <- <- <- Hrest.
      destruct pre; discriminate Hrest. }
  split; [exact Hpre|]. split; [reflexivity|].
  rewrite Hitems, map_app, Hm. reflexivity.
Defined.

(** X7: a pass for one meeting, whether it succeeds or fails midway,
    leaves the records of every other meeting as they were (the list
    giving each item its own Id). *)
Theorem X7_pass_leaves_other_meetings :
  forall meetingId meetingTitle users startTime endTime w w' r other,
    Forall transient (script w) ->
    NoDup (map Id (items w)) ->
    other <> meetingId ->
    updateVisitorRecords meetingId meetingTitle users startTime endTime w = (w', r) ->
    meeting_records other w' = meeting_records other w.
Proof.
  intros meetingId meetingTitle users startTime endTime w w' r other HS Hnd Hne E.
  destruct (updateVisitorRecords_outcome _ _ _ _ _ _ _ _ HS E)
    as (k & j & news & Hitems & Hf & _ & _).
  unfold meeting_records at 1. rewrite Hitems, filter_app.
  rewrite (remove_ids_other meetingId other _ Hne).
  - rewrite (filter_none (is_meeting other) news); [apply app_nil_r|].
    eapply Forall_impl; [|exact Hf]. intros i Hi. unfold is_meeting. rewrite Hi.
    apply String.eqb_neq. congruence.
  - apply meeting_ids_own. exact Hnd.
Qed.

Lemma X7_pass_leaves_other_meetings_witness :
  let w := store [visitor 1 "m1" "a@ext.com" Scheduled; visitor 2 "m2" "c@ext.com" Scheduled;
                  visitor 3 "m1" "c@ext.com" Scheduled] 4
                 [None; None; Some Reject; Some Reject; Some Reject; Some Reject] in
  Forall transient (script w)
  /\ meeting_records "m2"
       (fst (updateVisitorRecords "m1" "Review" scenario_B_wanted None None w))
     = [visitor 2 "m2" "c@ext.com" Scheduled].
Proof.
  intros w.
  assert (HS : Forall transient (script w)) by (repeat constructor).
  split; [exact HS|].
  destruct (updateVisitorRecords "m1" "Review" scenario_B_wanted None None w)
    as [w' r] eqn:E.
  refine (X7_pass_leaves_other_meetings _ _ _ _ _ w w' r "m2" HS _ _ E).
  - simpl. repeat constructor; simpl; intuition discriminate.
  - discriminate.
Defined.

(** X8: a pass run twice with the same users ends with the same
    addresses on record for the meeting as a pass run once. *)
Theorem X8_repeated_pass_same_addresses :
  forall meetingId meetingTitle users startTime endTime w w1 w2 r1 r2,
    Forall transient (script w) ->
    updateVisitorRecords meetingId meetingTitle users startTime endTime w
    = (w1, Ok r1) ->
    updateVisitorRecords meetingId meetingTitle users startTime endTime w1
    = (w2, Ok r2) ->
    map visitor_email (meeting_records meetingId w2)
    = map visitor_email (meeting_records meetingId w1).
Proof.
  intros meetingId meetingTitle users startTime endTime w w1 w2 r1 r2 HS E1 E2.
  destruct (updateVisitorRecords_outcome _ _ _ _ _ _ _ _ HS E1)
    as (_ & _ & _ & _ & _ & _ & HS1).
  destruct (updateVisitorRecords_converges _ _ _ _ _ _ _ _ HS E1) as (H1 & _ & M1).
  destruct (updateVisitorRecords_converges _ _ _ _ _ _ _ _ HS1 E2) as (H2 & _ & M2).
  now rewrite H1, H2, M1, M2.
Qed.

Lemma X8_repeated_pass_same_addresses_witness :
  let pass := updateVisitorRecords "m1" "Review" scenario_B_wanted None None in
  map visitor_email (meeting_records "m1" (fst (pass (fst (pass scenario_B_store)))))
  = map visitor_email (meeting_records "m1" (fst (pass scenario_B_store))).
Proof.
  intros pass.
  destruct (pass scenario_B_store) as [w1 r1] eqn:E1. cbn [fst].
  destruct (pass w1) as [w2 r2] eqn:E2. cbn [fst].
  assert (R1 : exists recs, r1 = Ok recs).
  { assert (H : snd (pass scenario_B_store) = r1) by now rewrite E1.
    vm_compute in H. rewrite <- H. eexists; reflexivity. }
  destruct R1 as [recs1 ->].
  assert (R2 : exists recs, r2 = Ok recs).
  { assert (H : snd (pass (fst (pass scenario_B_store))) = r2)
      by now rewrite E1; cbn [fst]; rewrite E2.
    vm_compute in H. rewrite <- H. eexists; reflexivity. }
  destruct R2 as [recs2 ->].
  exact (X8_repeated_pass_same_addresses "m1" "Review" scenario_B_wanted None None
           scenario_B_store w1 w2 recs1 recs2 (Forall_nil _) E1 E2).
Defined.

Section ClearAndSync.

Lemma deleteVisitorRecords_outcome meetingId w w' r :
  Forall transient (script w) ->
  deleteVisitorRecords meetingId w = (w', r) ->
  exists k,
    items w' = remove_ids (map Id (firstn k (meeting_records meetingId w))) (items w)
    /\ (forall n, r = Ok n ->
          n = List.length (meeting_records meetingId w)
          /\ k = List.length (meeting_records meetingId w)).
Proof.
  intros HS. unfold deleteVisitorRecords. rewrite try_catch_rethrow.
  unfold bind at 1.
  assert (HI : list_is (items w) (nextId w) w) by (repeat split; auto).
  destruct (getVisitorRecordsByMeetingId meetingId w) as [w1 [existing|e]] eqn:E1;
    destruct (getVisitorRecords_transient meetingId _ _ _ _ _ HI E1) as [HI1 Hex].
  - subst existing. unfold bind at 1.
    destruct (for_of _ _ w1) as [w2 x] eqn:E2.
    destruct (delete_loop_outcome _ _ _ _ _ _ HI1 E2) as (k & Hk & HI2 & Hall).
    destruct x as [[]|e].
    + unfold ret. intros E3; inversion E3; subst.
      exists k. split; [apply HI2|].
      intros n Hn. inversion Hn; subst. split; [reflexivity|].
      exact (Hall tt eq_refl).
    + intros E3; inversion E3; subst. exists k. split; [apply HI2|discriminate].
  - intros E3; inversion E3; subst. exists 0. split; [apply HI1|discriminate].
Qed.

Lemma updateVisitorRecords_served meetingId meetingTitle users startTime endTime w :
  script w = [] ->
  Forall (fun a => exists s, emailAddress a = JStr s /\ s <> "") users ->
  exists w' recs,
    updateVisitorRecords meetingId meetingTitle users startTime endTime w = (w', Ok recs).
Proof.
  intros HS Hu.
  destruct (getVisitorRecords_served meetingId w HS) as (w1 & E1 & H1).
  destruct (delete_loop_served (meeting_records meetingId w) w1 (proj1 H1))
    as (w2 & E2 & H2).
  unfold updateVisitorRecords.
  destruct (0 <? List.length users)%nat eqn:Hlen.
  - destruct (create_loop_served meetingId meetingTitle startTime endTime users Hu
                [] w2 (proj1 H2)) as (w3 & recs & E3 & _).
    exists w3, recs.
    rewrite try_catch_rethrow. unfold bind at 1. rewrite E1.
    unfold bind at 1. rewrite E2.
    unfold createVisitorRecord. rewrite try_catch_rethrow. exact E3.
  - exists w2, [].
    rewrite try_catch_rethrow. unfold bind at 1. rewrite E1.
    unfold bind at 1. rewrite E2. reflexivity.
Qed.

End ClearAndSync.

(** X9: [deleteVisitorRecords], when it succeeds, returns the number of
    records it read for the meeting and leaves none of them; succeeding or
    not, it leaves the records of every other meeting as they were. *)
Theorem X9_delete_clears_one_meeting :
  forall meetingId other w w' r,
    Forall transient (script w) ->
    NoDup (map Id (items w)) ->
    deleteVisitorRecords meetingId w = (w', r) ->
    (forall n, r = Ok n ->
       n = List.length (meeting_records meetingId w)
       /\ meeting_records meetingId w' = [])
    /\ (other <> meetingId -> meeting_records other w' = meeting_records other w).
Proof.
  intros meetingId other w w' r HS Hnd E.
  destruct (deleteVisitorRecords_outcome _ _ _ _ HS E) as (k & Hitems & Hok).
  split.
  - intros n Hn. destruct (Hok n Hn) as [Hlen Hk]. split; [exact Hlen|].
    unfold meeting_records at 1. rewrite Hitems, Hk, firstn_all.
    apply remove_ids_meeting.
  - intros Hne. unfold meeting_records at 1. rewrite Hitems.
    apply (remove_ids_other meetingId other _ Hne).
    apply meeting_ids_own. exact Hnd.
Qed.

Lemma X9_delete_clears_one_meeting_witness :
  let w := store [visitor 1 "m1" "a@ext.com" Scheduled; visitor 2 "m2" "c@ext.com" Scheduled;
                  visitor 3 "m1" "c@ext.com" Completed] 4 [Some (Respond 503)] in
  Forall transient (script w)
  /\ snd (deleteVisitorRecords "m1" w) = Ok 2
  /\ meeting_records "m1" (fst (deleteVisitorRecords "m1" w)) = []
  /\ meeting_records "m2" (fst (deleteVisitorRecords "m1" w))
     = [visitor 2 "m2" "c@ext.com" Scheduled].
Proof.
  intros w.
  assert (HS : Forall transient (script w)).
  { repeat constructor; simpl; auto; discriminate. }
  assert (Hnd : NoDup (map Id (items w))).
  { simpl. repeat constructor; simpl; intuition discriminate. }
  split; [exact HS|].
  destruct (deleteVisitorRecords "m1" w) as [w' r] eqn:E.
  assert (Er : r = Ok 2).
  { assert (H : snd (deleteVisitorRecords "m1" w) = r) by now rewrite E.
    vm_compute in H. now symmetry. }
  destruct (X9_delete_clears_one_meeting "m1" "m2" w w' r HS Hnd E) as [Hok Hother].
  split; [exact Er|]. split.
  - exact (proj2 (Hok 2 Er)).
  - apply Hother. discriminate.
Defined.

(** X10: [manualSync] on a meeting that has external users: unless it
    shows an error, it shows the number of users synchronised and the
    addresses on record for the meeting are those of the users, in order;
    against a list without faults it shows no error. *)
Theorem X10_manual_sync_converges :
  forall cw d,
    Commands.initialized cw = true ->
    Host.extractEventData (Commands.config cw) (Commands.generated cw) (Commands.item cw)
      = Some d ->
    Host.externalUsers d <> [] ->
    Forall transient (script (Commands.sharePoint cw)) ->
    exists msg,
      Commands.shown (fst (Commands.manualSync cw)) = Commands.shown cw ++ [msg]
      /\ (not_error msg ->
          msg = Commands.SyncUpdated (List.length (Host.externalUsers d))
          /\ map visitor_email
               (meeting_records (Host.meetingId d)
                  (Commands.sharePoint (fst (Commands.manualSync cw))))
             = map emailAddress (Host.externalUsers d))
      /\ (script (Commands.sharePoint cw) = [] -> not_error msg).
Proof.
  intros cw d Hinit Hd Hext HS.
  assert (Hstr : Forall (fun a => exists s, emailAddress a = JStr s /\ s <> "")
                        (Host.externalUsers d)).
  { unfold Host.extractEventData in Hd.
    destruct (Commands.item cw) as [it|]; [|discriminate].
    destruct (negb (Host.isAppointment it)); [discriminate|].
    inversion Hd; subst; simpl. apply filterExternalUsers_strings. }
  destruct (Commands.manualSync cw) as [cw' r] eqn:E. cbn [fst].
  unfold Commands.manualSync, try_catch in E.
  unfold bind at 1 in E. unfold gets at 1 in E. rewrite Hinit in E. cbn [negb] in E.
  unfold bind at 1 in E. unfold gets at 1 in E. rewrite Hd in E.
  unfold bind at 1 in E. unfold Commands.onSharePoint at 1 in E.
  assert (HI : list_is (items (Commands.sharePoint cw)) (nextId (Commands.sharePoint cw))
                       (Commands.sharePoint cw)) by (repeat split; auto).
  assert (Hlen : (0 <? List.length (Host.externalUsers d))%nat = true).
  { destruct (Host.externalUsers d); [contradiction|reflexivity]. }
  rewrite Hlen in E.
  destruct (getVisitorRecordsByMeetingId (Host.meetingId d) (Commands.sharePoint cw))
    as [s1 [existing|e]] eqn:E1.
  - destruct (getVisitorRecords_transient _ _ _ _ _ _ HI E1) as [HI1 _].
    unfold bind at 1 in E. unfold bind at 1 in E.
    unfold Commands.onSharePoint at 1 in E.
    cbn [Commands.sharePoint Commands.set_sharePoint] in E.
    destruct (updateVisitorRecords (Host.meetingId d) (Host.subject d)
                (Host.externalUsers d) (Host.startTime d) (Host.endTime d) s1)
      as [s2 [recs|e]] eqn:E2.
    + unfold ret at 1, modify in E. inversion E; subst; clear E. simpl.
      exists (Commands.SyncUpdated (List.length (Host.externalUsers d))).
      split; [reflexivity|]. split; [|intros _; exact I].
      intros _. split; [reflexivity|].
      destruct (updateVisitorRecords_converges _ _ _ _ _ _ _ _ (proj2 (proj2 HI1)) E2)
        as (Hrecs & _ & Hm).
      now rewrite Hrecs.
    + unfold modify in E. inversion E; subst; clear E. simpl.
      exists (Commands.SyncError e).
      split; [reflexivity|]. split; [intros []|].
      intros Hff.
      destruct (getVisitorRecords_served (Host.meetingId d) _ Hff) as (s1' & E1' & H1').
      rewrite E1 in E1'. inversion E1'; subst s1'.
      destruct (updateVisitorRecords_served (Host.meetingId d) (Host.subject d)
                  (Host.externalUsers d) (Host.startTime d) (Host.endTime d) s1
                  (proj1 H1') Hstr) as (s2' & recs' & E2').
      rewrite E2 in E2'. discriminate.
  - unfold modify in E. inversion E; subst; clear E. simpl.
    exists (Commands.SyncError e).
    split; [reflexivity|]. split; [intros []|].
    intros Hff.
    destruct (getVisitorRecords_served (Host.meetingId d) _ Hff) as (s1' & E1' & _).
    rewrite E1 in E1'. discriminate.
Qed.

Lemma X10_manual_sync_converges_witness :
  let cw := commands (appointment [ext "b@internal.com" "B"; ext "d@ext.com" "D"]) in
  exists msg,
    Commands.shown (fst (Commands.manualSync cw)) = [msg]
    /\ msg = Commands.SyncUpdated 1
    /\ map visitor_email
         (meeting_records "m1" (Commands.sharePoint (fst (Commands.manualSync cw))))
       = [JStr "d@ext.com"].
Proof.
  intros cw.
  destruct (X10_manual_sync_converges cw
              (snapshot_of (appointment [ext "b@internal.com" "B"; ext "d@ext.com" "D"]))
              eq_refl eq_refl ltac:(discriminate) (Forall_nil _))
    as (msg & Hs & Hconv & Hok).
  exists msg. split; [exact Hs|].
  destruct (Hconv (Hok eq_refl)) as [Hmsg Hm]. split; [exact Hmsg | exact Hm].
Defined.

(* ===================================================================== *)
(** * What the notification client posts                                 *)
(* ===================================================================== *)

Section PostsOnly.

Variable P : PA.Payload -> Prop.

Lemma posts_only_refl w : posts_only P w w.
Proof. exists []. split; [now rewrite app_nil_r|constructor]. Qed.

Lemma posts_only_trans w1 w2 w3 :
  posts_only P w1 w2 -> posts_only P w2 w3 -> posts_only P w1 w3.
Proof.
  intros (x & Hx & Px) (y & Hy & Py). exists (x ++ y). split.
  - rewrite Hy, Hx, app_assoc. reflexivity.
  - apply Forall_app. now split.
Qed.

Lemma posts_only_same w w' :
  PA.posted w' = PA.posted w -> posts_only P w w'.
Proof. intros H. exists []. split; [now rewrite app_nil_r|constructor]. Qed.

Lemma fetch_posts_only p t w :
  P p -> posts_only P w (fst (PA.fetch p t w)).
Proof.
  intros Hp. exists [p]. split; [|now repeat constructor].
  unfold PA.fetch.
  destruct (PA.script w) as [|[[| |s]|] rest]; simpl; auto.
  destruct (PA.ok s); simpl; auto.
Qed.

Lemma send_attempt_posts_only nd w :
  (forall today,
     P {| PA.p_meetingId := PA.meetingId nd;
          PA.p_meetingTitle := PA.meetingTitle nd;
          PA.p_visitorEmail := PA.visitorEmail nd;
          PA.p_visitorName := PA.visitorName nd;
          PA.p_startTime := PA.formatDateTime (PA.startTime nd);
          PA.p_endTime := PA.formatDateTime (PA.endTime nd);
          PA.p_notificationType := PA.notificationType nd;
          PA.p_timestamp := today |}) ->
  posts_only P w (fst (PA.sendSingleNotification_operation nd w)).
Proof.
  intros Hp. unfold PA.sendSingleNotification_operation, bind, gets.
  destruct (PA.powerAutomate w) as [c|]; [|apply posts_only_refl].
  match goal with
  | |- context [PA.fetch ?p ?t w] =>
      pose proof (fetch_posts_only p t w (Hp _)) as Hf;
      destruct (PA.fetch p t w) as [w1 [s|e]]; simpl in Hf
  end; [|exact Hf].
  destruct (negb (PA.ok s)); simpl; [exact Hf|].
  eapply posts_only_trans; [exact Hf|]. now apply posts_only_same.
Qed.

Lemma sendSingleNotification_posts_only nd w :
  (forall today,
     P {| PA.p_meetingId := PA.meetingId nd;
          PA.p_meetingTitle := PA.meetingTitle nd;
          PA.p_visitorEmail := PA.visitorEmail nd;
          PA.p_visitorName := PA.visitorName nd;
          PA.p_startTime := PA.formatDateTime (PA.startTime nd);
          PA.p_endTime := PA.formatDateTime (PA.endTime nd);
          PA.p_notificationType := PA.notificationType nd;
          PA.p_timestamp := today |}) ->
  posts_only P w (fst (PA.sendSingleNotification nd w)).
Proof.
  intros Hp. unfold PA.sendSingleNotification, PA.executeWithRetry.
  destruct (executeWithRetry_last PA.sleep PA.retryConfig
              (PA.sendSingleNotification_operation nd) (posts_only P w))
    with (retryCount := 0) (w := w) as (w0 & H0 & E0).
  - intros d v Hv. eapply posts_only_trans; [exact Hv|]. now apply posts_only_same.
  - intros v v' e Hv Ev. eapply posts_only_trans; [exact Hv|].
    pose proof (send_attempt_posts_only nd v Hp) as H. now rewrite Ev in H.
  - apply posts_only_refl.
  - rewrite <- E0. eapply posts_only_trans; [exact H0|].
    now apply send_attempt_posts_only.
Qed.

End PostsOnly.

Section PostsAbout.

Lemma about_weaken meetingId meetingTitle notificationType users u p :
  about meetingId meetingTitle notificationType users p ->
  about meetingId meetingTitle notificationType (u :: users) p.
Proof. intros (H1 & H2 & H3 & H4). repeat split; auto. simpl. now right. Qed.

Lemma posts_only_impl (P Q : PA.Payload -> Prop) w w' :
  (forall p, P p -> Q p) -> posts_only P w w' -> posts_only Q w w'.
Proof.
  intros HPQ (x & Hx & Px). exists x. split; [exact Hx|].
  eapply Forall_impl; eauto.
Qed.

Lemma notify_user_posts_about meetingId meetingTitle startTime endTime notificationType
      user w :
  posts_only (about meetingId meetingTitle notificationType [user]) w
    (fst (PA.notify_user meetingId meetingTitle startTime endTime notificationType
            user w)).
Proof.
  unfold PA.notify_user, try_catch, bind, lift_exc.
  destruct (visitorName user) as [v|e]; [|apply posts_only_refl].
  match goal with
  | |- context [PA.sendSingleNotification ?nd w] =>
      pose proof (sendSingleNotification_posts_only
                    (about meetingId meetingTitle notificationType [user]) nd w) as H;
      destruct (PA.sendSingleNotification nd w) as [w1 [n|e]]
  end; simpl in *; apply H; intros today; repeat split; simpl; auto.
Qed.

Lemma notify_loop_posts_about meetingId meetingTitle startTime endTime notificationType
      (users : list Attendee) :
  forall acc w,
    posts_only (about meetingId meetingTitle notificationType users) w
      (fst (for_push users
              (PA.notify_user meetingId meetingTitle startTime endTime notificationType)
              acc w)).
Proof.
  induction users as [|u users IH]; intros acc w; simpl.
  - apply posts_only_refl.
  - unfold bind at 1.
    pose proof (notify_user_posts_about meetingId meetingTitle startTime endTime
                  notificationType u w) as Hu.
    destruct (PA.notify_user _ _ _ _ _ u w) as [w1 [d|e]]; simpl in Hu.
    + eapply posts_only_trans.
      * eapply posts_only_impl; [|exact Hu].
        intros p (H1 & H2 & H3 & [H4|[]]). repeat split; auto. simpl. now left.
      * eapply posts_only_impl; [|apply IH]. intros p. apply about_weaken.
    + simpl. eapply posts_only_impl; [|exact Hu].
      intros p (H1 & H2 & H3 & [H4|[]]). repeat split; auto. simpl. now left.
Qed.

Lemma initialize_posts_nothing w : PA.posted (fst (PA.initialize w)) = PA.posted w.
Proof.
  unfold PA.initialize. rewrite try_catch_rethrow. unfold bind, gets, throw, ret, modify.
  destruct (PA.isInitialized w); [reflexivity|].
  destruct (PA.powerAutomate w) as [c|]; [|reflexivity].
  destruct (String.eqb (PA.notificationUrl c) ""); [reflexivity|].
  destruct (negb (PA.url_parses c)); reflexivity.
Qed.

End PostsAbout.

Lemma sendVisitorNotification_posts_about :
  forall meetingId meetingTitle users startTime endTime notificationType w,
    posts_only (about meetingId meetingTitle notificationType users) w
      (fst (PA.sendVisitorNotification meetingId meetingTitle users startTime endTime
              notificationType w)).
Proof.
  intros meetingId meetingTitle users startTime endTime notificationType w.
  unfold PA.sendVisitorNotification. rewrite try_catch_rethrow.
  unfold bind at 1. unfold gets at 1. unfold bind at 1.
  assert (Hinit : posts_only (about meetingId meetingTitle notificationType users) w
                    (fst ((if negb (PA.isInitialized w) then PA.initialize else ret tt) w))).
  { destruct (negb (PA.isInitialized w)).
    - apply posts_only_same. apply initialize_posts_nothing.
    - apply posts_only_refl. }
  destruct ((if negb (PA.isInitialized w) then PA.initialize else ret tt) w)
    as [w1 [[]|e]]; simpl in Hinit; [|exact Hinit].
  destruct (Nat.eqb (List.length users) 0); [exact Hinit|].
  unfold bind at 1.
  pose proof (notify_loop_posts_about meetingId meetingTitle startTime endTime
                notificationType users [] w1) as Hloop.
  destruct (for_push users _ [] w1) as [w2 [ds|e]]; simpl in Hloop;
    eapply posts_only_trans; eauto.
Qed.

(** X11: whatever happens, every POST that [sendVisitorNotification]
    issues carries the meeting id, the title and the notification type it
    was given and the address of one of the users it was given: it
    notifies about nobody else. *)
Theorem X11_posts_only_about_the_users :
  forall meetingId meetingTitle users startTime endTime notificationType w,
    exists extra,
      PA.posted (fst (PA.sendVisitorNotification meetingId meetingTitle users
                        startTime endTime notificationType w))
      = PA.posted w ++ extra
      /\ forall p, In p extra ->
           PA.p_meetingId p = meetingId
           /\ PA.p_meetingTitle p = meetingTitle
           /\ PA.p_notificationType p = notificationType
           /\ exists u, In u users /\ PA.p_visitorEmail p = emailAddress u.
Proof.
  intros meetingId meetingTitle users startTime endTime notificationType w.
  destruct (sendVisitorNotification_posts_about meetingId meetingTitle users
              startTime endTime notificationType w) as (extra & Hx & Hall).
  exists extra. split; [exact Hx|].
  intros p Hp. rewrite Forall_forall in Hall.
  destruct (Hall p Hp) as (H1 & H2 & H3 & H4).
  repeat split; auto.
  apply in_map_iff in H4 as (u & Hu & Hin). exists u. auto.
Qed.

(** X12: a client that is not initialised and whose configuration is
    missing, has an empty URL or a URL that does not parse raises a
    configuration error from [sendVisitorNotification] and does nothing
    else: no POST, no change of state. *)
Theorem X12_unusable_configuration_sends_nothing :
  forall meetingId meetingTitle users startTime endTime notificationType w,
    PA.isInitialized w = false ->
    match PA.powerAutomate w with
    | None => True
    | Some c => PA.notificationUrl c = "" \/ PA.url_parses c = false
    end ->
    exists msg,
      PA.sendVisitorNotification meetingId meetingTitle users startTime endTime
        notificationType w = (w, Throw (ConfigError msg)).
Proof.
  intros meetingId meetingTitle users startTime endTime notificationType w Hi Hc.
  unfold PA.sendVisitorNotification. rewrite try_catch_rethrow.
  unfold bind at 1. unfold gets at 1. unfold bind at 1. rewrite Hi. cbn [negb].
  unfold PA.initialize. rewrite try_catch_rethrow.
  unfold bind at 1. unfold gets at 1. rewrite Hi.
  unfold bind at 1. unfold gets at 1.
  destruct (PA.powerAutomate w) as [c|]; [|eexists; reflexivity].
  destruct (String.eqb_spec (PA.notificationUrl c) ""); [eexists; reflexivity|].
  destruct Hc as [Hc|Hc]; [contradiction|]. rewrite Hc. eexists; reflexivity.
Qed.

Lemma X12_unusable_configuration_sends_nothing_witness :
  let w := PA.set_initialized false
             {| PA.powerAutomate := Some {| PA.notificationUrl := "not a url";
                                            PA.url_parses := false;
                                            PA.timeout := None |};
                PA.isInitialized := false; PA.script := []; PA.posted := [];
                PA.delivered := []; PA.nextNotification := 0; PA.now := 0;
                PA.waits := [] |} in
  exists msg,
    PA.sendVisitorNotification "m1" "Review" three_users None None created w
    = (w, Throw (ConfigError msg)).
Proof.
  intros w.
  exact (X12_unusable_configuration_sends_nothing "m1" "Review" three_users None None
           created w eq_refl (or_intror eq_refl)).
Defined.

(** X13: a client that is not yet initialised but has a usable
    configuration initialises itself on the first
    [sendVisitorNotification] and then reports one entry per participant. *)
Theorem X13_first_send_initialises :
  forall meetingId meetingTitle users startTime endTime notificationType c w,
    PA.isInitialized w = false ->
    PA.powerAutomate w = Some c ->
    PA.notificationUrl c <> "" ->
    PA.url_parses c = true ->
    exists w' r,
      PA.sendVisitorNotification meetingId meetingTitle users startTime endTime
        notificationType w = (w', Ok r)
      /\ PA.isInitialized w' = true
      /\ map PA.email (entries r) = map emailAddress users.
Proof.
  intros meetingId meetingTitle users startTime endTime notificationType c w
         Hi Hc Hurl Hparse.
  assert (Hinit : PA.initialize w = (PA.set_initialized true w, Ok tt)).
  { unfold PA.initialize. rewrite try_catch_rethrow.
    unfold bind at 1. unfold gets at 1. rewrite Hi.
    unfold bind at 1. unfold gets at 1. rewrite Hc.
    destruct (String.eqb_spec (PA.notificationUrl c) ""); [contradiction|].
    rewrite Hparse. reflexivity. }
  unfold PA.sendVisitorNotification. rewrite try_catch_rethrow.
  unfold bind at 1. unfold gets at 1. unfold bind at 1. rewrite Hi. cbn [negb].
  rewrite Hinit.
  destruct users as [|u users].
  - exists (PA.set_initialized true w). eexists. simpl. repeat split; reflexivity.
  - destruct (notify_loop meetingId meetingTitle startTime endTime notificationType c
                (u :: users) [] (PA.set_initialized true w) Hc)
      as (w' & ds & E & Hm & (_ & Hinit' & _) & _).
    exists w'. eexists. split; [|split].
    + cbn [List.length Nat.eqb]. unfold bind at 1. rewrite E. reflexivity.
    + rewrite Hinit'. reflexivity.
    + unfold entries. cbn [PA.details app]. exact Hm.
Qed.

Lemma X13_first_send_initialises_witness :
  let w := PA.set_initialized false (flow [Some PA.Abort]) in
  exists w' r,
    PA.sendVisitorNotification "m1" "Review" three_users None None created w = (w', Ok r)
    /\ PA.isInitialized w' = true
    /\ map PA.email (entries r) = map emailAddress three_users.
Proof.
  intros w.
  refine (X13_first_send_initialises "m1" "Review" three_users None None created
            _ w eq_refl eq_refl _ eq_refl).
  discriminate.
Defined.

(* ===================================================================== *)
(** * The task pane's cycle                                              *)
(* ===================================================================== *)

Section Cycle.

Import TaskpaneApp.

Lemma getStatistics_keeps_items dateRange w :
  items (fst (getStatistics dateRange w)) = items w.
Proof.
  unfold getStatistics, bind, gets, fetch.
  destruct (script w) as [|[[|s]|] rest]; simpl; try reflexivity.
  - destruct (negb (ok {| status := s; body := NoBody |})); reflexivity.
Qed.

Lemma refreshStatistics_keeps w :
  items (sharePoint (fst (refreshStatistics w))) = items (sharePoint w)
  /\ powerAutomate (fst (refreshStatistics w)) = powerAutomate w
  /\ messages (fst (refreshStatistics w)) = messages w
  /\ snd (refreshStatistics w) = Ok tt.
Proof.
  unfold refreshStatistics, try_catch, bind, onSharePoint, ret.
  pose proof (getStatistics_keeps_items 7 (sharePoint w)) as H.
  destruct (getStatistics 7 (sharePoint w)) as [s [n|e]]; simpl in *; auto.
Qed.

(** The store step leaves the notification client and the messages alone;
    for a change type that does not write, the list as well. *)
Lemma store_step_keeps data changeType w :
  powerAutomate (fst (store_step data changeType w)) = powerAutomate w
  /\ messages (fst (store_step data changeType w)) = messages w
  /\ (writes_list changeType = false ->
      store_step data changeType w = (w, Ok 0)).
Proof.
  unfold store_step, bind, onSharePoint, ret.
  destruct changeType; simpl;
    try (repeat split; auto; discriminate);
    match goal with
    | |- context [updateVisitorRecords ?a ?b ?c ?d ?e ?s] =>
        destruct (updateVisitorRecords a b c d e s) as [s' [r|e']]
    | |- context [deleteVisitorRecords ?a ?s] =>
        destruct (deleteVisitorRecords a s) as [s' [r|e']]
    end; simpl; repeat split; auto; discriminate.
Qed.

(** The cycle never raises: every error ends as a message. *)
Lemma processVisitors_cycle_Ok data changeType w :
  snd (processVisitors_cycle data changeType w) = Ok tt.
Proof.
  unfold processVisitors_cycle, try_catch.
  match goal with
  | |- context [(?m ;;; ?k) w] => destruct ((m ;;; k) w) as [w1 [[]|e]]
  end; reflexivity.
Qed.

End Cycle.

(** X14: a call of [processVisitors] that runs to its end never raises
    and always leaves [isProcessing] cleared, whether it was turned away,
    had nothing to do, succeeded or met an error. *)
Theorem X14_processVisitors_returns_unlocked :
  forall meetingData changeType w,
    snd (TaskpaneApp.processVisitors meetingData changeType w) = Ok tt
    /\ TaskpaneApp.isProcessing (fst (TaskpaneApp.processVisitors meetingData changeType w))
       = false.
Proof.
  intros meetingData changeType w.
  unfold TaskpaneApp.processVisitors.
  destruct (TaskpaneApp.processVisitors_enter meetingData w) as [w1 en] eqn:E.
  destruct en as [| |data].
  - split; [reflexivity|].
    unfold TaskpaneApp.processVisitors_enter in E.
    destruct (TaskpaneApp.isProcessing w).
    + inversion E; subst. reflexivity.
    + destruct (match meetingData with
                | Some d => Some d
                | None => TaskpaneApp.currentMeetingData
                            (TaskpaneApp.set_isProcessing true w)
                end) as [d|]; [|discriminate].
      destruct (Nat.eqb (List.length (Host.externalUsers d)) 0); discriminate.
  - split; [reflexivity|].
    unfold TaskpaneApp.processVisitors_enter in E.
    destruct (TaskpaneApp.isProcessing w); [discriminate|].
    destruct (match meetingData with
              | Some d => Some d
              | None => TaskpaneApp.currentMeetingData
                          (TaskpaneApp.set_isProcessing true w)
              end) as [d|].
    + destruct (Nat.eqb (List.length (Host.externalUsers d)) 0);
        inversion E; subst; reflexivity.
    + inversion E; subst; reflexivity.
  - pose proof (processVisitors_cycle_Ok data changeType w1) as Hc.
    destruct (TaskpaneApp.processVisitors_cycle data changeType w1) as [w2 r].
    simpl in *. split; [exact Hc|reflexivity].
Qed.

Section CycleEffects.

Import TaskpaneApp.

(** The cycle, seen from the notification client and from the list. *)
Lemma processVisitors_cycle_effects data changeType w :
  (0 <? List.length (Host.externalUsers data))%nat = true ->
  let w' := fst (processVisitors_cycle data changeType w) in
  posts_only (about (Host.meetingId data) (Host.subject data) (notified_as changeType)
                    (Host.externalUsers data))
             (powerAutomate w) (powerAutomate w')
  /\ (writes_list changeType = false ->
      items (sharePoint w') = items (sharePoint w)).
Proof.
  intros Hlen. cbv zeta.
  destruct (processVisitors_cycle data changeType w) as [w' r0] eqn:E. cbn [fst].
  unfold processVisitors_cycle, try_catch in E.
  unfold bind at 1 in E.
  destruct (store_step_keeps data changeType w) as (Hpa & _ & Hnw).
  destruct (store_step data changeType w) as [w1 [n|e]] eqn:E1; simpl in Hpa.
  - rewrite Hlen in E. unfold bind at 1 in E. unfold bind at 1 in E.
    unfold onPowerAutomate at 1 in E.
    pose proof (sendVisitorNotification_posts_about (Host.meetingId data)
                  (Host.subject data) (Host.externalUsers data)
                  (Host.startTime data) (Host.endTime data)
                  (notified_as changeType) (powerAutomate w1)) as Hposts.
    fold (notified_as changeType) in E.
    destruct (PA.sendVisitorNotification _ _ _ _ _ _ (powerAutomate w1))
      as [p [r|e]]; simpl in Hposts; rewrite Hpa in Hposts.
    + assert (Hmsg : exists m,
                (if PA.r_success r
                 then modify (showMessage (MsgDone (List.length
                                             (Host.externalUsers data))))
                 else modify (showMessage MsgPartial)) (set_powerAutomate p w1)
                = (showMessage m (set_powerAutomate p w1), Ok tt)).
      { destruct (PA.r_success r); eexists; reflexivity. }
      destruct Hmsg as [m Em]. rewrite Em in E.
      destruct (refreshStatistics_keeps (showMessage m (set_powerAutomate p w1)))
        as (Hi & Hp & _ & Hr).
      destruct (refreshStatistics (showMessage m (set_powerAutomate p w1)))
        as [w4 r4].
      cbn [fst snd] in Hi, Hp, Hr. subst r4.
      inversion E; subst; clear E. split.
      * rewrite Hp. exact Hposts.
      * intros Hw. rewrite Hi. cbn [sharePoint showMessage set_powerAutomate].
        pose proof (Hnw Hw) as Hq. inversion Hq; subst. reflexivity.
    + unfold modify in E. inversion E; subst; clear E. simpl.
      split; [exact Hposts|].
      intros Hw. pose proof (Hnw Hw) as Hq. inversion Hq; subst. reflexivity.
  - unfold modify in E. inversion E; subst; clear E. simpl. split.
    + rewrite Hpa. apply posts_only_refl.
    + intros Hw. pose proof (Hnw Hw) as Hq. discriminate.
Qed.

Lemma processVisitors_enter_keeps meetingData w :
  powerAutomate (fst (processVisitors_enter meetingData w)) = powerAutomate w
  /\ sharePoint (fst (processVisitors_enter meetingData w)) = sharePoint w
  /\ (forall d, snd (processVisitors_enter meetingData w) = Run d ->
        (0 <? List.length (Host.externalUsers d))%nat = true
        /\ (forall given, meetingData = Some given -> d = given)).
Proof.
  unfold processVisitors_enter.
  destruct (isProcessing w); [simpl; repeat split; auto; discriminate|].
  destruct (match meetingData with
            | Some d => Some d
            | None => currentMeetingData (set_isProcessing true w)
            end) as [d0|] eqn:Ed;
    [|simpl; repeat split; auto; discriminate].
  destruct (Nat.eqb (List.length (Host.externalUsers d0)) 0) eqn:Hz; simpl;
    [repeat split; auto; discriminate|].
  split; [reflexivity|]. split; [reflexivity|].
  intros x Hx. inversion Hx; subst. split.
  - apply Nat.eqb_neq in Hz. apply Nat.ltb_lt. lia.
  - intros given ->. now inversion Ed.
Qed.

End CycleEffects.

(** X15: when the list update of a cycle raises, the cycle shows the
    error and sends no notification at all. *)
Theorem X15_store_failure_stops_notification :
  forall d changeType w e,
    TaskpaneApp.isProcessing w = false ->
    Host.externalUsers d <> [] ->
    changeType = manual \/ changeType = created \/ changeType = recipients_changed ->
    snd (updateVisitorRecords (Host.meetingId d) (Host.subject d) (Host.externalUsers d)
           (Host.startTime d) (Host.endTime d) (TaskpaneApp.sharePoint w)) = Throw e ->
    let w' := fst (TaskpaneApp.processVisitors (Some d) changeType w) in
    TaskpaneApp.powerAutomate w' = TaskpaneApp.powerAutomate w
    /\ TaskpaneApp.messages w' = TaskpaneApp.messages w ++ [TaskpaneApp.MsgError e].
Proof.
  intros d changeType w e Hidle Hext Hct Hthrow. cbv zeta.
  assert (Hz : Nat.eqb (List.length (Host.externalUsers d)) 0 = false).
  { destruct (Host.externalUsers d); [contradiction|reflexivity]. }
  assert (Hstep : TaskpaneApp.store_step d changeType
                    (TaskpaneApp.set_isProcessing true w)
                  = (TaskpaneApp.set_sharePoint
                       (fst (updateVisitorRecords (Host.meetingId d) (Host.subject d)
                               (Host.externalUsers d) (Host.startTime d)
                               (Host.endTime d) (TaskpaneApp.sharePoint w)))
                       (TaskpaneApp.set_isProcessing true w),
                     Throw e)).
  { destruct Hct as [ -> | [ -> | -> ] ];
      unfold TaskpaneApp.store_step, bind, TaskpaneApp.onSharePoint;
      cbn [TaskpaneApp.sharePoint TaskpaneApp.set_isProcessing];
      destruct (updateVisitorRecords _ _ _ _ _ (TaskpaneApp.sharePoint w)) as [s' r];
      simpl in Hthrow; subst r; reflexivity. }
  destruct (TaskpaneApp.processVisitors (Some d) changeType w) as [w' r] eqn:E.
  cbn [fst].
  unfold TaskpaneApp.processVisitors, TaskpaneApp.processVisitors_enter in E.
  rewrite Hidle, Hz in E.
  unfold TaskpaneApp.processVisitors_cycle, try_catch in E.
  unfold bind at 1 in E. rewrite Hstep in E.
  unfold modify in E. inversion E; subst. split; reflexivity.
Qed.

Lemma X15_store_failure_stops_notification_witness :
  let w := TaskpaneApp.set_sharePoint
             (store [] 1 [Some Reject; Some Reject; Some Reject; Some Reject])
             (taskpane (appointment [ext "a@ext.com" "A"])) in
  let w' := fst (TaskpaneApp.processVisitors (Some snapshot_1) recipients_changed w) in
  PA.posted (TaskpaneApp.powerAutomate w') = []
  /\ TaskpaneApp.messages w' = [TaskpaneApp.MsgError NetworkError].
Proof.
  intros w w'.
  destruct (X15_store_failure_stops_notification snapshot_1 recipients_changed w
              NetworkError eq_refl ltac:(discriminate)
              (or_intror (or_intror eq_refl)) eq_refl) as [Hp Hm].
  fold w' in Hp, Hm. split; [rewrite Hp; reflexivity | exact Hm].
Defined.

(** X16: every POST a call of [processVisitors] causes is about the
    snapshot it was given and one of its external users, and carries the
    change type as it came ([manual] as [created]): a recipients, subject
    or time change is not translated to [updated]. *)
Theorem X16_notification_type_is_the_change_type :
  forall d changeType w,
    exists extra,
      PA.posted (TaskpaneApp.powerAutomate
                   (fst (TaskpaneApp.processVisitors (Some d) changeType w)))
      = PA.posted (TaskpaneApp.powerAutomate w) ++ extra
      /\ forall p, In p extra ->
           PA.p_meetingId p = Host.meetingId d
           /\ PA.p_notificationType p = notified_as changeType
           /\ exists u, In u (Host.externalUsers d)
                        /\ PA.p_visitorEmail p = emailAddress u.
Proof.
  intros d changeType w.
  assert (H : posts_only (about (Host.meetingId d) (Host.subject d)
                                (notified_as changeType) (Host.externalUsers d))
                (TaskpaneApp.powerAutomate w)
                (TaskpaneApp.powerAutomate
                   (fst (TaskpaneApp.processVisitors (Some d) changeType w)))).
  { unfold TaskpaneApp.processVisitors.
    destruct (processVisitors_enter_keeps (Some d) w) as (Hpa & _ & Hrun).
    destruct (TaskpaneApp.processVisitors_enter (Some d) w) as [w1 en].
    simpl in Hpa, Hrun.
    destruct en as [| |data]; simpl; try (rewrite Hpa; apply posts_only_refl).
    destruct (Hrun data eq_refl) as [Hlen Hsame].
    rewrite (Hsame d eq_refl) in *.
    destruct (processVisitors_cycle_effects d changeType w1 Hlen) as [Hposts _].
    destruct (TaskpaneApp.processVisitors_cycle d changeType w1) as [w2 r].
    simpl in *. rewrite <- Hpa. exact Hposts. }
  destruct H as (extra & Hx & Hall). exists extra. split; [exact Hx|].
  intros p Hp. rewrite Forall_forall in Hall.
  destruct (Hall p Hp) as (H1 & _ & H3 & H4). repeat split; auto.
  apply in_map_iff in H4 as (u & Hu & Hin). exists u. auto.
Qed.

Section PostsGeneric.

Variable P : PA.Payload -> Prop.
Variables (meetingId meetingTitle : string) (startTime endTime : option Z)
          (notificationType : ChangeType).

Hypothesis payload_ok : forall today (u : Attendee) (v : JsVal),
  P {| PA.p_meetingId := meetingId;
       PA.p_meetingTitle := meetingTitle;
       PA.p_visitorEmail := emailAddress u;
       PA.p_visitorName := v;
       PA.p_startTime := PA.formatDateTime startTime;
       PA.p_endTime := PA.formatDateTime endTime;
       PA.p_notificationType := notificationType;
       PA.p_timestamp := today |}.

Lemma notify_user_posts_only user w :
  posts_only P w
    (fst (PA.notify_user meetingId meetingTitle startTime endTime notificationType
            user w)).
Proof.
  unfold PA.notify_user, try_catch, bind, lift_exc.
  destruct (visitorName user) as [v|e]; [|apply posts_only_refl].
  match goal with
  | |- context [PA.sendSingleNotification ?nd w] =>
      pose proof (sendSingleNotification_posts_only P nd w) as H;
      destruct (PA.sendSingleNotification nd w) as [w1 [n|e]]
  end; simpl in *; apply H; intros today; apply payload_ok.
Qed.

Lemma notify_loop_posts_only (users : list Attendee) :
  forall acc w,
    posts_only P w
      (fst (for_push users
              (PA.notify_user meetingId meetingTitle startTime endTime notificationType)
              acc w)).
Proof.
  induction users as [|u users IH]; intros acc w; simpl.
  - apply posts_only_refl.
  - unfold bind at 1.
    pose proof (notify_user_posts_only u w) as Hu.
    destruct (PA.notify_user _ _ _ _ _ u w) as [w1 [d|e]]; simpl in Hu.
    + eapply posts_only_trans; [exact Hu|apply IH].
    + exact Hu.
Qed.

Lemma sendVisitorNotification_posts_timed users w :
  posts_only P w
    (fst (PA.sendVisitorNotification meetingId meetingTitle users startTime endTime
            notificationType w)).
Proof.
  unfold PA.sendVisitorNotification. rewrite try_catch_rethrow.
  unfold bind at 1. unfold gets at 1. unfold bind at 1.
  assert (Hinit : posts_only P w
                    (fst ((if negb (PA.isInitialized w) then PA.initialize else ret tt) w))).
  { destruct (negb (PA.isInitialized w)).
    - apply posts_only_same. apply initialize_posts_nothing.
    - apply posts_only_refl. }
  destruct ((if negb (PA.isInitialized w) then PA.initialize else ret tt) w)
    as [w1 [[]|e]]; simpl in Hinit; [|exact Hinit].
  destruct (Nat.eqb (List.length users) 0); [exact Hinit|].
  unfold bind at 1.
  pose proof (notify_loop_posts_only users [] w1) as Hloop.
  destruct (for_push users _ [] w1) as [w2 [ds|e]]; simpl in Hloop;
    eapply posts_only_trans; eauto.
Qed.

End PostsGeneric.




(* ===================================================================== *)
(** * The flag and the suspended cycles                                  *)
(* ===================================================================== *)

Section Flag.

Lemma refreshMeetingInfo_keeps_flag w :
  TaskpaneApp.isProcessing (fst (TaskpaneApp.refreshMeetingInfo w))
  = TaskpaneApp.isProcessing w.
Proof. reflexivity. Qed.

Lemma enter_flag meetingData w :
  match snd (TaskpaneApp.processVisitors_enter meetingData w) with
  | TaskpaneApp.Run _ => True
  | _ => TaskpaneApp.isProcessing (fst (TaskpaneApp.processVisitors_enter meetingData w))
         = false
  end.
Proof.
  unfold TaskpaneApp.processVisitors_enter.
  destruct (TaskpaneApp.isProcessing w); [reflexivity|].
  destruct (match meetingData with
            | Some d => Some d
            | None => TaskpaneApp.currentMeetingData
                        (TaskpaneApp.set_isProcessing true w)
            end) as [d|]; [|reflexivity].
  destruct (Nat.eqb (List.length (Host.externalUsers d)) 0); [reflexivity|exact I].
Qed.

Lemma step_keeps_flag_has_cycle s ev :
  flag_has_cycle s -> flag_has_cycle (Coordinator.step s ev).
Proof.
  unfold flag_has_cycle. intros Hinv.
  destruct ev as [eventType [d|]|]; simpl.
  - destruct (0 <? List.length (Host.externalUsers d))%nat; [|exact Hinv].
    pose proof (enter_flag (Some d) (Coordinator.app s)) as Hf.
    destruct (TaskpaneApp.processVisitors_enter (Some d) (Coordinator.app s))
      as [w1 [| |data]]; simpl in *.
    + rewrite Hf. discriminate.
    + rewrite Hf. discriminate.
    + intros _. destruct (Coordinator.inflight s); discriminate.
  - exact Hinv.
  - destruct (Coordinator.inflight s) as [|[data changeType] rest] eqn:Ei.
    + intros Hp. exfalso. exact (Hinv Hp eq_refl).
    + simpl. discriminate.
Qed.

End Flag.

(** X18: from an idle task pane, after any sequence of events and
    completions, [isProcessing] is set only while some cycle is still
    suspended: once every cycle has completed the pane accepts the next
    request. *)
Theorem X18_flag_implies_running_cycle :
  forall w events,
    TaskpaneApp.isProcessing w = false ->
    let s := Coordinator.run (Coordinator.idle w) events in
    Coordinator.inflight s = [] ->
    TaskpaneApp.isProcessing (Coordinator.app s) = false.
Proof.
  intros w events Hidle. cbv zeta.
  assert (Hinv : flag_has_cycle (Coordinator.run (Coordinator.idle w) events)).
  { unfold Coordinator.run.
    assert (H0 : flag_has_cycle (Coordinator.idle w)).
    { unfold flag_has_cycle. simpl. rewrite Hidle. discriminate. }
    revert H0. generalize (Coordinator.idle w).
    induction events as [|ev events IH]; intros s Hs; simpl; [exact Hs|].
    apply IH. now apply step_keeps_flag_has_cycle. }
  intros Hnone. unfold flag_has_cycle in Hinv.
  destruct (TaskpaneApp.isProcessing
              (Coordinator.app (Coordinator.run (Coordinator.idle w) events)));
    [|reflexivity].
  exfalso. now apply Hinv.
Qed.

Lemma X18_flag_implies_running_cycle_witness :
  let s := Coordinator.run idle_pane
             [changed snapshot_1; changed snapshot_2; changed snapshot_3;
              Coordinator.Completion; Coordinator.Completion] in
  Coordinator.inflight s = []
  /\ TaskpaneApp.isProcessing (Coordinator.app s) = false.
Proof.
  intros s.
  assert (H : Coordinator.inflight s = []) by (vm_compute; reflexivity).
  split; [exact H|].
  exact (X18_flag_implies_running_cycle (taskpane (appointment [ext "a@ext.com" "A"]))
           _ eq_refl H).
Defined.

(* ===================================================================== *)
(** * Update, cancellation and bulk notifications                        *)
(* ===================================================================== *)

Section Bulk.

Lemma sendVisitorNotification_Ok meetingId meetingTitle users startTime endTime
      notificationType c w :
  PA.isInitialized w = true ->
  PA.powerAutomate w = Some c ->
  exists w' r,
    PA.sendVisitorNotification meetingId meetingTitle users startTime endTime
      notificationType w = (w', Ok r)
    /\ PA.isInitialized w' = true
    /\ PA.powerAutomate w' = Some c.
Proof.
  intros Hi Hc. unfold PA.sendVisitorNotification. rewrite try_catch_rethrow.
  unfold bind at 1. unfold gets at 1. unfold bind at 1. rewrite Hi. cbn [negb].
  unfold ret at 1.
  destruct users as [|u users].
  - exists w. eexists. simpl. repeat split; auto.
  - destruct (notify_loop meetingId meetingTitle startTime endTime notificationType c
                (u :: users) [] w Hc) as (w' & ds & E & _ & (Hc' & Hi' & _) & _).
    exists w'. eexists. split; [|split].
    + cbn [List.length Nat.eqb]. unfold bind at 1. rewrite E. reflexivity.
    + now rewrite Hi'.
    + now rewrite Hc'.
Qed.

Lemma bulk_loop c (meetings : list PA.Meeting) :
  forall acc w,
    PA.isInitialized w = true ->
    PA.powerAutomate w = Some c ->
    exists w' ds,
      for_push meetings PA.bulk_meeting acc w = (w', Ok (acc ++ ds))
      /\ map PA.b_meetingId ds = map PA.m_meetingId meetings
      /\ Forall (fun d => PA.b_success d = true) ds.
Proof.
  induction meetings as [|m meetings IH]; intros acc w Hi Hc; simpl.
  - exists w, []. rewrite app_nil_r. repeat split; auto.
  - destruct (sendVisitorNotification_Ok (PA.m_meetingId m) (PA.m_meetingTitle m)
                (PA.m_externalUsers m) (PA.m_startTime m) (PA.m_endTime m)
                (match PA.m_notificationType m with Some t => t | None => created end)
                c w Hi Hc) as (w1 & r & E1 & Hi1 & Hc1).
    set (d := {| PA.b_meetingId := PA.m_meetingId m; PA.b_success := true;
                 PA.b_result := Some r; PA.b_error := None |}).
    destruct (IH (acc ++ [d]) w1 Hi1 Hc1) as (w2 & ds & E2 & Hm & Hall).
    exists w2, (d :: ds). split; [|split].
    + assert (Em : PA.bulk_meeting m w = (w1, Ok d)).
      { unfold PA.bulk_meeting, try_catch, bind. rewrite E1. reflexivity. }
      unfold bind at 1. rewrite Em, E2, <- app_assoc. reflexivity.
    + simpl. now rewrite Hm.
    + constructor; [reflexivity|exact Hall].
Qed.

End Bulk.

(** X19: on an initialised client [sendBulkNotifications] returns one
    entry per meeting, in order, every entry marked a success, and so the
    aggregate flag is [true]: a notification that failed inside a
    meeting's result does not count as a failure of the bulk. *)
Theorem X19_bulk_reports_success :
  forall meetings c w,
    PA.isInitialized w = true ->
    PA.powerAutomate w = Some c ->
    exists w' r,
      PA.sendBulkNotifications meetings w = (w', Ok r)
      /\ PA.bulk_success r = true
      /\ PA.processed r = List.length meetings
      /\ map PA.b_meetingId (bulk_entries r) = map PA.m_meetingId meetings
      /\ Forall (fun d => PA.b_success d = true) (bulk_entries r).
Proof.
  intros meetings c w Hi Hc.
  unfold PA.sendBulkNotifications. rewrite try_catch_rethrow.
  destruct meetings as [|m meetings].
  - exists w. eexists. simpl. repeat split; auto.
  - destruct (bulk_loop c (m :: meetings) [] w Hi Hc) as (w' & ds & E & Hm & Hall).
    exists w'. eexists. split.
    + cbn [List.length Nat.eqb]. unfold bind at 1. rewrite E. reflexivity.
    + unfold bulk_entries.
      cbn [PA.bulk_details PA.bulk_success PA.processed app].
      assert (Hnone : filter (fun r => negb (PA.b_success r)) ds = []).
      { apply filter_none. eapply Forall_impl; [|exact Hall].
        intros d Hd. now rewrite Hd. }
      rewrite Hnone. split; [reflexivity|].
      split; [rewrite <- (length_map PA.b_meetingId), Hm, length_map; reflexivity|].
      split; [exact Hm|exact Hall].
Qed.

Lemma X19_bulk_reports_success_witness :
  let meeting := {| PA.m_meetingId := "m1"; PA.m_meetingTitle := "Review";
                    PA.m_externalUsers := [ext "a@ext.com" "A"];
                    PA.m_startTime := None; PA.m_endTime := None;
                    PA.m_notificationType := None |} in
  let w := flow [Some PA.Abort; Some PA.Abort; Some PA.Abort; Some PA.Abort] in
  exists w' r,
    PA.sendBulkNotifications [meeting] w = (w', Ok r)
    /\ PA.bulk_success r = true
    /\ PA.delivered w' = []
    /\ map (fun d => option_map PA.r_success (PA.b_result d)) (bulk_entries r)
       = [Some false].
Proof.
  intros meeting w.
  destruct (X19_bulk_reports_success [meeting] _ w eq_refl eq_refl)
    as (w' & r & E & Hs & _).
  exists w', r. split; [exact E|]. split; [exact Hs|].
  assert (H : PA.sendBulkNotifications [meeting] w = (w', Ok r)) by exact E.
  vm_compute in H. inversion H; subst. split; reflexivity.
Defined.

(** X20: every POST of [sendMeetingUpdateNotification] carries one of the
    types [created], [updated], [cancelled], whatever change type it is
    given, and every POST of [sendMeetingCancellationNotification]
    carries [cancelled]. *)
Theorem X20_update_notifications_use_flow_types :
  forall meetingId meetingTitle users startTime endTime changeType w,
    (exists extra,
       PA.posted (fst (PA.sendMeetingUpdateNotification meetingId meetingTitle users
                         startTime endTime changeType w))
       = PA.posted w ++ extra
       /\ Forall (fun p => flow_type (PA.p_notificationType p)) extra)
    /\ (exists extra,
          PA.posted (fst (PA.sendMeetingCancellationNotification meetingId meetingTitle
                            users w))
          = PA.posted w ++ extra
          /\ Forall (fun p => PA.p_notificationType p = cancelled
                              /\ PA.p_startTime p = None /\ PA.p_endTime p = None)
                    extra).
Proof.
  intros meetingId meetingTitle users startTime endTime changeType w. split.
  - unfold PA.sendMeetingUpdateNotification. rewrite try_catch_rethrow. cbv zeta.
    destruct (sendVisitorNotification_posts_about meetingId meetingTitle users
                startTime endTime (PA.mapChangeTypeToNotification changeType) w)
      as (extra & Hx & Hall).
    exists extra. split; [exact Hx|].
    eapply Forall_impl; [|exact Hall].
    intros p (_ & _ & Ht & _). rewrite Ht. unfold flow_type.
    destruct changeType; simpl; auto.
  - unfold PA.sendMeetingCancellationNotification. rewrite try_catch_rethrow.
    apply (sendVisitorNotification_posts_timed
             (fun p => PA.p_notificationType p = cancelled
                       /\ PA.p_startTime p = None /\ PA.p_endTime p = None)
             meetingId meetingTitle None None cancelled).
    intros today u v. simpl. auto.
Qed.

(* ===================================================================== *)
(** * The ribbon command quickProcessVisitors                            *)
(* ===================================================================== *)

Section Quick.

Lemma quick_onSharePoint_frame {A} (m : M World A) w :
  QuickCommand.shown (fst (QuickCommand.onSharePoint m w)) = QuickCommand.shown w
  /\ QuickCommand.completed (fst (QuickCommand.onSharePoint m w))
     = QuickCommand.completed w
  /\ QuickCommand.powerAutomate (fst (QuickCommand.onSharePoint m w))
     = QuickCommand.powerAutomate w.
Proof.
  unfold QuickCommand.onSharePoint.
  destruct (m (QuickCommand.sharePoint w)) as [s r]. simpl. auto.
Qed.

Lemma quick_onPowerAutomate_frame {A} (m : M PA.World A) w :
  QuickCommand.shown (fst (QuickCommand.onPowerAutomate m w)) = QuickCommand.shown w
  /\ QuickCommand.completed (fst (QuickCommand.onPowerAutomate m w))
     = QuickCommand.completed w.
Proof.
  unfold QuickCommand.onPowerAutomate.
  destruct (m (QuickCommand.powerAutomate w)) as [p r]. simpl. auto.
Qed.

End Quick.

(** X21: [quickProcessVisitors] never raises, shows exactly one
    notification and completes the event of the ribbon button exactly
    once, whatever the state of the services, the item and the two
    remote sides. *)
Theorem X21_quick_command_always_completes :
  forall w,
    snd (QuickCommand.quickProcessVisitors true w) = Ok tt
    /\ QuickCommand.completed (fst (QuickCommand.quickProcessVisitors true w))
       = S (QuickCommand.completed w)
    /\ exists n,
         QuickCommand.shown (fst (QuickCommand.quickProcessVisitors true w))
         = QuickCommand.shown w ++ [n].
Proof.
  intros w.
  destruct (QuickCommand.quickProcessVisitors true w) as [w' r] eqn:E.
  cbn [fst snd].
  unfold QuickCommand.quickProcessVisitors, try_finally, try_catch in E.
  unfold bind at 1 in E. unfold gets at 1 in E.
  destruct (QuickCommand.initialized w); cbn [negb] in E.
  2:{ simpl in E. inversion E; subst. simpl. eauto. }
  unfold bind at 1 in E. unfold gets at 1 in E.
  destruct (Host.extractEventData _ _ _) as [d|].
  2:{ simpl in E. inversion E; subst. simpl. eauto. }
  destruct (Nat.eqb _ 0).
  { simpl in E. inversion E; subst. simpl. eauto. }
  unfold bind at 1 in E.
  match type of E with
  | context [QuickCommand.onSharePoint ?m w] =>
      destruct (quick_onSharePoint_frame m w) as (Hs1 & Hc1 & _);
      destruct (QuickCommand.onSharePoint m w) as [w1 [r1|e1]]
  end; cbn [fst] in Hs1, Hc1.
  2:{ simpl in E. inversion E; subst. simpl. rewrite Hs1, Hc1. eauto. }
  unfold bind at 1 in E.
  match type of E with
  | context [QuickCommand.onPowerAutomate ?m w1] =>
      destruct (quick_onPowerAutomate_frame m w1) as (Hs2 & Hc2);
      destruct (QuickCommand.onPowerAutomate m w1) as [w2 [r2|e2]]
  end; cbn [fst] in Hs2, Hc2;
    simpl in E; inversion E; subst; simpl; rewrite Hs2, Hc2, Hs1, Hc1; eauto.
Qed.

(** X22: when the list update of [quickProcessVisitors] raises, the
    command shows that error and sends no notification: the
    notification client is left as it was. *)
Theorem X22_quick_store_failure_sends_nothing :
  forall event w d e,
    QuickCommand.initialized w = true ->
    Host.extractEventData (QuickCommand.config w) (QuickCommand.generated w)
      (QuickCommand.item w) = Some d ->
    Host.externalUsers d <> [] ->
    snd (updateVisitorRecords (Host.meetingId d) (Host.subject d) (Host.externalUsers d)
           (Host.startTime d) (Host.endTime d) (QuickCommand.sharePoint w)) = Throw e ->
    let w' := fst (QuickCommand.quickProcessVisitors event w) in
    QuickCommand.powerAutomate w' = QuickCommand.powerAutomate w
    /\ QuickCommand.shown w' = QuickCommand.shown w ++ [QuickCommand.ProcessError e].
Proof.
  intros event w d e Hi Hd Hext Hthrow. cbv zeta.
  assert (Hz : Nat.eqb (List.length (Host.externalUsers d)) 0 = false).
  { destruct (Host.externalUsers d); [contradiction|reflexivity]. }
  destruct (QuickCommand.quickProcessVisitors event w) as [w' r] eqn:E. cbn [fst].
  unfold QuickCommand.quickProcessVisitors, try_finally, try_catch in E.
  unfold bind at 1 in E. unfold gets at 1 in E. rewrite Hi in E. cbn [negb] in E.
  unfold bind at 1 in E. unfold gets at 1 in E. rewrite Hd, Hz in E.
  unfold bind at 1 in E. unfold QuickCommand.onSharePoint at 1 in E.
  destruct (updateVisitorRecords _ _ _ _ _ (QuickCommand.sharePoint w)) as [s' r'].
  simpl in Hthrow. subst r'. unfold modify in E.
  inversion E; subst. destruct event; split; reflexivity.
Qed.

Lemma X22_quick_store_failure_sends_nothing_witness :
  let w := quick_page (appointment [ext "a@ext.com" "A"])
             (store [] 1 [Some Reject; Some Reject; Some Reject; Some Reject])
             (flow []) in
  let w' := fst (QuickCommand.quickProcessVisitors true w) in
  PA.posted (QuickCommand.powerAutomate w') = []
  /\ QuickCommand.shown w' = [QuickCommand.ProcessError NetworkError].
Proof.
  intros w w'.
  destruct (X22_quick_store_failure_sends_nothing true w snapshot_1 NetworkError
              eq_refl eq_refl ltac:(discriminate) eq_refl) as [Hp Hm].
  fold w' in Hp, Hm. split; [rewrite Hp; reflexivity | exact Hm].
Defined.

(** X23: once the list update has succeeded, [quickProcessVisitors] on an
    initialised notification client announces success for all external
    users whatever became of the notifications: it does not look at the
    result of [sendVisitorNotification]. *)
Theorem X23_quick_success_ignores_notification_failures :
  forall event w d c records,
    QuickCommand.initialized w = true ->
    Host.extractEventData (QuickCommand.config w) (QuickCommand.generated w)
      (QuickCommand.item w) = Some d ->
    Host.externalUsers d <> [] ->
    snd (updateVisitorRecords (Host.meetingId d) (Host.subject d) (Host.externalUsers d)
           (Host.startTime d) (Host.endTime d) (QuickCommand.sharePoint w))
    = Ok records ->
    PA.isInitialized (QuickCommand.powerAutomate w) = true ->
    PA.powerAutomate (QuickCommand.powerAutomate w) = Some c ->
    QuickCommand.shown (fst (QuickCommand.quickProcessVisitors event w))
    = QuickCommand.shown w
      ++ [QuickCommand.Processed (List.length (Host.externalUsers d))].
Proof.
  intros event w d c records Hi Hd Hext Hok Hpi Hpc.
  assert (Hz : Nat.eqb (List.length (Host.externalUsers d)) 0 = false).
  { destruct (Host.externalUsers d); [contradiction|reflexivity]. }
  destruct (sendVisitorNotification_Ok (Host.meetingId d) (Host.subject d)
              (Host.externalUsers d) (Host.startTime d) (Host.endTime d) created c
              (QuickCommand.powerAutomate w) Hpi Hpc) as (p' & nr & En & _).
  destruct (QuickCommand.quickProcessVisitors event w) as [w' r] eqn:E. cbn [fst].
  unfold QuickCommand.quickProcessVisitors, try_finally, try_catch in E.
  unfold bind at 1 in E. unfold gets at 1 in E. rewrite Hi in E. cbn [negb] in E.
  unfold bind at 1 in E. unfold gets at 1 in E. rewrite Hd, Hz in E.
  unfold bind at 1 in E. unfold QuickCommand.onSharePoint at 1 in E.
  destruct (updateVisitorRecords _ _ _ _ _ (QuickCommand.sharePoint w)) as [s' r'].
  simpl in Hok. subst r'.
  unfold bind at 1 in E. unfold QuickCommand.onPowerAutomate at 1 in E.
  cbn [QuickCommand.powerAutomate QuickCommand.set_sharePoint] in E.
  rewrite En in E. unfold modify in E.
  inversion E; subst. destruct event; reflexivity.
Qed.

Lemma X23_quick_success_ignores_notification_failures_witness :
  let w := quick_page (appointment [ext "a@ext.com" "A"]) (store [] 1 [])
             (flow [Some PA.Abort; Some PA.Abort; Some PA.Abort; Some PA.Abort]) in
  let w' := fst (QuickCommand.quickProcessVisitors true w) in
  QuickCommand.shown w' = [QuickCommand.Processed 1]
  /\ PA.delivered (QuickCommand.powerAutomate w') = []
  /\ List.length (PA.posted (QuickCommand.powerAutomate w')) = 4.
Proof.
  intros w w'.
  pose proof (X23_quick_success_ignores_notification_failures true w snapshot_1
                _ _ eq_refl eq_refl ltac:(discriminate) eq_refl eq_refl eq_refl) as H.
  fold w' in H. split; [exact H|]. vm_compute. split; reflexivity.
Defined.

(* ===================================================================== *)
(** * Notification history and activity log                              *)
(* ===================================================================== *)

Section History.

Context {N : Type}.

Lemma firstn_app_firstn {A} (n : nat) (l m : list A) :
  firstn n (l ++ firstn n m) = firstn n (l ++ m).
Proof.
  rewrite !firstn_app, firstn_firstn.
  replace (Nat.min (n - List.length l) n) with (n - List.length l) by lia.
  reflexivity.
Qed.

Lemma capped_unshift {A} (n : nat) (e : A) (cur : list A) :
  0 < n ->
  (if (n <? List.length (e :: firstn n cur))%nat
   then firstn n (e :: firstn n cur)
   else e :: firstn n cur)
  = firstn n (e :: cur).
Proof.
  intros Hn. destruct n as [|n]; [lia|].
  rewrite !firstn_cons.
  destruct (Nat.ltb_spec (S n) (List.length (e :: firstn (S n) cur))) as [Hlt|Hge].
  - rewrite firstn_firstn. replace (Nat.min n (S n)) with n by lia. reflexivity.
  - cbn [List.length] in Hge. rewrite length_firstn in Hge.
    assert (Hc : List.length cur <= n) by lia.
    rewrite !firstn_all2 by lia. reflexivity.
Qed.

Lemma getNotificationHistory_reads limit (w : NH.World N) :
  NH.blocked w = false ->
  NH.getNotificationHistory limit w = (w, Ok (firstn limit (stored_history w))).
Proof.
  intros Hb.
  unfold NH.getNotificationHistory, try_catch, bind, NH.getItem, stored_history.
  rewrite Hb.
  destruct (NH.storage w) as [[| | |l]|]; simpl; rewrite ?firstn_nil; reflexivity.
Qed.

Lemma save_at_spec (w : NH.World N) (nt : N * Z) :
  NH.blocked w = false -> NH.full w = false ->
  NH.storage (save_at w nt)
  = Some (NH.Entries (firstn 100 (entry_of nt :: stored_history w)))
  /\ NH.blocked (save_at w nt) = false
  /\ NH.full (save_at w nt) = false.
Proof.
  intros Hb Hf.
  assert (E : NH.saveNotificationHistory (fst nt) (NH.set_now (snd nt) w)
              = (NH.set_storage
                   (Some (NH.Entries (firstn 100 (entry_of nt :: stored_history w))))
                   (NH.set_now (snd nt) w), Ok tt)).
  { unfold NH.saveNotificationHistory, try_catch.
    unfold bind at 1.
    rewrite (getNotificationHistory_reads NH.maxHistorySize (NH.set_now (snd nt) w))
      by exact Hb.
    unfold bind at 1. unfold gets at 1. cbv zeta.
    unfold NH.maxHistorySize.
    replace (stored_history (NH.set_now (snd nt) w)) with (stored_history w)
      by reflexivity.
    rewrite (capped_unshift 100
               {| NH.h_notification := fst nt;
                  NH.h_timestamp := NH.now (NH.set_now (snd nt) w) |}
               (stored_history w)) by lia.
    unfold NH.setItem. cbn [NH.blocked NH.full NH.set_now]. rewrite Hb, Hf.
    reflexivity. }
  unfold save_at. rewrite E. cbn [fst NH.storage NH.set_storage NH.blocked NH.full
                                    NH.set_now].
  auto.
Qed.

Lemma saves_storage (saves : list (N * Z)) :
  forall w : NH.World N,
    NH.blocked w = false -> NH.full w = false -> saves <> [] ->
    NH.storage (fold_left save_at saves w)
    = Some (NH.Entries (firstn 100 (rev (map entry_of saves) ++ stored_history w)))
    /\ NH.blocked (fold_left save_at saves w) = false.
Proof.
  induction saves as [|a rest IH]; intros w Hb Hf Hne; [contradiction|].
  destruct (save_at_spec w a Hb Hf) as (Hs & Hb1 & Hf1).
  cbn [fold_left map rev].
  destruct rest as [|b rest].
  - simpl. split; [exact Hs|exact Hb1].
  - destruct (IH (save_at w a) Hb1 Hf1 ltac:(discriminate)) as [Hs2 Hb2].
    split; [|exact Hb2].
    rewrite Hs2. unfold stored_history at 1. rewrite Hs.
    rewrite firstn_app_firstn, <- app_assoc. reflexivity.
Qed.

End History.

(** X24: the notification history is bounded and newest first.  On a
    usable storage, after any non-empty series of
    [saveNotificationHistory] calls the key holds the 100 most recent
    entries, the latest first, whatever it held before (text that does
    not parse counts as no history), and [getNotificationHistory(limit)]
    returns the first [limit] of them. *)
Theorem X24_history_is_bounded_and_newest_first :
  forall (N : Type) (w : NH.World N) (saves : list (N * Z)) (limit : nat),
    NH.blocked w = false ->
    NH.full w = false ->
    saves <> [] ->
    let w' := fold_left save_at saves w in
    let recent := firstn 100 (rev (map entry_of saves) ++ stored_history w) in
    NH.storage w' = Some (NH.Entries recent)
    /\ List.length recent <= 100
    /\ NH.getNotificationHistory limit w' = (w', Ok (firstn limit recent))
    /\ stored_history (fst (NH.clearNotificationHistory w')) = [].
Proof.
  intros N w saves limit Hb Hf Hne. cbv zeta.
  destruct (saves_storage saves w Hb Hf Hne) as [Hs Hb'].
  split; [exact Hs|]. split; [rewrite length_firstn; lia|]. split.
  - rewrite (getNotificationHistory_reads limit _ Hb').
    unfold stored_history at 1. rewrite Hs. reflexivity.
  - unfold NH.clearNotificationHistory, try_catch, NH.removeItem.
    rewrite Hb'. reflexivity.
Qed.

Lemma X24_history_is_bounded_and_newest_first_witness :
  let w := {| NH.storage := Some (NH.BadText string); NH.blocked := false;
              NH.full := false; NH.now := 0%Z |} in
  let w' := fold_left save_at [("first", 1%Z); ("second", 2%Z)] w in
  snd (NH.getNotificationHistory 50 w')
  = Ok [entry_of ("second", 2%Z); entry_of ("first", 1%Z)].
Proof.
  intros w w'.
  destruct (X24_history_is_bounded_and_newest_first string w
              [("first", 1%Z); ("second", 2%Z)] 50 eq_refl eq_refl
              ltac:(discriminate)) as (_ & _ & Hg & _).
  fold w' in Hg. rewrite Hg. reflexivity.
Defined.

Section Log.

Lemma log_line_step (l : list ActivityLog.LogEntry) (c : Z * string * string) :
  List.length l <= 100 ->
  List.length (log_line l c) = Nat.min 100 (S (List.length l))
  /\ exists dropped, l ++ [line_of c] = dropped ++ log_line l c.
Proof.
  intros Hl. unfold log_line, ActivityLog.addLog. cbv zeta. fold (line_of c).
  rewrite length_app. cbn [List.length].
  destruct (Nat.ltb_spec 100 (List.length l + 1)) as [Hlt|Hge].
  - destruct l as [|x l]; [simpl in Hlt; lia|].
    cbn [app tl]. split.
    + rewrite length_app. cbn [List.length] in *. lia.
    + exists [x]. reflexivity.
  - split; [rewrite length_app; cbn [List.length]; lia|]. exists []. reflexivity.
Qed.

Lemma log_lines (calls : list (Z * string * string)) :
  forall l : list ActivityLog.LogEntry,
    List.length l <= 100 ->
    List.length (fold_left log_line calls l)
    = Nat.min 100 (List.length l + List.length calls)
    /\ exists dropped,
         l ++ map line_of calls = dropped ++ fold_left log_line calls l.
Proof.
  induction calls as [|c calls IH]; intros l Hl.
  - cbn [fold_left map List.length]. split; [lia|]. exists []. now rewrite app_nil_r.
  - destruct (log_line_step l c Hl) as (Hlen & d1 & Hd1).
    destruct (IH (log_line l c) ltac:(lia)) as (Hlen2 & d2 & Hd2).
    cbn [fold_left map List.length]. split; [lia|].
    exists (d1 ++ d2).
    rewrite <- app_assoc, <- Hd2, app_assoc, <- Hd1, <- app_assoc. reflexivity.
Qed.

End Log.

(** X25: the activity log keeps the most recent 100 lines.  From a log
    of at most 100 lines, such as the one [handleClearLog] leaves, after
    any series of [addLog] calls the log is the tail of everything
    written, of length [min 100 (old + new)], in the order written. *)
Theorem X25_activity_log_keeps_last_100 :
  forall (l : list ActivityLog.LogEntry) (calls : list (Z * string * string)),
    List.length l <= 100 ->
    let l' := fold_left log_line calls l in
    List.length l' = Nat.min 100 (List.length l + List.length calls)
    /\ (exists dropped, l ++ map line_of calls = dropped ++ l')
    /\ List.length (ActivityLog.handleClearLog l') <= 100.
Proof.
  intros l calls Hl. cbv zeta.
  destruct (log_lines calls l Hl) as [Hlen Hd].
  split; [exact Hlen|]. split; [exact Hd|]. simpl. lia.
Qed.

Lemma X25_activity_log_keeps_last_100_witness :
  let l := ActivityLog.handleClearLog [] in
  let calls := repeat (0%Z, "info", "tick") 100 in
  List.length (fold_left log_line calls l) = 100
  /\ fold_left log_line calls l = map line_of calls.
Proof.
  intros l calls.
  destruct (X25_activity_log_keeps_last_100 l calls ltac:(simpl; lia))
    as (Hlen & _ & _).
  split; [exact Hlen|]. vm_compute. reflexivity.
Defined.

(* ===================================================================== *)
(** * The registry of listeners                                          *)
(* ===================================================================== *)

Section Registry.

Lemma with_calls_nil w : with_calls w [] = w.
Proof. destruct w. unfold with_calls. simpl. now rewrite app_nil_r. Qed.

Lemma with_calls_app w cs cs' :
  with_calls (with_calls w cs) cs' = with_calls w (cs ++ cs').
Proof. unfold with_calls. simpl. now rewrite app_assoc. Qed.

Lemma get_map_set w k v k' :
  ER.get (ER.set_eventHandlers (ER.map_set (ER.eventHandlers w) k v) w) k'
  = if String.eqb k' k then v else ER.get w k'.
Proof.
  unfold ER.get, ER.set_eventHandlers, ER.map_set. simpl.
  destruct (String.eqb k' k); reflexivity.
Qed.

Lemma get_addEventListener w k h k' :
  ER.get (ER.addEventListener k h w) k'
  = if String.eqb k' k then ER.get w k ++ [h] else ER.get w k'.
Proof.
  unfold ER.addEventListener. cbv zeta. rewrite get_map_set.
  destruct (String.eqb k' k) eqn:Ek.
  - f_equal. unfold ER.has.
    destruct (ER.eventHandlers w k) as [l|] eqn:El; cbn [negb].
    + reflexivity.
    + rewrite get_map_set, String.eqb_refl. unfold ER.get. now rewrite El.
  - unfold ER.has.
    destruct (ER.eventHandlers w k) as [l|] eqn:El; cbn [negb].
    + reflexivity.
    + now rewrite get_map_set, Ek.
Qed.

Lemma indexOf_split h l i :
  ER.indexOf h l = Some i ->
  exists pre post,
    l = pre ++ h :: post /\ ~ In h pre /\ ER.splice1 i l = pre ++ post.
Proof.
  revert i. induction l as [|x l IH]; intros i H; simpl in H; [discriminate|].
  destruct (Nat.eqb_spec x h) as [->|Hne].
  - inversion H; subst. exists [], l. repeat split; auto.
  - destruct (ER.indexOf h l) as [j|] eqn:Ej; simpl in H; [|discriminate].
    inversion H; subst.
    destruct (IH j eq_refl) as (pre & post & Hl & Hnot & Hs).
    exists (x :: pre), post. split; [now rewrite Hl|]. split.
    + intros [Hx|Hin]; [congruence|contradiction].
    + unfold ER.splice1 in *. rewrite firstn_cons, skipn_cons.
      cbn [app]. now rewrite Hs.
Qed.

Lemma indexOf_none h l : ER.indexOf h l = None -> ~ In h l.
Proof.
  induction l as [|x l IH]; simpl; intros H; [tauto|].
  destruct (Nat.eqb_spec x h) as [->|Hne]; [discriminate|].
  destruct (ER.indexOf h l); [discriminate|].
  intros [Hx|Hin]; [congruence|]. now apply IH.
Qed.

Lemma get_removeEventListener w k h k' :
  ER.get (ER.removeEventListener k h w) k'
  = if String.eqb k' k
    then match ER.indexOf h (ER.get w k) with
         | Some i => ER.splice1 i (ER.get w k)
         | None => ER.get w k
         end
    else ER.get w k'.
Proof.
  unfold ER.removeEventListener, ER.has. cbv zeta.
  destruct (ER.eventHandlers w k) as [l|] eqn:El.
  - destruct (ER.indexOf h (ER.get w k)) as [i|].
    + apply get_map_set.
    + destruct (String.eqb_spec k' k) as [->|]; reflexivity.
  - assert (Hg : ER.get w k = []) by (unfold ER.get; now rewrite El).
    rewrite Hg. simpl.
    destruct (String.eqb_spec k' k) as [->|]; [exact Hg|reflexivity].
Qed.

Lemma count_occ_splice h l i h' :
  ER.indexOf h l = Some i ->
  count_occ Nat.eq_dec (ER.splice1 i l) h'
  = count_occ Nat.eq_dec l h' - (if Nat.eq_dec h h' then 1 else 0).
Proof.
  intros H. destruct (indexOf_split h l i H) as (pre & post & -> & _ & ->).
  rewrite !count_occ_app. cbn [count_occ].
  destruct (Nat.eq_dec h h'); lia.
Qed.

Lemma invoke_all_return (f : ER.Handler -> ER.Call) (hs : list ER.Handler) :
  forall w,
    all_return w hs ->
    for_of hs (fun handler => ER.invoke handler (f handler)) w
    = (with_calls w (map f hs), Ok tt).
Proof.
  induction hs as [|h hs IH]; intros w Hall.
  - simpl. unfold ret. now rewrite with_calls_nil.
  - inversion Hall as [|? ? Hh Hhs]; subst.
    cbn [for_of map]. unfold bind at 1. unfold ER.invoke at 1. rewrite Hh.
    fold (with_calls w [f h]).
    rewrite (IH (with_calls w [f h]) Hhs), with_calls_app. reflexivity.
Qed.

Lemma invoke_first_failure (f : ER.Handler -> ER.Call) (pre : list ER.Handler) :
  forall w h post e,
    all_return w pre ->
    ER.behaviour w h = Some e ->
    for_of (pre ++ h :: post) (fun handler => ER.invoke handler (f handler)) w
    = (with_calls w (map f pre ++ [f h]), Throw e).
Proof.
  induction pre as [|x pre IH]; intros w h post e Hall Hh.
  - cbn [app for_of map]. unfold bind at 1. unfold ER.invoke at 1. rewrite Hh.
    reflexivity.
  - inversion Hall as [|? ? Hx Hpre]; subst.
    cbn [app for_of map]. unfold bind at 1. unfold ER.invoke at 1. rewrite Hx.
    fold (with_calls w [f x]).
    rewrite (IH (with_calls w [f x]) h post e Hpre Hh), with_calls_app.
    reflexivity.
Qed.

End Registry.

(** X26: [removeEventListener] cancels exactly one registration.  Adding
    a listener registers it once more under its key; removing it again
    leaves every listener registered under every key as often as
    before, and removing a listener that is not registered changes
    nothing. *)
Theorem X26_remove_cancels_one_registration :
  forall w k h,
    registrations (ER.addEventListener k h w) k h = S (registrations w k h)
    /\ (forall k' h',
          registrations (ER.removeEventListener k h (ER.addEventListener k h w)) k' h'
          = registrations w k' h')
    /\ (forall k',
          registrations w k h = 0 ->
          ER.get (ER.removeEventListener k h (ER.addEventListener k h w)) k'
          = ER.get w k'
          /\ ER.get (ER.removeEventListener k h w) k' = ER.get w k').
Proof.
  intros w k h. unfold registrations. split; [|split].
  - rewrite get_addEventListener, String.eqb_refl, count_occ_app. cbn [count_occ].
    destruct (Nat.eq_dec h h); [|congruence]. now rewrite Nat.add_1_r.
  - intros k' h'. rewrite get_removeEventListener.
    destruct (String.eqb_spec k' k) as [->|Hne].
    + rewrite get_addEventListener, String.eqb_refl.
      destruct (ER.indexOf h (ER.get w k ++ [h])) as [i|] eqn:Ei.
      * rewrite (count_occ_splice h _ i h' Ei), count_occ_app. cbn [count_occ].
        unfold ER.Handler in *. destruct (Nat.eq_dec h h'); lia.
      * exfalso. apply (indexOf_none _ _ Ei). apply in_or_app. right. now left.
    + rewrite get_addEventListener.
      destruct (String.eqb_spec k' k); [contradiction|reflexivity].
  - intros k' Hzero.
    assert (Hnot : ~ In h (ER.get w k)).
    { intros Hin. apply (count_occ_In Nat.eq_dec) in Hin. lia. }
    split.
    + rewrite get_removeEventListener.
      destruct (String.eqb_spec k' k) as [->|Hne].
      * rewrite get_addEventListener, String.eqb_refl.
        destruct (ER.indexOf h (ER.get w k ++ [h])) as [i|] eqn:Ei.
        -- destruct (indexOf_split h _ i Ei) as (pre & post & Hl & Hpre & ->).
           destruct post as [|y post].
           ++ apply app_inj_tail in Hl. destruct Hl as [-> _].
              now rewrite app_nil_r.
           ++ exfalso. apply Hnot.
              assert (Hin : In h (removelast (ER.get w k ++ [h]))).
              { rewrite Hl. rewrite removelast_app by discriminate.
                apply in_or_app. right.
                cbn [removelast]. now left. }
              now rewrite removelast_last in Hin.
        -- exfalso. apply (indexOf_none _ _ Ei). apply in_or_app. right. now left.
      * rewrite get_addEventListener.
        destruct (String.eqb_spec k' k); [contradiction|reflexivity].
    + rewrite get_removeEventListener.
      destruct (String.eqb_spec k' k) as [->|Hne]; [|reflexivity].
      destruct (ER.indexOf h (ER.get w k)) as [i|] eqn:Ei; [|reflexivity].
      exfalso. apply Hnot.
      destruct (indexOf_split h _ i Ei) as (pre & post & Hl & _ & _).
      rewrite Hl. apply in_or_app. right. now left.
Qed.

Lemma X26_remove_cancels_one_registration_witness :
  let w := {| ER.eventHandlers := fun _ => None;
              ER.behaviour := fun _ => None;
              ER.calls := [] |} in
  ER.get (ER.removeEventListener "all" 7 (ER.addEventListener "all" 7 w)) "all" = []
  /\ ER.get (ER.removeEventListener "all" 7 w) "all" = [].
Proof.
  intros w.
  exact (proj2 (proj2 (X26_remove_cancels_one_registration w "all" 7)) "all" eq_refl).
Defined.

(** The first block of [processEventChange] when no typed listener
    throws. *)
Lemma typed_listeners_return w changeType d :
  all_return w (ER.get w changeType) ->
  (if ER.has w changeType
   then for_of (ER.get w changeType)
          (fun handler => ER.invoke handler (ER.Typed handler d))
   else ret tt) w
  = (with_calls w (map (fun h => ER.Typed h d) (ER.get w changeType)), Ok tt).
Proof.
  intros Ht. unfold ER.has, ER.get in *.
  destruct (ER.eventHandlers w changeType) as [l|].
  - now apply invoke_all_return.
  - unfold ret. simpl. now rewrite with_calls_nil.
Qed.

(** X27: [processEventChange] calls the listeners of the change type in
    the order they were added and then the listeners of ['all'], each
    once per registration; the first listener that throws, typed or
    registered under ['all'], ends the dispatch with its error, so that
    the listeners after it, and every listener of ['all'] when a typed
    listener throws, are not called. *)
Theorem X27_dispatch_order_and_first_failure :
  forall w changeType d,
    (all_return w (ER.get w changeType) ->
     all_return w (ER.get w "all") ->
     snd (ER.processEventChange changeType d w) = Ok tt
     /\ ER.calls (fst (ER.processEventChange changeType d w))
        = ER.calls w ++ dispatch_calls w changeType d)
    /\ (forall pre h post e,
          ER.get w changeType = pre ++ h :: post ->
          all_return w pre ->
          ER.behaviour w h = Some e ->
          snd (ER.processEventChange changeType d w) = Throw e
          /\ ER.calls (fst (ER.processEventChange changeType d w))
             = ER.calls w ++ map (fun x => ER.Typed x d) pre ++ [ER.Typed h d])
    /\ (forall pre h post e,
          all_return w (ER.get w changeType) ->
          ER.get w "all" = pre ++ h :: post ->
          all_return w pre ->
          ER.behaviour w h = Some e ->
          snd (ER.processEventChange changeType d w) = Throw e
          /\ ER.calls (fst (ER.processEventChange changeType d w))
             = ER.calls w ++ map (fun x => ER.Typed x d) (ER.get w changeType)
               ++ map (fun x => ER.All x changeType d) pre
               ++ [ER.All h changeType d]).
Proof.
  intros w changeType d. split; [|split].
  - intros Ht Ha.
    assert (E : ER.processEventChange changeType d w
                = (with_calls w (dispatch_calls w changeType d), Ok tt)).
    { unfold ER.processEventChange. rewrite try_catch_rethrow.
      unfold bind at 1. unfold bind at 1. unfold gets at 1.
      rewrite (typed_listeners_return w changeType d Ht).
      unfold bind at 1. unfold gets at 1.
      set (w1 := with_calls w (map (fun h => ER.Typed h d) (ER.get w changeType))).
      assert (E2 : (if ER.has w1 "all"
                    then for_of (ER.get w1 "all")
                           (fun handler => ER.invoke handler (ER.All handler changeType d))
                    else ret tt) w1
                   = (with_calls w1 (map (fun h => ER.All h changeType d)
                                       (ER.get w "all")), Ok tt)).
      { unfold ER.has.
        change (ER.get w1 "all") with (ER.get w "all").
        change (ER.eventHandlers w1 "all") with (ER.eventHandlers w "all").
        unfold ER.get in *.
        destruct (ER.eventHandlers w "all") as [l|].
        - apply invoke_all_return. exact Ha.
        - unfold ret. simpl. now rewrite with_calls_nil. }
      rewrite E2. unfold w1. rewrite with_calls_app. reflexivity. }
    rewrite E. split; reflexivity.
  - intros pre h post e Hl Hpre Hh.
    assert (E : ER.processEventChange changeType d w
                = (with_calls w (map (fun x => ER.Typed x d) pre ++ [ER.Typed h d]),
                   Throw e)).
    { unfold ER.processEventChange. rewrite try_catch_rethrow.
      unfold bind at 1. unfold bind at 1. unfold gets at 1.
      assert (Hhas : ER.has w changeType = true).
      { unfold ER.has, ER.get in *.
        destruct (ER.eventHandlers w changeType); [reflexivity|].
        destruct pre; discriminate. }
      rewrite Hhas, Hl.
      rewrite (invoke_first_failure (fun x => ER.Typed x d) pre w h post e Hpre Hh).
      reflexivity. }
    rewrite E. split; reflexivity.
  - intros pre h post e Ht Hl Hpre Hh.
    assert (E : ER.processEventChange changeType d w
                = (with_calls w (map (fun x => ER.Typed x d) (ER.get w changeType)
                                 ++ map (fun x => ER.All x changeType d) pre
                                 ++ [ER.All h changeType d]),
                   Throw e)).
    { unfold ER.processEventChange. rewrite try_catch_rethrow.
      unfold bind at 1. unfold bind at 1. unfold gets at 1.
      rewrite (typed_listeners_return w changeType d Ht).
      unfold bind at 1. unfold gets at 1.
      set (w1 := with_calls w (map (fun h => ER.Typed h d) (ER.get w changeType))).
      assert (Hhas : ER.has w1 "all" = true).
      { unfold ER.has.
        change (ER.eventHandlers w1 "all") with (ER.eventHandlers w "all").
        unfold ER.get in Hl.
        destruct (ER.eventHandlers w "all"); [reflexivity|].
        destruct pre; discriminate. }
      rewrite Hhas.
      change (ER.get w1 "all") with (ER.get w "all"). rewrite Hl.
      rewrite (invoke_first_failure (fun x => ER.All x changeType d) pre w1 h post e
                 Hpre Hh).
      unfold w1. rewrite with_calls_app. reflexivity. }
    rewrite E. split; reflexivity.
Qed.

Lemma X27_dispatch_order_and_first_failure_witness :
  let d := snapshot [ext "a@ext.com" "A"] in
  let w := ER.addEventListener "all" 7
             (ER.addEventListener "all" 2
                (ER.addEventListener "time_changed" 3
                   (ER.addEventListener "time_changed" 2
                      {| ER.eventHandlers := fun _ => None;
                         ER.behaviour := fun h => if Nat.eqb h 2 then Some TypeError
                                                  else None;
                         ER.calls := [] |}))) in
  (snd (ER.processEventChange "time_changed" d w) = Throw TypeError
   /\ ER.calls (fst (ER.processEventChange "time_changed" d w)) = [ER.Typed 2 d])
  /\ (snd (ER.processEventChange "subject_changed" d w) = Throw TypeError
      /\ ER.calls (fst (ER.processEventChange "subject_changed" d w))
         = [ER.All 2 "subject_changed" d]).
Proof.
  intros d w. split.
  - exact (proj1 (proj2 (X27_dispatch_order_and_first_failure w "time_changed" d))
             [] 2 [3] TypeError eq_refl (Forall_nil _) eq_refl).
  - exact (proj2 (proj2 (X27_dispatch_order_and_first_failure w "subject_changed" d))
             [] 2 [7] TypeError (Forall_nil _) eq_refl (Forall_nil _) eq_refl).
Defined.

(* ===================================================================== *)
(** * The event data handed to the listeners                             *)
(* ===================================================================== *)

Section EventData.



(** [extractEventData] is the extraction in which the required
    attendees are answered first. *)
Lemma extractEventData_registration_order config generated item :
  Host.extractEventData config generated item
  = Host.extractEventData_completing Host.RequiredFirst config generated item.
Proof. reflexivity. Qed.

End EventData.



(* ===================================================================== *)
(** * The access token cache                                             *)
(* ===================================================================== *)

Section Token.

Lemma getAccessToken_cached w token :
  AccessToken.cached w = Some token ->
  AccessToken.getAccessToken w = (w, Ok token).
Proof.
  intros H. unfold AccessToken.getAccessToken. rewrite try_catch_rethrow.
  unfold bind, gets. now rewrite H.
Qed.

Lemma request_asks w :
  AccessToken.asked (fst (AccessToken.request w)) = S (AccessToken.asked w).
Proof.
  unfold AccessToken.request.
  destruct (AccessToken.replies w) as [|[latency [token e|]] rest]; reflexivity.
Qed.

Lemma getAccessToken_stale w :
  AccessToken.cached w = None ->
  AccessToken.method w <> AccessToken.NoMethod ->
  AccessToken.asked (fst (AccessToken.getAccessToken w)) = S (AccessToken.asked w).
Proof.
  intros H Hm. unfold AccessToken.getAccessToken. rewrite try_catch_rethrow.
  unfold bind at 1. unfold gets at 1. rewrite H.
  destruct (AccessToken.method w); [| |contradiction].
  - unfold bind at 1. pose proof (request_asks w) as Ha.
    destruct (AccessToken.request w) as [w1 [[token e]|err]]; simpl in *; exact Ha.
  - unfold AccessToken.getMsalToken. rewrite try_catch_rethrow.
    unfold bind at 1. pose proof (request_asks w) as Ha.
    destruct (AccessToken.request w) as [w1 [[token e]|err]]; simpl in *; exact Ha.
Qed.

Lemma getAccessToken_fills w w1 token :
  AccessToken.getAccessToken w = (w1, Ok token) ->
  exists expiry,
    AccessToken.accessToken w1 = Some token
    /\ AccessToken.tokenExpiry w1 = Some expiry
    /\ AccessToken.method w1 = AccessToken.method w
    /\ (AccessToken.method w = AccessToken.OfficeAuth ->
        AccessToken.asked w1 <> AccessToken.asked w ->
        expiry = (AccessToken.now w1 + 3000000)%Z).
Proof.
  unfold AccessToken.getAccessToken. rewrite try_catch_rethrow.
  unfold bind at 1. unfold gets at 1.
  destruct (AccessToken.cached w) as [tok|] eqn:Hc.
  - unfold ret. intros H; inversion H; subst.
    unfold AccessToken.cached in Hc.
    destruct (AccessToken.accessToken w1) as [t0|]; [|discriminate].
    destruct (AccessToken.tokenExpiry w1) as [e0|]; [|discriminate].
    destruct (negb (String.eqb t0 "") && (AccessToken.now w1 <? e0)%Z);
      [|discriminate].
    inversion Hc; subst. exists e0. repeat split; auto.
    intros _ Hne. congruence.
  - destruct (AccessToken.method w) eqn:Hm.
    + unfold bind at 1. unfold AccessToken.request.
      destruct (AccessToken.replies w) as [|[latency [tok e|]] rest];
        [discriminate| |discriminate].
      simpl. intros H; inversion H; subst. simpl.
      eexists. repeat split; auto.
    + unfold AccessToken.getMsalToken. rewrite try_catch_rethrow.
      unfold bind at 1. unfold AccessToken.request.
      destruct (AccessToken.replies w) as [|[latency [tok e|]] rest];
        [discriminate| |discriminate].
      simpl. intros H; inversion H; subst. simpl.
      eexists. repeat split; auto. discriminate.
    + discriminate.
Qed.

End Token.

(** X29: the access token is reused until it expires.  After a call of
    [getAccessToken] that returned a non-empty token, the token and an
    expiry are cached (50 minutes past the answer when it was obtained
    from [Office.auth]); every later call before the expiry returns the
    same token without asking the identity provider and leaves the
    service as it is, and a call at or after the expiry, or after
    [dispose], asks the provider once. *)
Theorem X29_token_is_reused_until_it_expires :
  forall w w1 token,
    AccessToken.getAccessToken w = (w1, Ok token) ->
    token <> "" ->
    exists expiry,
      AccessToken.tokenExpiry w1 = Some expiry
      /\ (AccessToken.method w = AccessToken.OfficeAuth ->
          AccessToken.asked w1 <> AccessToken.asked w ->
          expiry = (AccessToken.now w1 + 3000000)%Z)
      /\ (forall t, (t < expiry)%Z ->
            AccessToken.getAccessToken (AccessToken.set_now t w1)
            = (AccessToken.set_now t w1, Ok token))
      /\ (AccessToken.method w <> AccessToken.NoMethod ->
          (forall t, (expiry <= t)%Z ->
             AccessToken.asked
               (fst (AccessToken.getAccessToken (AccessToken.set_now t w1)))
             = S (AccessToken.asked w1))
          /\ AccessToken.asked
               (fst (AccessToken.getAccessToken (AccessToken.dispose w1)))
             = S (AccessToken.asked w1)).
Proof.
  intros w w1 token H Hne.
  destruct (getAccessToken_fills w w1 token H) as (expiry & Ha & He & Hm & Hsso).
  exists expiry. split; [exact He|]. split; [exact Hsso|]. split.
  - intros t Ht. apply getAccessToken_cached.
    unfold AccessToken.cached. cbn [AccessToken.accessToken AccessToken.tokenExpiry
                                     AccessToken.set_now AccessToken.now].
    rewrite Ha, He.
    destruct (String.eqb_spec token ""); [contradiction|].
    destruct (Z.ltb_spec t expiry); [reflexivity|lia].
  - intros Hmeth. split.
    + intros t Ht.
      change (AccessToken.asked w1) with (AccessToken.asked (AccessToken.set_now t w1)).
      apply getAccessToken_stale.
      * unfold AccessToken.cached. cbn [AccessToken.accessToken AccessToken.tokenExpiry
                                         AccessToken.set_now AccessToken.now].
        rewrite Ha, He.
        destruct (Z.ltb_spec t expiry); [lia|]. now rewrite andb_false_r.
      * cbn [AccessToken.method AccessToken.set_now]. now rewrite Hm.
    + change (AccessToken.asked w1) with (AccessToken.asked (AccessToken.dispose w1)).
      apply getAccessToken_stale; [reflexivity|].
      cbn [AccessToken.method AccessToken.dispose AccessToken.set_cache].
      now rewrite Hm.
Qed.

Lemma X29_token_is_reused_until_it_expires_witness :
  let w := {| AccessToken.accessToken := None; AccessToken.tokenExpiry := None;
              AccessToken.method := AccessToken.OfficeAuth;
              AccessToken.replies := [(200%Z, AccessToken.Granted "tok" 0%Z)];
              AccessToken.asked := 0; AccessToken.now := 1000%Z |} in
  let w1 := fst (AccessToken.getAccessToken w) in
  AccessToken.asked w1 = 1
  /\ AccessToken.getAccessToken (AccessToken.set_now 3001199%Z w1)
     = (AccessToken.set_now 3001199%Z w1, Ok "tok")
  /\ AccessToken.asked
       (fst (AccessToken.getAccessToken (AccessToken.set_now 3001200%Z w1))) = 2.
Proof.
  intros w w1.
  destruct (X29_token_is_reused_until_it_expires w w1 "tok" eq_refl
              ltac:(discriminate)) as (expiry & He & _ & Hfresh & Hstale).
  assert (Hx : expiry = 3001200%Z) by (vm_compute in He; now inversion He).
  subst expiry. split; [reflexivity|]. split.
  - apply Hfresh. lia.
  - apply (proj1 (Hstale ltac:(discriminate))). lia.
Defined.
